(** * Generic UPnP device handling

    A model of [src/upnp_device.cc] of gmrender-resurrect: the action,
    state-variable and subscription dispatchers, the response helpers
    handed to action handlers, the start-up of the device and the
    generation of the device descriptor.

    Conventions.  Pointers to services are indices into the device's
    service array; a null pointer is [None].  Everything the program
    does to the outside (locks, log lines, calls into libupnp, calls of
    a handler) is appended to a chronological trace.  libupnp itself is
    a record of functions the development is parametric in. *)

From Stdlib Require Import ZArith String Ascii List Lia DecimalString.
From stdpp Require Import base list strings.
Import ListNotations.

Set Warnings "-register-all".
Local Open Scope string_scope.
Local Open Scope list_scope.
Local Open Scope Z_scope.

(** ** The C library's string comparisons *)

Module CString.

Definition byte (c : ascii) : Z := Z.of_N (N_of_ascii c).

(** The byte a [char*] points at; past the last character sits the
    terminating NUL. *)
Definition deref (s : string) : Z :=
  match s with
  | EmptyString => 0
  | String c _ => byte c
  end.

Definition next (s : string) : string :=
  match s with
  | EmptyString => EmptyString
  | String _ r => r
  end.

Fixpoint strlen (s : string) : nat :=
  match s with
  | EmptyString => 0%nat
  | String c r => if deref s =? 0 then 0%nat else S (strlen r)
  end.

Fixpoint strcmp (s1 s2 : string) : Z :=
  match s1 with
  | EmptyString => 0 - deref s2
  | String c r1 =>
      if byte c =? deref s2
      then (if byte c =? 0 then 0 else strcmp r1 (next s2))
      else byte c - deref s2
  end.

Fixpoint strncmp (s1 s2 : string) (n : nat) : Z :=
  match n with
  | O => 0
  | S n' =>
      if deref s1 =? deref s2
      then (if deref s1 =? 0 then 0 else strncmp (next s1) (next s2) n')
      else deref s1 - deref s2
  end.

(** A string a [const char*] can denote holds no NUL. *)
Fixpoint nul_free (s : string) : Prop :=
  match s with
  | EmptyString => True
  | String c r => byte c <> 0 /\ nul_free r
  end.

End CString.

Import CString.

(** ** libupnp: constants, documents and request objects

    libupnp is not part of the repository.  The numeric constants are
    those of its [upnp.h]. *)

Definition UPNP_E_SUCCESS : Z := 0.
Definition UPNP_SOAP_E_INVALID_ACTION : Z := 401.
Definition UPNP_SOAP_E_INVALID_ARGS : Z := 402.
Definition UPNP_SOAP_E_INVALID_VAR : Z := 404.
Definition UPNP_SOAP_E_ACTION_FAILED : Z := 501.
Definition LINE_SIZE : nat := 180.

(** The DOM of ixml, as far as [upnp_get_string] walks it. *)
Inductive IXML_Node : Type :=
  ixml_node (nodeName : string) (nodeValue : option string)
            (childNodes : list IXML_Node).

Definition IXML_Document : Type := IXML_Node.

Definition ixmlNode_getNodeName (n : IXML_Node) : string :=
  match n with ixml_node name _ _ => name end.

Definition ixmlNode_getNodeValue (n : IXML_Node) : option string :=
  match n with ixml_node _ value _ => value end.

Definition ixmlNode_childNodes (n : IXML_Node) : list IXML_Node :=
  match n with ixml_node _ _ children => children end.

Definition ixmlNode_getFirstChild (n : IXML_Node) : option IXML_Node :=
  head (ixmlNode_childNodes n).

Record UpnpActionRequest : Type := {
  ar_ErrCode : Z;
  ar_Socket : Z;
  ar_ErrStr : string;
  ar_ActionName : string;
  ar_DevUDN : string;
  ar_ServiceID : string;
  ar_ActionRequest : option IXML_Document;
  ar_ActionResult : option IXML_Document
}.

Definition UpnpActionRequest_set_ActionResult
    (r : UpnpActionRequest) (doc : option IXML_Document) : UpnpActionRequest :=
  {| ar_ErrCode := ar_ErrCode r; ar_Socket := ar_Socket r;
     ar_ErrStr := ar_ErrStr r; ar_ActionName := ar_ActionName r;
     ar_DevUDN := ar_DevUDN r; ar_ServiceID := ar_ServiceID r;
     ar_ActionRequest := ar_ActionRequest r; ar_ActionResult := doc |}.

Definition UpnpActionRequest_set_ErrCode
    (r : UpnpActionRequest) (code : Z) : UpnpActionRequest :=
  {| ar_ErrCode := code; ar_Socket := ar_Socket r;
     ar_ErrStr := ar_ErrStr r; ar_ActionName := ar_ActionName r;
     ar_DevUDN := ar_DevUDN r; ar_ServiceID := ar_ServiceID r;
     ar_ActionRequest := ar_ActionRequest r;
     ar_ActionResult := ar_ActionResult r |}.

Definition UpnpActionRequest_set_ErrStr
    (r : UpnpActionRequest) (s : string) : UpnpActionRequest :=
  {| ar_ErrCode := ar_ErrCode r; ar_Socket := ar_Socket r;
     ar_ErrStr := s; ar_ActionName := ar_ActionName r;
     ar_DevUDN := ar_DevUDN r; ar_ServiceID := ar_ServiceID r;
     ar_ActionRequest := ar_ActionRequest r;
     ar_ActionResult := ar_ActionResult r |}.

Record UpnpStateVarRequest : Type := {
  sv_ErrCode : Z;
  sv_ServiceID : string;
  sv_StateVarName : string;
  sv_CurrentVal : option string
}.

Definition UpnpStateVarRequest_set_ErrCode
    (r : UpnpStateVarRequest) (code : Z) : UpnpStateVarRequest :=
  {| sv_ErrCode := code; sv_ServiceID := sv_ServiceID r;
     sv_StateVarName := sv_StateVarName r; sv_CurrentVal := sv_CurrentVal r |}.

Definition UpnpStateVarRequest_set_CurrentVal
    (r : UpnpStateVarRequest) (v : option string) : UpnpStateVarRequest :=
  {| sv_ErrCode := sv_ErrCode r; sv_ServiceID := sv_ServiceID r;
     sv_StateVarName := sv_StateVarName r; sv_CurrentVal := v |}.

Record UpnpSubscriptionRequest : Type := {
  sr_ServiceId : string;
  sr_UDN : string;
  sr_SID : string
}.

Inductive Upnp_EventType : Type :=
| UPNP_CONTROL_ACTION_REQUEST (ar_event : UpnpActionRequest)
| UPNP_CONTROL_GET_VAR_REQUEST (sv_event : UpnpStateVarRequest)
| UPNP_EVENT_SUBSCRIPTION_REQUEST (sr_event : UpnpSubscriptionRequest)
| UPNP_OTHER_EVENT (EventType : Z).

(** ** What the program does to the outside *)

Inductive mutex : Type :=
| device_mutex
| service_mutex (srv : nat).

(** An argument of a printf-style log call; [arg_null] is a null
    [char*] handed to [%s]. *)
Inductive fmt_arg : Type :=
| arg_s (s : string)
| arg_d (z : Z)
| arg_null.

Inductive event : Type :=
| Log_error (tag fmt : string) (args : list fmt_arg)
| Log_info (tag fmt : string) (args : list fmt_arg)
| ithread_mutex_lock (m : mutex)
| ithread_mutex_unlock (m : mutex)
| container_Get (srv var : nat)
| container_Set (srv var : nat) (value : string)
| LastChange_Start (srv : nat)
| LastChange_Finish (srv : nat)
| LastChange_misuse (srv : nat)
| LastChange_emit (serviceID varname value : string)
| callback_enter (actionName : string)
| callback_return (rc : Z)
| call_UpnpNotify (handle : Z) (udn serviceID : string)
                  (varnames varvalues : list string) (varcount : Z)
| call_UpnpAcceptSubscription (handle : Z) (udn serviceId : string)
                              (names values : list string) (count : Z)
                              (sid : string)
| call_UpnpInit2 (interface_name : string) (port : Z)
| call_usleep (usec : Z)
| call_UpnpEnableWebserver (enable : bool)
| call_webserver_register_callbacks
| call_UpnpAddVirtualDir (dir : string)
| call_UpnpRegisterRootDevice2 (description : string) (length : Z)
| call_UpnpSendAdvertisement (handle : Z) (expiry : Z).

(** libupnp's entry points the file calls.  A bind attempt may answer
    differently as time passes, so [UpnpInit2] sees what happened so
    far. *)
Record libupnp : Type := {
  UpnpAddToActionResponse :
    option IXML_Document -> string -> string -> string -> string ->
    Z * option IXML_Document;
  UpnpMakeActionResponse : string -> string -> option IXML_Document;
  UpnpGetErrorMessage : Z -> string;
  UpnpAcceptSubscription :
    Z -> string -> string -> list string -> list string -> Z -> string -> Z;
  UpnpInit2 : list event -> string -> Z -> Z;
  UpnpEnableWebserver : bool -> Z;
  UpnpAddVirtualDir : string -> Z;
  UpnpGetServerIpAddress : string;
  UpnpGetServerPort : Z;
  UpnpRegisterRootDevice2 : string -> Z -> Z * Z;
  UpnpSendAdvertisement : Z -> Z -> Z
}.

(** ** The data model of upnp_device.h and upnp_service.h *)

(** What an action handler may do, as a tree of its calls: the four
    helpers this file exports to handlers, reads of [event->status],
    reads and writes of the service's variables, and nested windows of
    the change collector.  A continuation receives what the call
    returned. *)
Inductive handler : Type :=
| Return (rc : Z)
| AddResponse (key value : string) (k : Z -> handler)
| AppendVariable (varnum : nat) (paramname : string) (k : handler)
| SetError (error_code : Z) (formatted : string) (k : handler)
| GetString (key : string) (k : option string -> handler)
| ReadStatus (k : Z -> handler)
| VariableGet (varnum : nat) (k : string -> handler)
| VariableSet (varnum : nat) (value : string) (k : handler)
| CollectorStart (k : handler)
| CollectorFinish (k : handler).

Record action : Type := {
  action_name : string;
  callback : option handler
}.

Record UPnPLastChangeCollector : Type := {
  nesting_depth : nat;
  pending : list (string * string)
}.

Record service : Type := {
  service_id : string;
  service_type : string;
  scpd_url : string;
  control_url : string;
  event_url : string;
  event_xml_ns : string;
  actions : list action;
  variable_container : list (string * string);
  last_change : option UPnPLastChangeCollector
}.

Record icon : Type := {
  width : Z;
  height : Z;
  depth : Z;
  url : string;
  mimetype : string
}.

Record upnp_device_descriptor : Type := {
  device_type : string;
  friendly_name : string;
  manufacturer : string;
  manufacturer_url : string;
  model_description : string;
  model_name : string;
  model_number : string;
  model_url : string;
  presentation_url : string;
  udn : string;
  icons : option (list icon);
  services : list service
}.

Record upnp_device : Type := {
  descriptor : upnp_device_descriptor;
  device_handle : Z
}.

Record action_event : Type := {
  ev_request : UpnpActionRequest;
  ev_status : Z;
  ev_service : nat
}.

(** The device together with the trace of what was done so far. *)
Record world : Type := {
  priv : upnp_device;
  trace : list event
}.

Definition emit (e : event) (w : world) : world :=
  {| priv := priv w; trace := trace w ++ [e] |}.

Definition null_service : service :=
  {| service_id := ""; service_type := ""; scpd_url := ""; control_url := "";
     event_url := ""; event_xml_ns := ""; actions := [];
     variable_container := []; last_change := None |}.

(** Reading through a service pointer.  Every index the dispatchers
    hand out comes from [find_service], so the default is never read
    there (see [find_service_Some]). *)
Definition service_at (w : world) (srv : nat) : service :=
  default null_service (services (descriptor (priv w)) !! srv).

Definition with_services (d : upnp_device_descriptor) (l : list service)
    : upnp_device_descriptor :=
  {| device_type := device_type d; friendly_name := friendly_name d;
     manufacturer := manufacturer d; manufacturer_url := manufacturer_url d;
     model_description := model_description d; model_name := model_name d;
     model_number := model_number d; model_url := model_url d;
     presentation_url := presentation_url d; udn := udn d;
     icons := icons d; services := l |}.

(** Writing through a service pointer. *)
Definition update_service (srv : nat) (f : service -> service) (w : world)
    : world :=
  {| priv :=
       {| descriptor :=
            with_services (descriptor (priv w))
              (alter f srv (services (descriptor (priv w))));
          device_handle := device_handle (priv w) |};
     trace := trace w |}.

Definition with_variable_container (c : list (string * string)) (s : service)
    : service :=
  {| service_id := service_id s; service_type := service_type s;
     scpd_url := scpd_url s; control_url := control_url s;
     event_url := event_url s; event_xml_ns := event_xml_ns s;
     actions := actions s; variable_container := c;
     last_change := last_change s |}.

Definition with_last_change (c : option UPnPLastChangeCollector) (s : service)
    : service :=
  {| service_id := service_id s; service_type := service_type s;
     scpd_url := scpd_url s; control_url := control_url s;
     event_url := event_url s; event_xml_ns := event_xml_ns s;
     actions := actions s; variable_container := variable_container s;
     last_change := c |}.

(** ** Parts of the repository outside upnp_device.cc *)

(** Modelled from the spec: the Variable Store (variable-container.h
    is not among the sources), "an indexed, name-addressable mapping
    from state-variable index to (name, current value)".  The spec
    does not say what a read outside the store returns; here it is the
    empty name and value, and a write outside changes nothing. *)
Definition variable_count (c : list (string * string)) : nat := length c.

Definition VariableContainer_Get (c : list (string * string)) (var_num : nat)
    : string * string :=
  default ("", "") (c !! var_num).

Definition VariableContainer_Set (c : list (string * string)) (var_num : nat)
    (value : string) : list (string * string) :=
  alter (fun nv => (fst nv, value)) var_num c.

(** Modelled from the spec: the builder of the aggregated change
    document (UPnPLastChangeBuilder is not among the sources): the
    namespace it was made for and the (name, value) pairs added, in
    the order of the calls. *)
Record UPnPLastChangeBuilder : Type := {
  builder_ns : string;
  builder_entries : list (string * string)
}.

Definition UPnPLastChangeBuilder_new (ns : string) : UPnPLastChangeBuilder :=
  {| builder_ns := ns; builder_entries := [] |}.

Definition UPnPLastChangeBuilder_Add (b : UPnPLastChangeBuilder)
    (name value : string) : UPnPLastChangeBuilder :=
  {| builder_ns := builder_ns b;
     builder_entries := builder_entries b ++ [(name, value)] |}.

(** Modelled from the spec: the Change-Event Collector
    (UPnPLastChangeCollector is not among the sources).  "Start: depth
    += 1."  "Finish: depth -= 1 (floor 0; decrementing past 0 is a
    programming error).  On transition 1 -> 0, serialize the
    accumulated pending set [...] exactly once; clear the pending
    set."  [Finish] returns the collector and what it does besides. *)
Inductive finish_outcome : Type :=
| finish_nested
| finish_emits (changes : list (string * string))
| finish_misused.

Definition Collector_Start (c : UPnPLastChangeCollector)
    : UPnPLastChangeCollector :=
  {| nesting_depth := S (nesting_depth c); pending := pending c |}.

Definition Collector_Finish (c : UPnPLastChangeCollector)
    : UPnPLastChangeCollector * finish_outcome :=
  match nesting_depth c with
  | O => (c, finish_misused)
  | S O => ({| nesting_depth := O; pending := [] |}, finish_emits (pending c))
  | S (S n) => ({| nesting_depth := S n; pending := pending c |}, finish_nested)
  end.

(** Modelled from the spec: a write that goes "through the normal
    update path" while a window is open is accumulated. *)
Definition Collector_record (name value : string) (c : UPnPLastChangeCollector)
    : UPnPLastChangeCollector :=
  match nesting_depth c with
  | O => c
  | S _ => {| nesting_depth := nesting_depth c;
              pending := pending c ++ [(name, value)] |}
  end.

(** The nesting depth of a service's collector; 0 without one. *)
Definition collector_depth (w : world) (srv : nat) : nat :=
  match last_change (service_at w srv) with
  | Some c => nesting_depth c
  | None => O
  end.

(** Modelled from the spec: the XML document under construction
    (xmldoc.h is not among the sources).  [AddElement] appends a child
    after those already there; [SetValue] sets the text of an element,
    a number in decimal. *)
Inductive XMLElement : Type :=
  xml_element (name : string) (xmlns : option string) (value : option string)
              (children : list XMLElement).

Definition XMLElement_name (e : XMLElement) : string :=
  match e with xml_element n _ _ _ => n end.

Definition XMLElement_value (e : XMLElement) : option string :=
  match e with xml_element _ _ v _ => v end.

Definition XMLElement_children (e : XMLElement) : list XMLElement :=
  match e with xml_element _ _ _ c => c end.

Definition XMLElement_new (name : string) : XMLElement :=
  xml_element name None None [].

Definition XMLElement_new_ns (name ns : string) : XMLElement :=
  xml_element name (Some ns) None [].

Definition AddElement (parent child : XMLElement) : XMLElement :=
  match parent with
  | xml_element n ns v c => xml_element n ns v (c ++ [child])
  end.

Definition SetValue (e : XMLElement) (value : string) : XMLElement :=
  match e with
  | xml_element n ns _ c => xml_element n ns (Some value) c
  end.

Definition SetValue_int (e : XMLElement) (value : Z) : XMLElement :=
  SetValue e (NilZero.string_of_int (Z.to_int value)).

(** The functions of the repository this file calls and the sources do
    not hold: the serialisers and the web server's registration. *)
Record collaborators : Type := {
  LastChange_toXML : UPnPLastChangeBuilder -> string;
  xmlescape : string -> string;
  XMLDoc_ToXMLString : XMLElement -> string;
  webserver_register_callbacks : bool
}.

(** ** Looking up services and actions *)

Fixpoint find_service_from (services : list service) (service_id' : string)
    (serviceNum : nat) : option nat :=
  match services with
  | [] => None
  | event_service :: rest =>
      if strcmp (service_id event_service) service_id' =? 0
      then Some serviceNum
      else find_service_from rest service_id' (S serviceNum)
  end.

Definition find_service (device_def : upnp_device_descriptor)
    (service_id' : string) : option nat :=
  find_service_from (services device_def) service_id' 0.

(** Modelled from the spec: find_action lives in upnp_service.c, which
    is not among the sources.  "Lookup the action by name within the
    service", "simple linear scans over small fixed lists"; the
    dispatcher passes it the service pointer unchecked, and a null
    service has no action. *)
Fixpoint find_action_in (actions : list action) (action_name' : string)
    : option action :=
  match actions with
  | [] => None
  | event_action :: rest =>
      if strcmp (action_name event_action) action_name' =? 0
      then Some event_action
      else find_action_in rest action_name'
  end.

Definition find_action (w : world) (event_service : option nat)
    (action_name' : string) : option action :=
  match event_service with
  | None => None
  | Some srv => find_action_in (actions (service_at w srv)) action_name'
  end.

(** ** The helpers handed to action handlers *)

Section Device.

Context (upnp : libupnp) (repo : collaborators).

Definition with_request (event : action_event) (r : UpnpActionRequest)
    : action_event :=
  {| ev_request := r; ev_status := ev_status event;
     ev_service := ev_service event |}.

Definition upnp_add_response (event : action_event) (key value : string)
    (w : world) : Z * action_event :=
  if negb (ev_status event =? 0) then (-1, event)
  else
    let actionResult := ar_ActionResult (ev_request event) in
    let actionName := ar_ActionName (ev_request event) in
    let '(rc, actionResult) :=
      UpnpAddToActionResponse upnp actionResult actionName
        (service_type (service_at w (ev_service event))) key value in
    if negb (rc =? UPNP_E_SUCCESS) then
      let errorMessage := UpnpGetErrorMessage upnp rc in
      let request := UpnpActionRequest_set_ActionResult (ev_request event) None in
      let request := UpnpActionRequest_set_ErrCode request UPNP_SOAP_E_ACTION_FAILED in
      let request := UpnpActionRequest_set_ErrStr request errorMessage in
      (-1, with_request event request)
    else
      (0, with_request event
            (UpnpActionRequest_set_ActionResult (ev_request event) actionResult)).

Definition upnp_append_variable (event : action_event) (varnum : nat)
    (paramname : string) (w : world) : action_event * world :=
  let service := ev_service event in
  let w := emit (ithread_mutex_lock (service_mutex service)) w in
  let w := emit (container_Get service varnum) w in
  let value :=
    snd (VariableContainer_Get (variable_container (service_at w service)) varnum) in
  let '(_, event) := upnp_add_response event paramname value w in
  let w := emit (ithread_mutex_unlock (service_mutex service)) w in
  (event, w).

(** [vsnprintf(buffer, size, format, ...)]: [formatted] is the format
    with its arguments filled in; the buffer keeps [size - 1]
    characters of it. *)
Definition vsnprintf (size : nat) (formatted : string) : string :=
  substring 0 (size - 1) formatted.

Definition upnp_set_error (event : action_event) (error_code : Z)
    (formatted : string) (w : world) : action_event * world :=
  let buffer := vsnprintf LINE_SIZE formatted in
  let request := UpnpActionRequest_set_ActionResult (ev_request event) None in
  let request := UpnpActionRequest_set_ErrCode request UPNP_SOAP_E_ACTION_FAILED in
  let request := UpnpActionRequest_set_ErrStr request buffer in
  ({| ev_request := request; ev_status := -1; ev_service := ev_service event |},
   emit (Log_error "upnp" "%s: %s (%d)\n"
           [arg_s "upnp_set_error"; arg_s (ar_ErrStr request); arg_d error_code])
        w).

(** The loop of [upnp_get_string] over an argument node and its next
    siblings. *)
Fixpoint get_string_loop (nodes : list IXML_Node) (key : string)
    : option string :=
  match nodes with
  | [] => None
  | node :: siblings =>
      if strcmp (ixmlNode_getNodeName node) key =? 0 then
        let node_value :=
          match ixmlNode_getFirstChild node with
          | Some child => ixmlNode_getNodeValue child
          | None => None
          end in
        Some (default "" node_value)
      else get_string_loop siblings key
  end.

Definition upnp_get_string (event : action_event) (key : string) (w : world)
    : option string * action_event * world :=
  match ar_ActionRequest (ev_request event) with
  | None =>
      let '(event, w) :=
        upnp_set_error event UPNP_SOAP_E_INVALID_ARGS
          "Invalid action request document" w in
      (None, event, w)
  | Some node =>
      match ixmlNode_getFirstChild node with
      | None =>
          let '(event, w) :=
            upnp_set_error event UPNP_SOAP_E_INVALID_ARGS
              "Invalid action request document" w in
          (None, event, w)
      | Some node =>
          match get_string_loop (ixmlNode_childNodes node) key with
          | Some node_value => (Some node_value, event, w)
          | None =>
              let '(event, w) :=
                upnp_set_error event UPNP_SOAP_E_INVALID_ARGS
                  ("Missing action request argument (" +:+ key +:+ ")") w in
              (None, event, w)
          end
      end
  end.

(** ** The change collector and the variables, as a handler reaches them *)

Definition LastChange_Start_at (srv : nat) (w : world) : world :=
  let w := emit (LastChange_Start srv) w in
  update_service srv
    (fun s => with_last_change (Collector_Start <$> last_change s) s) w.

Definition LastChange_Finish_at (srv : nat) (w : world) : world :=
  let w := emit (LastChange_Finish srv) w in
  match last_change (service_at w srv) with
  | None => w
  | Some c =>
      let '(c', outcome) := Collector_Finish c in
      let w := update_service srv (with_last_change (Some c')) w in
      match outcome with
      | finish_nested => w
      | finish_emits changes =>
          emit (LastChange_emit (service_id (service_at w srv)) "LastChange"
                  (LastChange_toXML repo
                     {| builder_ns := event_xml_ns (service_at w srv);
                        builder_entries := changes |})) w
      | finish_misused => emit (LastChange_misuse srv) w
      end
  end.

Definition variable_write (srv varnum : nat) (value : string) (w : world)
    : world :=
  let w := emit (container_Set srv varnum value) w in
  match variable_container (service_at w srv) !! varnum with
  | None => w
  | Some (name, _) =>
      update_service srv
        (fun s =>
           with_last_change (Collector_record name value <$> last_change s)
             (with_variable_container
                (VariableContainer_Set (variable_container s) varnum value) s))
        w
  end.

(** Running a handler on the event the dispatcher made for it: the
    value it returns, the event and the world it leaves. *)
Fixpoint run (h : handler) (event : action_event) (w : world)
    : Z * action_event * world :=
  match h with
  | Return rc => (rc, event, w)
  | AddResponse key value k =>
      let '(rc, event) := upnp_add_response event key value w in
      run (k rc) event w
  | AppendVariable varnum paramname k =>
      let '(event, w) := upnp_append_variable event varnum paramname w in
      run k event w
  | SetError error_code formatted k =>
      let '(event, w) := upnp_set_error event error_code formatted w in
      run k event w
  | GetString key k =>
      let '(r, event, w) := upnp_get_string event key w in
      run (k r) event w
  | ReadStatus k => run (k (ev_status event)) event w
  | VariableGet varnum k =>
      let service := ev_service event in
      let w := emit (container_Get service varnum) w in
      run (k (snd (VariableContainer_Get
                     (variable_container (service_at w service)) varnum)))
          event w
  | VariableSet varnum value k =>
      run k event (variable_write (ev_service event) varnum value w)
  | CollectorStart k => run k event (LastChange_Start_at (ev_service event) w)
  | CollectorFinish k => run k event (LastChange_Finish_at (ev_service event) w)
  end.

(** ** Subscription requests *)

(** The loop over the variables of the service, [indices] being
    [0 .. var_count - 1]. *)
Fixpoint subscription_loop (srv : nat) (container : list (string * string))
    (indices : list nat) (builder : UPnPLastChangeBuilder) (w : world)
    : UPnPLastChangeBuilder * world :=
  match indices with
  | [] => (builder, w)
  | i :: rest =>
      let w := emit (container_Get srv i) w in
      let '(name, value) := VariableContainer_Get container i in
      let builder :=
        if negb (String.eqb name "LastChange")
           && negb (strncmp "A_ARG_TYPE_" name (strlen "A_ARG_TYPE_") =? 0)
        then UPnPLastChangeBuilder_Add builder name value
        else builder in
      subscription_loop srv container rest builder w
  end.

Definition handle_subscription_request (sr_event : UpnpSubscriptionRequest)
    (w : world) : Z * world :=
  let serviceId := sr_ServiceId sr_event in
  let udn := sr_UDN sr_event in
  let w := emit (Log_info "upnp" "Subscription request for %s (%s)"
                   [arg_s serviceId; arg_s udn]) w in
  match find_service (descriptor (priv w)) serviceId with
  | None =>
      (-1, emit (Log_error "upnp" "%s: Unknown service '%s'"
                   [arg_s "handle_subscription_request"; arg_s serviceId]) w)
  | Some srv =>
      let w := emit (ithread_mutex_lock device_mutex) w in
      let w := emit (ithread_mutex_lock (service_mutex srv)) w in
      let container := variable_container (service_at w srv) in
      let var_count := variable_count container in
      let builder := UPnPLastChangeBuilder_new (event_xml_ns (service_at w srv)) in
      let '(builder, w) :=
        subscription_loop srv container (seq 0 var_count) builder w in
      let w := emit (ithread_mutex_unlock (service_mutex srv)) w in
      let xml_value := LastChange_toXML repo builder in
      let w := emit (Log_info "upnp" "Initial variable sync: %s"
                       [arg_s xml_value]) w in
      let escaped_xml := xmlescape repo xml_value in
      let sid := sr_SID sr_event in
      let eventvar_names := ["LastChange"] in
      let eventvar_values := [escaped_xml] in
      let rc :=
        UpnpAcceptSubscription upnp (device_handle (priv w)) udn serviceId
          eventvar_names eventvar_values 1 sid in
      let w := emit (call_UpnpAcceptSubscription (device_handle (priv w)) udn
                       serviceId eventvar_names eventvar_values 1 sid) w in
      let '(result, w) :=
        if rc =? UPNP_E_SUCCESS then (0, w)
        else (-1, emit (Log_error "upnp" "Accept Subscription Error: %s (%d)"
                          [arg_s (UpnpGetErrorMessage upnp rc); arg_d rc]) w) in
      let w := emit (ithread_mutex_unlock device_mutex) w in
      (result, w)
  end.

Definition upnp_device_notify (serviceID : string)
    (varnames varvalues : list string) (varcount : Z) (w : world) : Z * world :=
  (0, emit (call_UpnpNotify (device_handle (priv w)) (udn (descriptor (priv w)))
              serviceID varnames varvalues varcount) w).

(** ** State-variable queries *)

Definition strdup (s : string) : string := s.

(** The loop over the variables, left at the first name that matches. *)
Fixpoint var_request_loop (srv : nat) (container : list (string * string))
    (stateVarName : string) (indices : list nat) (w : world)
    : option string * world :=
  match indices with
  | [] => (None, w)
  | i :: rest =>
      let w := emit (container_Get srv i) w in
      let '(name, value) := VariableContainer_Get container i in
      if String.eqb name stateVarName then (Some (strdup value), w)
      else var_request_loop srv container stateVarName rest w
  end.

Definition handle_var_request (event : UpnpStateVarRequest) (w : world)
    : Z * UpnpStateVarRequest * world :=
  let serviceID := sv_ServiceID event in
  match find_service (descriptor (priv w)) serviceID with
  | None =>
      (-1, UpnpStateVarRequest_set_ErrCode event UPNP_SOAP_E_INVALID_ARGS, w)
  | Some srv =>
      let w := emit (ithread_mutex_lock (service_mutex srv)) w in
      let container := variable_container (service_at w srv) in
      let var_count := variable_count container in
      let '(result, w) :=
        var_request_loop srv container (sv_StateVarName event)
          (seq 0 var_count) w in
      let w := emit (ithread_mutex_unlock (service_mutex srv)) w in
      let event := UpnpStateVarRequest_set_CurrentVal event result in
      let errCode :=
        match result with
        | None => UPNP_SOAP_E_INVALID_VAR
        | Some _ => UPNP_E_SUCCESS
        end in
      let event := UpnpStateVarRequest_set_ErrCode event errCode in
      let w := emit (Log_info "upnp" "Variable request %s -> %s (%s)"
                       [arg_s (sv_StateVarName event);
                        match result with Some r => arg_s r | None => arg_null end;
                        arg_s serviceID]) w in
      (0, event, w)
  end.

(** ** Action requests *)

Definition has_last_change (w : world) (srv : nat) : bool :=
  match last_change (service_at w srv) with
  | Some _ => true
  | None => false
  end.

(** [None] stands for the dereference of a null service pointer, which
    [handle_action_request_returns] shows is never reached. *)
Definition handle_action_request (ar_event : UpnpActionRequest) (w : world)
    : option (Z * UpnpActionRequest * world) :=
  let serviceID := ar_ServiceID ar_event in
  let actionName := ar_ActionName ar_event in
  let event_service := find_service (descriptor (priv w)) serviceID in
  match find_action w event_service actionName with
  | None =>
      let w := emit (Log_error "upnp" "Unknown action '%s' for service '%s'"
                       [arg_s actionName; arg_s serviceID]) w in
      let ar_event := UpnpActionRequest_set_ActionResult ar_event None in
      let ar_event := UpnpActionRequest_set_ErrCode ar_event 401 in
      Some (-1, ar_event, w)
  | Some event_action =>
      match event_service with
      | None => None
      | Some event_service =>
          let w :=
            if has_last_change w event_service then
              let w := emit (ithread_mutex_lock (service_mutex event_service)) w in
              let w := LastChange_Start_at event_service w in
              emit (ithread_mutex_unlock (service_mutex event_service)) w
            else w in
          let '(ar_event, w) :=
            match callback event_action with
            | Some callback =>
                let event :=
                  {| ev_request := ar_event; ev_status := 0;
                     ev_service := event_service |} in
                let w := emit (callback_enter (action_name event_action)) w in
                let '(rc, event, w) := run callback event w in
                let w := emit (callback_return rc) w in
                let request :=
                  if rc =? 0
                  then UpnpActionRequest_set_ErrCode (ev_request event)
                         UPNP_E_SUCCESS
                  else ev_request event in
                let request :=
                  match ar_ActionResult request with
                  | None =>
                      let actionResult :=
                        UpnpMakeActionResponse upnp actionName
                          (service_type (service_at w event_service)) in
                      UpnpActionRequest_set_ActionResult request actionResult
                  | Some _ => request
                  end in
                (request, w)
            | None =>
                let errCode := ar_ErrCode ar_event in
                let sock := ar_Socket ar_event in
                let errStr := ar_ErrStr ar_event in
                let actionName := ar_ActionName ar_event in
                let devUDN := ar_DevUDN ar_event in
                let serviceID := ar_ServiceID ar_event in
                let w :=
                  emit (Log_error "upnp"
                          "Got a valid action, but no handler defined (!)\n  ErrCode:    %d\n  Socket:     %d\n  ErrStr:     '%s'\n  ActionName: '%s'\n  DevUDN:     '%s'\n  ServiceID:  '%s'\n"
                          [arg_d errCode; arg_d sock; arg_s errStr;
                           arg_s actionName; arg_s devUDN; arg_s serviceID]) w in
                (UpnpActionRequest_set_ErrCode ar_event UPNP_E_SUCCESS, w)
            end in
          let w :=
            if has_last_change w event_service then
              let w := emit (ithread_mutex_lock (service_mutex event_service)) w in
              let w := LastChange_Finish_at event_service w in
              emit (ithread_mutex_unlock (service_mutex event_service)) w
            else w in
          Some (0, ar_event, w)
      end
  end.

(** The callback registered with libupnp.  The results of the three
    handlers are dropped: it returns 0 whatever happened. *)
Definition event_handler (EventType : Upnp_EventType) (w : world)
    : option (Z * Upnp_EventType * world) :=
  match EventType with
  | UPNP_CONTROL_ACTION_REQUEST ar_event =>
      match handle_action_request ar_event w with
      | Some (_, ar_event, w) =>
          Some (0, UPNP_CONTROL_ACTION_REQUEST ar_event, w)
      | None => None
      end
  | UPNP_CONTROL_GET_VAR_REQUEST sv_event =>
      let '(_, sv_event, w) := handle_var_request sv_event w in
      Some (0, UPNP_CONTROL_GET_VAR_REQUEST sv_event, w)
  | UPNP_EVENT_SUBSCRIPTION_REQUEST sr_event =>
      let '(_, w) := handle_subscription_request sr_event w in
      Some (0, EventType, w)
  | UPNP_OTHER_EVENT t =>
      Some (0, EventType,
            emit (Log_error "upnp" "Unknown event type: %d" [arg_d t]) w)
  end.

(** ** The device descriptor *)

Definition add_specversion (parent : XMLElement) (major minor : Z)
    : XMLElement :=
  let specVersion := XMLElement_new "specVersion" in
  let specVersion :=
    AddElement specVersion (SetValue_int (XMLElement_new "major") major) in
  let specVersion :=
    AddElement specVersion (SetValue_int (XMLElement_new "minor") minor) in
  AddElement parent specVersion.

Definition desc_icon (icon_entry : icon) : XMLElement :=
  let icon := XMLElement_new "icon" in
  let icon :=
    AddElement icon (SetValue (XMLElement_new "mimetype") (mimetype icon_entry)) in
  let icon :=
    AddElement icon (SetValue_int (XMLElement_new "width") (width icon_entry)) in
  let icon :=
    AddElement icon (SetValue_int (XMLElement_new "height") (height icon_entry)) in
  let icon :=
    AddElement icon (SetValue_int (XMLElement_new "depth") (depth icon_entry)) in
  AddElement icon (SetValue (XMLElement_new "url") (url icon_entry)).

Definition add_desc_iconlist (parent : XMLElement) (icons : option (list icon))
    : XMLElement :=
  match icons with
  | None => parent
  | Some icons =>
      let iconList := XMLElement_new "iconList" in
      let iconList :=
        fold_left (fun iconList icon_entry =>
                     AddElement iconList (desc_icon icon_entry))
                  icons iconList in
      AddElement parent iconList
  end.

Definition desc_service (srv : service) : XMLElement :=
  let service := XMLElement_new "service" in
  let service :=
    AddElement service
      (SetValue (XMLElement_new "serviceType") (service_type srv)) in
  let service :=
    AddElement service (SetValue (XMLElement_new "serviceId") (service_id srv)) in
  let service :=
    AddElement service (SetValue (XMLElement_new "SCPDURL") (scpd_url srv)) in
  let service :=
    AddElement service
      (SetValue (XMLElement_new "controlURL") (control_url srv)) in
  AddElement service (SetValue (XMLElement_new "eventSubURL") (event_url srv)).

Definition add_desc_servicelist (parent : XMLElement) (services : list service)
    : XMLElement :=
  let serviceList := XMLElement_new "serviceList" in
  let serviceList :=
    fold_left (fun serviceList srv => AddElement serviceList (desc_service srv))
              services serviceList in
  AddElement parent serviceList.

(** The element [device] of the descriptor, with its children. *)
Definition desc_device (device_def : upnp_device_descriptor) : XMLElement :=
  let device := XMLElement_new "device" in
  let device :=
    AddElement device
      (SetValue (XMLElement_new "deviceType") (device_type device_def)) in
  let device :=
    AddElement device
      (SetValue (XMLElement_new "presentationURL") (presentation_url device_def)) in
  let device :=
    AddElement device
      (SetValue (XMLElement_new "friendlyName") (friendly_name device_def)) in
  let device :=
    AddElement device
      (SetValue (XMLElement_new "manufacturer") (manufacturer device_def)) in
  let device :=
    AddElement device
      (SetValue (XMLElement_new "manufacturerURL") (manufacturer_url device_def)) in
  let device :=
    AddElement device
      (SetValue (XMLElement_new "modelDescription")
         (model_description device_def)) in
  let device :=
    AddElement device
      (SetValue (XMLElement_new "modelName") (model_name device_def)) in
  let device :=
    AddElement device
      (SetValue (XMLElement_new "modelNumber") (model_number device_def)) in
  let device :=
    AddElement device
      (SetValue (XMLElement_new "modelURL") (model_url device_def)) in
  let device :=
    AddElement device (SetValue (XMLElement_new "UDN") (udn device_def)) in
  let device := add_desc_iconlist device (icons device_def) in
  add_desc_servicelist device (services device_def).

(** The document [upnp_create_device_desc] builds before it prints it. *)
Definition device_desc_doc (device_def : upnp_device_descriptor) : XMLElement :=
  let root := XMLElement_new_ns "root" "urn:schemas-upnp-org:device-1-0" in
  let root := add_specversion root 1 0 in
  AddElement root (desc_device device_def).

Definition upnp_create_device_desc (device_def : upnp_device_descriptor)
    : string :=
  XMLDoc_ToXMLString repo (device_desc_doc device_def).

(** ** Start-up *)

Definition kRetryTimeMs : Z := 1000.

Definition do_UpnpInit2 (interface_name : string) (port : Z) (w : world)
    : Z * world :=
  (UpnpInit2 upnp (trace w) interface_name port,
   emit (call_UpnpInit2 interface_name port) w).

(** The loop [while (rc != UPNP_E_SUCCESS && retries_left--)]. *)
Fixpoint bind_retry_loop (retries_left : nat) (rc : Z)
    (interface_name : string) (port : Z) (w : world) : Z * world :=
  if negb (rc =? UPNP_E_SUCCESS) then
    match retries_left with
    | O => (rc, w)
    | S retries_left =>
        let w := emit (call_usleep (kRetryTimeMs * 1000)) w in
        let w :=
          emit (Log_error "upnp"
                  "UpnpInit2(interface=%s, port=%d) Error: %s (%d). Retrying... (%ds)"
                  [arg_s interface_name; arg_d port;
                   arg_s (UpnpGetErrorMessage upnp rc); arg_d rc;
                   arg_d (Z.of_nat retries_left)]) w in
        let '(rc, w) := do_UpnpInit2 interface_name port w in
        bind_retry_loop retries_left rc interface_name port w
    end
  else (rc, w).

Definition set_device_handle (handle : Z) (w : world) : world :=
  {| priv := {| descriptor := descriptor (priv w); device_handle := handle |};
     trace := trace w |}.

Definition initialize_device (device_def : upnp_device_descriptor)
    (interface_name : string) (port : Z) (w : world) : bool * world :=
  let '(rc, w) := do_UpnpInit2 interface_name port w in
  let retries_left := 60%nat in
  let '(rc, w) := bind_retry_loop retries_left rc interface_name port w in
  if negb (UPNP_E_SUCCESS =? rc) then
    (false,
     emit (Log_error "upnp"
             "UpnpInit2(interface=%s, port=%d) Error: %s (%d). Giving up."
             [arg_s interface_name; arg_d port;
              arg_s (UpnpGetErrorMessage upnp rc); arg_d rc]) w)
  else
    let w := emit (Log_info "upnp" "Registered IP=%s port=%d
"
                     [arg_s (UpnpGetServerIpAddress upnp);
                      arg_d (UpnpGetServerPort upnp)]) w in
    let rc := UpnpEnableWebserver upnp true in
    let w := emit (call_UpnpEnableWebserver true) w in
    if negb (UPNP_E_SUCCESS =? rc) then
      (false,
       emit (Log_error "upnp" "UpnpEnableWebServer() Error: %s (%d)"
               [arg_s (UpnpGetErrorMessage upnp rc); arg_d rc]) w)
    else
      let w := emit call_webserver_register_callbacks w in
      if negb (webserver_register_callbacks repo) then (false, w)
      else
        let rc := UpnpAddVirtualDir upnp "/upnp" in
        let w := emit (call_UpnpAddVirtualDir "/upnp") w in
        if negb (UPNP_E_SUCCESS =? rc) then
          (false,
           emit (Log_error "upnp" "UpnpAddVirtualDir() Error: %s (%d)"
                   [arg_s (UpnpGetErrorMessage upnp rc); arg_d rc]) w)
        else
          let device_desc := upnp_create_device_desc device_def in
          let '(rc, handle) :=
            UpnpRegisterRootDevice2 upnp device_desc (device_handle (priv w)) in
          let w :=
            emit (call_UpnpRegisterRootDevice2 device_desc
                    (Z.of_nat (String.length device_desc))) w in
          let w := set_device_handle handle w in
          if negb (UPNP_E_SUCCESS =? rc) then
            (false,
             emit (Log_error "upnp" "UpnpRegisterRootDevice2() Error: %s (%d)"
                     [arg_s (UpnpGetErrorMessage upnp rc); arg_d rc]) w)
          else
            let rc := UpnpSendAdvertisement upnp (device_handle (priv w)) 100 in
            let w :=
              emit (call_UpnpSendAdvertisement (device_handle (priv w)) 100) w in
            if negb (UPNP_E_SUCCESS =? rc) then
              (false,
               emit (Log_error "unpp" "Error sending advertisements: %s (%d)"
                       [arg_s (UpnpGetErrorMessage upnp rc); arg_d rc]) w)
            else (true, w).

End Device.

Arguments upnp_add_response : simpl never.
Arguments upnp_append_variable : simpl never.
Arguments upnp_set_error : simpl never.
Arguments upnp_get_string : simpl never.
Arguments LastChange_Start_at : simpl never.
Arguments LastChange_Finish_at : simpl never.
Arguments variable_write : simpl never.

(** ** Reading a trace *)

Definition is_bind_attempt (e : event) : bool :=
  match e with call_UpnpInit2 _ _ => true | _ => false end.

Definition is_sleep (e : event) : bool :=
  match e with call_usleep _ => true | _ => false end.

Definition is_registration (e : event) : bool :=
  match e with call_UpnpRegisterRootDevice2 _ _ => true | _ => false end.

Definition is_callback (e : event) : bool :=
  match e with callback_enter _ => true | _ => false end.

(** The message and the code a call of [upnp_set_error] was given, read
    off the line it logs. *)
Definition set_error_of (e : event) : option (string * Z) :=
  match e with
  | Log_error tag fmt [arg_s function; arg_s message; arg_d error_code] =>
      if String.eqb tag "upnp" && String.eqb fmt "%s: %s (%d)\n"
         && String.eqb function "upnp_set_error"
      then Some (message, error_code)
      else None
  | _ => None
  end.

(** The last call of [upnp_set_error] in a trace. *)
Fixpoint last_set_error (tr : list event) : option (string * Z) :=
  match tr with
  | [] => None
  | e :: rest =>
      match last_set_error rest with
      | Some call => Some call
      | None => set_error_of e
      end
  end.

(** The number of calls of [UpnpInit2] a trace holds. *)
Definition bind_attempts (tr : list event) : nat :=
  length (List.filter is_bind_attempt tr).

(** The bind attempts and the sleeps of a trace, in order. *)
Definition timing (tr : list event) : list event :=
  List.filter (fun e => is_bind_attempt e || is_sleep e) tr.

(** A first bind attempt and [retries] more, each after a sleep of
    1000 ms. *)
Definition bind_schedule (interface_name : string) (port : Z) (retries : nat)
    : list event :=
  call_UpnpInit2 interface_name port
  :: concat (repeat [call_usleep 1000000; call_UpnpInit2 interface_name port]
                    retries).

(** ** The notions the properties are stated with *)

Section Notions.

Context (upnp : libupnp) (repo : collaborators).

(** The line the dispatcher logs for a request it cannot place. *)
Definition unknown_action_log (ar_event : UpnpActionRequest) : event :=
  Log_error "upnp" "Unknown action '%s' for service '%s'"
    [arg_s (ar_ActionName ar_event); arg_s (ar_ServiceID ar_event)].

(** The registry of a device: what is left of it when the values of
    the variables and the contents of the collectors are blanked. *)
Definition blank_collector : UPnPLastChangeCollector :=
  {| nesting_depth := 0; pending := [] |}.

Definition service_skeleton (s : service) : service :=
  with_variable_container []
    (with_last_change ((fun _ => blank_collector) <$> last_change s) s).

Definition world_skeleton (w : world) : upnp_device :=
  {| descriptor :=
       with_services (descriptor (priv w))
         (service_skeleton <$> services (descriptor (priv w)));
     device_handle := device_handle (priv w) |}.

(** An error sticks: when the status of the event records one, the
    request holds no action result, its code is the action-failed
    code, and its error string is the message of the last call of
    [upnp_set_error]. *)
Definition sticky (event : action_event) (w : world) : Prop :=
  ev_status event <> 0 ->
  ar_ActionResult (ev_request event) = None /\
  ar_ErrCode (ev_request event) = UPNP_SOAP_E_ACTION_FAILED /\
  exists error_code,
    last_set_error (trace w) = Some (ar_ErrStr (ev_request event), error_code).

(** One step of a handler: the event keeps its service, the registry
    is untouched, the trace only grows, and errors stick. *)
Definition evolves (event : action_event) (w : world)
    (event' : action_event) (w' : world) : Prop :=
  ev_service event' = ev_service event /\
  world_skeleton w' = world_skeleton w /\
  (exists tr, trace w' = trace w ++ tr) /\
  (sticky event w -> sticky event' w').

(** The collection window the dispatcher opens before the handler and
    closes after it, when the service has a collector. *)
Definition window_opened (srv : nat) (w : world) : world :=
  if has_last_change w srv then
    emit (ithread_mutex_unlock (service_mutex srv))
      (LastChange_Start_at srv
         (emit (ithread_mutex_lock (service_mutex srv)) w))
  else w.

Definition window_closed (srv : nat) (w : world) : world :=
  if has_last_change w srv then
    emit (ithread_mutex_unlock (service_mutex srv))
      (LastChange_Finish_at repo srv
         (emit (ithread_mutex_lock (service_mutex srv)) w))
  else w.

(** The event the dispatcher makes for a handler. *)
Definition fresh_event (ar_event : UpnpActionRequest) (srv : nat)
    : action_event :=
  {| ev_request := ar_event; ev_status := 0; ev_service := srv |}.

(** The run of the handler inside a dispatch. *)
Definition handler_run (ar_event : UpnpActionRequest) (w : world) (srv : nat)
    (act : action) (h : handler) : Z * action_event * world :=
  run upnp repo h (fresh_event ar_event srv)
      (emit (callback_enter (action_name act)) (window_opened srv w)).

(** What the dispatcher makes of the request the handler leaves. *)
Definition finalized (rc : Z) (request : UpnpActionRequest)
    (actionName service_type' : string) : UpnpActionRequest :=
  let request :=
    if rc =? 0 then UpnpActionRequest_set_ErrCode request UPNP_E_SUCCESS
    else request in
  match ar_ActionResult request with
  | None =>
      UpnpActionRequest_set_ActionResult request
        (UpnpMakeActionResponse upnp actionName service_type')
  | Some _ => request
  end.

(** The lines the dispatcher logs for an action without a handler. *)
Definition no_handler_log (ar_event : UpnpActionRequest) : event :=
  Log_error "upnp"
    "Got a valid action, but no handler defined (!)\n  ErrCode:    %d\n  Socket:     %d\n  ErrStr:     '%s'\n  ActionName: '%s'\n  DevUDN:     '%s'\n  ServiceID:  '%s'\n"
    [arg_d (ar_ErrCode ar_event); arg_d (ar_Socket ar_event);
     arg_s (ar_ErrStr ar_event); arg_s (ar_ActionName ar_event);
     arg_s (ar_DevUDN ar_event); arg_s (ar_ServiceID ar_event)].

(** What [Finish] does besides counting down. *)
Definition finish_events (srv : nat) (s : service)
    (c : UPnPLastChangeCollector) : list event :=
  match snd (Collector_Finish c) with
  | finish_nested => []
  | finish_emits changes =>
      [LastChange_emit (service_id s) "LastChange"
         (LastChange_toXML repo
            {| builder_ns := event_xml_ns s; builder_entries := changes |})]
  | finish_misused => [LastChange_misuse srv]
  end.

(** A handler that opens no collection window of its own, whatever
    its calls return. *)
Fixpoint window_free (h : handler) : Prop :=
  match h with
  | Return _ => True
  | AddResponse _ _ k => forall rc, window_free (k rc)
  | AppendVariable _ _ k => window_free k
  | SetError _ _ k => window_free k
  | GetString _ k => forall r, window_free (k r)
  | ReadStatus k => forall st, window_free (k st)
  | VariableGet _ k => forall value, window_free (k value)
  | VariableSet _ _ k => window_free k
  | CollectorStart _ => False
  | CollectorFinish _ => False
  end.

(** The error code a dispatch leaves in the request. *)
Definition error_code_of (r : option (Z * UpnpActionRequest * world))
    : option Z :=
  match r with
  | Some (_, ar_event, _) => Some (ar_ErrCode ar_event)
  | None => None
  end.

(** The line [handle_var_request] logs with its answer. *)
Definition var_request_log (sv_event : UpnpStateVarRequest)
    (result : option string) : event :=
  Log_info "upnp" "Variable request %s -> %s (%s)"
    [arg_s (sv_StateVarName sv_event);
     match result with Some r => arg_s r | None => arg_null end;
     arg_s (sv_ServiceID sv_event)].

(** A variable takes part in eventing unless it is named "LastChange"
    or its name starts with "A_ARG_TYPE_". *)
Definition evented (name : string) : bool :=
  negb (String.eqb name "LastChange")
  && negb (String.prefix "A_ARG_TYPE_" name).

(** The initial-state snapshot of a store: its evented variables, in
    the order of the store. *)
Definition snapshot (container : list (string * string))
    : list (string * string) :=
  List.filter (fun nv => evented (fst nv)) container.

(** The line [initialize_device] logs when it gives up binding. *)
Definition giving_up_log (interface_name : string) (port : Z) (rc : Z)
    : event :=
  Log_error "upnp"
    "UpnpInit2(interface=%s, port=%d) Error: %s (%d). Giving up."
    [arg_s interface_name; arg_d port; arg_s (UpnpGetErrorMessage upnp rc);
     arg_d rc].

(** What the generator reads of a service, and of a device. *)
Definition service_desc_input (s : service)
    : string * string * string * string * string :=
  (service_type s, service_id s, scpd_url s, control_url s, event_url s).

Definition desc_input (d : upnp_device_descriptor) :=
  (device_type d, presentation_url d, friendly_name d, manufacturer d,
   manufacturer_url d, model_description d, model_name d, model_number d,
   model_url d, udn d, icons d, map service_desc_input (services d)).

(** An element that holds text only. *)
Definition text_element (name value : string) : XMLElement :=
  xml_element name None (Some value) [].

Definition int_element (name : string) (value : Z) : XMLElement :=
  text_element name (NilZero.string_of_int (Z.to_int value)).

End Notions.

(** An event that records an error and holds it the way
    [upnp_set_error] leaves it. *)
Definition failed (event : action_event) : Prop :=
  ev_status event <> 0 /\
  ar_ActionResult (ev_request event) = None /\
  ar_ErrCode (ev_request event) = UPNP_SOAP_E_ACTION_FAILED.

(** The argument nodes of an action request: the children of the first
    child of its document, and the text [upnp_get_string] reads off one. *)
Definition argument_nodes (request : UpnpActionRequest)
    : option (list IXML_Node) :=
  match ar_ActionRequest request with
  | Some doc => ixmlNode_childNodes <$> ixmlNode_getFirstChild doc
  | None => None
  end.

Definition node_text (node : IXML_Node) : string :=
  default "" (match ixmlNode_getFirstChild node with
              | Some child => ixmlNode_getNodeValue child
              | None => None
              end).

(** What libupnp filled in of an action request before the callback:
    everything but the action result, the error code and the error
    string. *)
Definition request_frame (r : UpnpActionRequest)
    : Z * string * string * string * option IXML_Document :=
  (ar_Socket r, ar_ActionName r, ar_DevUDN r, ar_ServiceID r,
   ar_ActionRequest r).

(** A step that only adds to the trace: the device is as it was. *)
Definition read_only (w w' : world) : Prop :=
  priv w' = priv w /\ exists tr, trace w' = trace w ++ tr.

(** The answers libupnp gave to the bind attempts of [tr], made after
    [before]: one for each call of [UpnpInit2], in order. *)
Fixpoint attempt_results (upnp : libupnp) (before tr : list event) : list Z :=
  match tr with
  | [] => []
  | e :: rest =>
      match e with
      | call_UpnpInit2 interface_name port =>
          [UpnpInit2 upnp before interface_name port]
      | _ => []
      end
      ++ attempt_results upnp (before ++ [e]) rest
  end.

(** The answers to the bind attempts made between [w] and [w']. *)
Definition bind_results (upnp : libupnp) (w w' : world) : list Z :=
  attempt_results upnp (trace w) (drop (length (trace w)) (trace w')).

(** ** Mutexes along a trace *)

#[global] Instance mutex_eq_dec : EqDecision mutex.
Proof. solve_decision. Defined.

Fixpoint release (m : mutex) (held : list mutex) : list mutex :=
  match held with
  | [] => []
  | m' :: rest => if decide (m = m') then rest else m' :: release m rest
  end.

(** The mutexes held after an event, given those held before it.  An
    ithread mutex is not recursive: [None] is the state after a held
    mutex was locked again, or one not held was unlocked. *)
Definition lock_step (held : option (list mutex)) (e : event)
    : option (list mutex) :=
  match held with
  | None => None
  | Some l =>
      match e with
      | ithread_mutex_lock m =>
          if decide (m ∈ l) then None else Some (m :: l)
      | ithread_mutex_unlock m =>
          if decide (m ∈ l) then Some (release m l) else None
      | _ => Some l
      end
  end.

(** The mutexes held at the end of a trace that started with none. *)
Definition locks (tr : list event) : option (list mutex) :=
  fold_left lock_step tr (Some []).

Definition is_mutex_event (e : event) : bool :=
  match e with
  | ithread_mutex_lock _ | ithread_mutex_unlock _ => true
  | _ => false
  end.

(** ** Reading a descriptor back *)

Definition child_named (name : string) (e : XMLElement) : option XMLElement :=
  List.find (fun c => String.eqb (XMLElement_name c) name)
            (XMLElement_children e).

(** The text of the child [field] of every child of [list_element]. *)
Definition listed (field : string) (list_element : XMLElement)
    : list (option string) :=
  map (fun item =>
         match child_named field item with
         | Some c => XMLElement_value c
         | None => None
         end)
      (XMLElement_children list_element).

Definition doc_device (doc : XMLElement) : option XMLElement :=
  child_named "device" doc.

(** The service ids a descriptor document lists, and the icon URLs it
    lists when it has an icon list. *)
Definition doc_service_ids (doc : XMLElement) : option (list (option string)) :=
  match doc_device doc with
  | Some device => listed "serviceId" <$> child_named "serviceList" device
  | None => None
  end.

Definition doc_icon_urls (doc : XMLElement) : option (list (option string)) :=
  match doc_device doc with
  | Some device => listed "url" <$> child_named "iconList" device
  | None => None
  end.

(** ** The calls of the start-up after the bind *)



(** ** Making and dropping the device *)

(** What [upnp_device_init] does to the outside: its own calls, and
    those of [initialize_device]. *)
Inductive init_event : Type :=
| call_init_function
| call_webserver_register_file (path content_type : string)
| call_webserver_register_buf (path contents content_type : string)
| device_event (e : event)
| call_UpnpFinish.

Section Init.

Context (upnp : libupnp) (repo : collaborators).

(** [upnp_get_scpd] lives in upnp_service.c, which is not among the
    sources: the text it makes for a service is a parameter. *)
Context (upnp_get_scpd : service -> string).

(** [init_function] is the function pointer of the descriptor: [None]
    when it is null, else the value the function returns.  The handle
    of the freshly allocated device holds whatever the memory held.
    The result is [None] when the icons of the descriptor are a null
    pointer, which the loop over them dereferences. *)
Definition upnp_device_init (init_function : option Z)
    (device_def : upnp_device_descriptor) (interface_name : string)
    (port : Z) (uninitialised_handle : Z)
    : option (option upnp_device * list init_event) :=
  let '(rc, tr) :=
    match init_function with
    | Some rc => (rc, [call_init_function])
    | None => (0, [])
    end in
  if negb (rc =? 0) then Some (None, tr)
  else
    let result_device :=
      {| descriptor := device_def; device_handle := uninitialised_handle |} in
    match icons device_def with
    | None => None
    | Some icons =>
        let tr :=
          tr ++ map (fun icon_entry =>
                       call_webserver_register_file (url icon_entry) "image/png")
                    icons in
        let tr :=
          tr ++ map (fun srv =>
                       let scpd_xml := upnp_get_scpd srv in
                       call_webserver_register_buf (scpd_url srv)
                         (strdup scpd_xml) "text/xml")
                    (services device_def) in
        let '(initialized, w) :=
          initialize_device upnp repo device_def interface_name port
            {| priv := result_device; trace := [] |} in
        let tr := tr ++ map device_event (trace w) in
        if negb initialized then Some (None, tr ++ [call_UpnpFinish])
        else Some (Some (priv w), tr)
    end.

Definition upnp_device_shutdown (device : upnp_device) : list init_event :=
  [call_UpnpFinish].

End Init.

(** The calls of [initialize_device] among the events of
    [upnp_device_init]. *)
Definition device_events (tr : list init_event) : list event :=
  flat_map (fun e => match e with device_event e' => [e'] | _ => [] end) tr.

Definition is_finish (e : init_event) : bool :=
  match e with call_UpnpFinish => true | _ => false end.

Definition is_web_registration (e : init_event) : bool :=
  match e with
  | call_webserver_register_file _ _ => true
  | call_webserver_register_buf _ _ _ => true
  | _ => false
  end.

(** ** A concrete libupnp and a small renderer

    Instances the examples below are evaluated on: an engine that
    always succeeds, one whose response construction fails, and
    engines whose bind fails for a while or for ever. *)

Module Reference.

Definition response_root (actionName : string) : IXML_Document :=
  ixml_node "#document" None
    [ixml_node ("u:" +:+ actionName +:+ "Response") None []].

Definition add_argument (doc : IXML_Document) (key value : string)
    : IXML_Document :=
  match doc with
  | ixml_node d dv (ixml_node n v args :: rest) =>
      ixml_node d dv
        (ixml_node n v (args ++ [ixml_node key None [ixml_node "#text" (Some value) []]])
         :: rest)
  | _ => doc
  end.

Definition add_to_action_response (doc : option IXML_Document)
    (actionName serviceType key value : string) : Z * option IXML_Document :=
  (UPNP_E_SUCCESS,
   Some (add_argument (default (response_root actionName) doc) key value)).

Definition UPNP_E_OUTOF_MEMORY : Z := -104.
Definition UPNP_E_SOCKET_BIND : Z := -203.

Definition upnp_ok : libupnp :=
  {| UpnpAddToActionResponse := add_to_action_response;
     UpnpMakeActionResponse := fun actionName _ => Some (response_root actionName);
     UpnpGetErrorMessage := fun rc =>
       if rc =? UPNP_E_OUTOF_MEMORY then "UPNP_E_OUTOF_MEMORY"
       else if rc =? UPNP_E_SOCKET_BIND then "UPNP_E_SOCKET_BIND"
       else "Unknown error code";
     UpnpAcceptSubscription := fun _ _ _ _ _ _ _ => UPNP_E_SUCCESS;
     UpnpInit2 := fun _ _ _ => UPNP_E_SUCCESS;
     UpnpEnableWebserver := fun _ => UPNP_E_SUCCESS;
     UpnpAddVirtualDir := fun _ => UPNP_E_SUCCESS;
     UpnpGetServerIpAddress := "192.168.0.2";
     UpnpGetServerPort := 49494;
     UpnpRegisterRootDevice2 := fun _ _ => (UPNP_E_SUCCESS, 1);
     UpnpSendAdvertisement := fun _ _ => UPNP_E_SUCCESS |}.

Definition with_UpnpInit2 (f : list event -> string -> Z -> Z) (u : libupnp)
    : libupnp :=
  {| UpnpAddToActionResponse := UpnpAddToActionResponse u;
     UpnpMakeActionResponse := UpnpMakeActionResponse u;
     UpnpGetErrorMessage := UpnpGetErrorMessage u;
     UpnpAcceptSubscription := UpnpAcceptSubscription u;
     UpnpInit2 := f;
     UpnpEnableWebserver := UpnpEnableWebserver u;
     UpnpAddVirtualDir := UpnpAddVirtualDir u;
     UpnpGetServerIpAddress := UpnpGetServerIpAddress u;
     UpnpGetServerPort := UpnpGetServerPort u;
     UpnpRegisterRootDevice2 := UpnpRegisterRootDevice2 u;
     UpnpSendAdvertisement := UpnpSendAdvertisement u |}.

Definition with_UpnpAddToActionResponse
    (f : option IXML_Document -> string -> string -> string -> string ->
         Z * option IXML_Document) (u : libupnp) : libupnp :=
  {| UpnpAddToActionResponse := f;
     UpnpMakeActionResponse := UpnpMakeActionResponse u;
     UpnpGetErrorMessage := UpnpGetErrorMessage u;
     UpnpAcceptSubscription := UpnpAcceptSubscription u;
     UpnpInit2 := UpnpInit2 u;
     UpnpEnableWebserver := UpnpEnableWebserver u;
     UpnpAddVirtualDir := UpnpAddVirtualDir u;
     UpnpGetServerIpAddress := UpnpGetServerIpAddress u;
     UpnpGetServerPort := UpnpGetServerPort u;
     UpnpRegisterRootDevice2 := UpnpRegisterRootDevice2 u;
     UpnpSendAdvertisement := UpnpSendAdvertisement u |}.

(** No memory is left for a response. *)
Definition upnp_full : libupnp :=
  with_UpnpAddToActionResponse
    (fun _ _ _ _ _ => (UPNP_E_OUTOF_MEMORY, None)) upnp_ok.

(** The network never comes up. *)
Definition upnp_down : libupnp :=
  with_UpnpInit2 (fun _ _ _ => UPNP_E_SOCKET_BIND) upnp_ok.

(** The network comes up after [n] failed bind attempts. *)
Definition upnp_up_after (n : nat) : libupnp :=
  with_UpnpInit2
    (fun history _ _ =>
       if (bind_attempts history <? n)%nat then UPNP_E_SOCKET_BIND
       else UPNP_E_SUCCESS)
    upnp_ok.

Fixpoint to_xml (e : XMLElement) : string :=
  match e with
  | xml_element n ns v c =>
      "<" +:+ n
      +:+ match ns with Some u => " xmlns='" +:+ u +:+ "'" | None => "" end
      +:+ ">" +:+ default "" v
      +:+ (fix all (l : list XMLElement) : string :=
             match l with
             | [] => ""
             | x :: r => to_xml x +:+ all r
             end) c
      +:+ "</" +:+ n +:+ ">"
  end.

Fixpoint escape (s : string) : string :=
  match s with
  | EmptyString => EmptyString
  | String c r =>
      (if Ascii.eqb c "<" then "&lt;"
       else if Ascii.eqb c ">" then "&gt;"
       else if Ascii.eqb c "&" then "&amp;"
       else String c EmptyString) +:+ escape r
  end.

Definition last_change_xml (b : UPnPLastChangeBuilder) : string :=
  "<Event xmlns='" +:+ builder_ns b +:+ "'><InstanceID val='0'>"
  +:+ fold_right (fun nv acc =>
                    "<" +:+ fst nv +:+ " val='" +:+ snd nv +:+ "'/>" +:+ acc)
                 "" (builder_entries b)
  +:+ "</InstanceID></Event>".

Definition repo : collaborators :=
  {| LastChange_toXML := last_change_xml;
     xmlescape := escape;
     XMLDoc_ToXMLString := to_xml;
     webserver_register_callbacks := true |}.

(** Handlers in the style of the renderer's. *)
Definition get_volume : handler :=
  GetString "InstanceID" (fun id =>
    match id with
    | None => Return (-1)
    | Some _ => AppendVariable 0 "CurrentVolume" (ReadStatus Return)
    end).

Definition set_volume : handler :=
  GetString "DesiredVolume" (fun v =>
    match v with
    | None => Return (-1)
    | Some v =>
        CollectorStart (VariableSet 0 v (CollectorFinish (Return 0)))
    end).

Definition failing : handler :=
  AddResponse "Partial" "1" (fun _ =>
    SetError 718 "Invalid InstanceID" (Return (-1))).

(** A handler that does not look at what [upnp_get_string] returned
    and answers 0 in any case. *)
Definition get_mute : handler :=
  GetString "Channel" (fun _ => AppendVariable 1 "CurrentMute" (Return 0)).

Definition control : service :=
  {| service_id := "urn:upnp-org:serviceId:RenderingControl";
     service_type := "urn:schemas-upnp-org:service:RenderingControl:1";
     scpd_url := "/upnp/rendercontrolSCPD.xml";
     control_url := "/upnp/control/rendercontrol1";
     event_url := "/upnp/event/rendercontrol1";
     event_xml_ns := "urn:schemas-upnp-org:metadata-1-0/RCS/";
     actions :=
       [ {| action_name := "GetVolume"; callback := Some get_volume |};
         {| action_name := "SetVolume"; callback := Some set_volume |};
         {| action_name := "SelectPreset"; callback := Some failing |};
         {| action_name := "ListPresets"; callback := None |};
         {| action_name := "GetMute"; callback := Some get_mute |} ];
     variable_container :=
       [ ("Volume", "10"); ("Mute", "false"); ("LastChange", "");
         ("A_ARG_TYPE_Channel", "Master") ];
     last_change := Some {| nesting_depth := 0; pending := [] |} |}.

Definition connmgr : service :=
  {| service_id := "urn:upnp-org:serviceId:ConnectionManager";
     service_type := "urn:schemas-upnp-org:service:ConnectionManager:1";
     scpd_url := "/upnp/renderconnmgrSCPD.xml";
     control_url := "/upnp/control/renderconnmgr1";
     event_url := "/upnp/event/renderconnmgr1";
     event_xml_ns := "urn:schemas-upnp-org:event-1-0";
     actions :=
       [ {| action_name := "GetCurrentConnectionIDs";
            callback :=
              Some (AddResponse "ConnectionIDs" "0" Return) |} ];
     variable_container := [ ("CurrentConnectionIDs", "0") ];
     last_change := None |}.

Definition render_device : upnp_device_descriptor :=
  {| device_type := "urn:schemas-upnp-org:device:MediaRenderer:1";
     friendly_name := "GMediaRender";
     manufacturer := "Ivo Clarysse, Henner Zeller";
     manufacturer_url := "http://github.com/hzeller/gmrender-resurrect";
     model_description := "gmediarender";
     model_name := "gmediarender";
     model_number := "1";
     model_url := "http://github.com/hzeller/gmrender-resurrect";
     presentation_url := "/";
     udn := "uuid:GMediaRender-1_0-000-000-002";
     icons :=
       Some [ {| width := 64; height := 64; depth := 24;
                 url := "/upnp/grender-64x64.png"; mimetype := "image/png" |} ];
     services := [connmgr; control] |}.

Definition w0 : world :=
  {| priv := {| descriptor := render_device; device_handle := 1 |};
     trace := [] |}.

Definition arguments (actionName : string) (args : list (string * string))
    : IXML_Document :=
  ixml_node "#document" None
    [ixml_node ("u:" +:+ actionName) None
       (map (fun kv => ixml_node (fst kv) None
                         [ixml_node "#text" (Some (snd kv)) []]) args)].

Definition action_request (serviceID actionName : string)
    (args : list (string * string)) : UpnpActionRequest :=
  {| ar_ErrCode := 0; ar_Socket := 7; ar_ErrStr := "";
     ar_ActionName := actionName;
     ar_DevUDN := "uuid:GMediaRender-1_0-000-000-002";
     ar_ServiceID := serviceID;
     ar_ActionRequest := Some (arguments actionName args);
     ar_ActionResult := None |}.

Definition control_id : string := "urn:upnp-org:serviceId:RenderingControl".

(** The requests of the examples. *)
Definition get_volume_request : UpnpActionRequest :=
  action_request control_id "GetVolume" [("InstanceID", "0")].

Definition select_preset_request : UpnpActionRequest :=
  action_request control_id "SelectPreset" [("InstanceID", "0")].

Definition get_mute_request : UpnpActionRequest :=
  action_request control_id "GetMute" [("InstanceID", "0")].

Definition list_presets_request : UpnpActionRequest :=
  action_request control_id "ListPresets" [("InstanceID", "0")].

Definition play_request : UpnpActionRequest :=
  action_request "urn:upnp-org:serviceId:AVTransport" "Play"
    [("InstanceID", "0"); ("Speed", "1")].

Definition seek_request : UpnpActionRequest :=
  action_request control_id "Seek" [("InstanceID", "0")].

Definition mute_query : UpnpStateVarRequest :=
  {| sv_ErrCode := 0; sv_ServiceID := control_id; sv_StateVarName := "Mute";
     sv_CurrentVal := None |}.

Definition subscription : UpnpSubscriptionRequest :=
  {| sr_ServiceId := control_id;
     sr_UDN := "uuid:GMediaRender-1_0-000-000-002";
     sr_SID := "uuid:4a56-subscriber" |}.

(** An event whose status already records an error. *)
Definition failed_event : action_event :=
  {| ev_request := get_volume_request; ev_status := -1; ev_service := 1 |}.

(** The renderer after the volume was turned up: the same descriptor
    input, another store. *)
Definition louder_device : upnp_device_descriptor :=
  with_services render_device
    [connmgr;
     with_variable_container
       [ ("Volume", "11"); ("Mute", "false"); ("LastChange", "");
         ("A_ARG_TYPE_Channel", "Master") ] control].

(** A handler that opens a collection window and does not close it,
    and the renderer with an action bound to it. *)
Definition unbalanced : handler := CollectorStart (Return 0).

Definition nesting_control : service :=
  {| service_id := service_id control;
     service_type := service_type control;
     scpd_url := scpd_url control;
     control_url := control_url control;
     event_url := event_url control;
     event_xml_ns := event_xml_ns control;
     actions := [ {| action_name := "SetMute"; callback := Some unbalanced |} ];
     variable_container := variable_container control;
     last_change := last_change control |}.

Definition nesting_w0 : world :=
  {| priv := {| descriptor := with_services render_device
                                [connmgr; nesting_control];
                device_handle := 1 |};
     trace := [] |}.

Definition set_mute_request : UpnpActionRequest :=
  action_request control_id "SetMute"
    [("InstanceID", "0"); ("DesiredMute", "1")].

(** The renderer without an icon table, and the SCPD text of a
    service as the examples take it. *)
Definition headless_device : upnp_device_descriptor :=
  {| device_type := device_type render_device;
     friendly_name := friendly_name render_device;
     manufacturer := manufacturer render_device;
     manufacturer_url := manufacturer_url render_device;
     model_description := model_description render_device;
     model_name := model_name render_device;
     model_number := model_number render_device;
     model_url := model_url render_device;
     presentation_url := presentation_url render_device;
     udn := udn render_device;
     icons := None;
     services := services render_device |}.

Definition scpd_of (srv : service) : string :=
  "<scpd><!-- " +:+ service_type srv +:+ " --></scpd>".

(** The subscription of the examples, and a query for the mute
    state, as libupnp hands them to the callback. *)
Definition subscription_event : Upnp_EventType :=
  UPNP_EVENT_SUBSCRIPTION_REQUEST subscription.

End Reference.

(** * Properties *)

(** ** C strings *)

Lemma byte_inj c1 c2 : byte c1 = byte c2 -> c1 = c2.
Proof.
  unfold byte. intros H. apply N2Z.inj in H.
  rewrite <- (ascii_N_embedding c1), <- (ascii_N_embedding c2). now rewrite H.
Qed.

Lemma strcmp_refl s : strcmp s s = 0.
Proof.
  induction s as [|c r IH]; simpl; [reflexivity|].
  rewrite Z.eqb_refl. destruct (byte c =? 0); [reflexivity | exact IH].
Qed.

Lemma strcmp_zero_eq s1 : forall s2,
  nul_free s1 -> nul_free s2 -> strcmp s1 s2 = 0 -> s1 = s2.
Proof.
  induction s1 as [|c1 r1 IH]; intros [|c2 r2]; simpl.
  - reflexivity.
  - intros _ [Hc _] H. lia.
  - intros [Hc _] _. rewrite (proj2 (Z.eqb_neq _ _) Hc). lia.
  - intros [Hc1 Hr1] [Hc2 Hr2].
    destruct (Z.eqb_spec (byte c1) (byte c2)) as [E|E]; [|lia].
    rewrite (proj2 (Z.eqb_neq _ _) Hc1). intros H.
    apply byte_inj in E. subst c2. f_equal. now apply IH.
Qed.

Lemma strcmp_eq s1 s2 :
  nul_free s1 -> nul_free s2 -> (strcmp s1 s2 = 0 <-> s1 = s2).
Proof.
  intros H1 H2. split; [now apply strcmp_zero_eq|].
  intros ->. apply strcmp_refl.
Qed.

(** [strncmp(p, s, strlen(p)) == 0] is the prefix test, whatever [s]
    holds (an embedded NUL of [s] differs from every byte of [p]). *)
Lemma strncmp_prefix p : forall s,
  nul_free p ->
  (strncmp p s (String.length p) = 0 <-> String.prefix p s = true).
Proof.
  induction p as [|c r IH]; intros s Hp.
  - simpl. split; [intros _; now destruct s | reflexivity].
  - destruct Hp as [Hc Hr]. destruct s as [|c' r']; simpl.
    + rewrite (proj2 (Z.eqb_neq _ _) Hc). split; [lia | discriminate].
    + destruct (Z.eqb_spec (byte c) (byte c')) as [E|E].
      * apply byte_inj in E. subst c'.
        rewrite (proj2 (Z.eqb_neq _ _) Hc).
        destruct (ascii_dec c c) as [_|N]; [|congruence]. now apply IH.
      * destruct (ascii_dec c c') as [->|N]; [congruence|].
        split; [lia | discriminate].
Qed.

(** ** Lookups *)

Lemma find_service_from_None l id n :
  find_service_from l id n = None <->
  Forall (fun s => strcmp (service_id s) id <> 0) l.
Proof.
  revert n. induction l as [|s l IH]; intros n; simpl.
  - split; [constructor | reflexivity].
  - destruct (Z.eqb_spec (strcmp (service_id s) id) 0) as [E|E].
    + split; [discriminate|]. intros H. inversion H; subst. contradiction.
    + rewrite IH. split; [now constructor|]. intros H. now inversion H.
Qed.

Lemma find_service_from_Some l id : forall n i,
  find_service_from l id n = Some i ->
  (n <= i)%nat /\
  exists s, l !! (i - n)%nat = Some s /\ strcmp (service_id s) id = 0 /\
            Forall (fun s' => strcmp (service_id s') id <> 0) (take (i - n) l).
Proof.
  induction l as [|s l IH]; intros n i; simpl; [discriminate|].
  destruct (Z.eqb_spec (strcmp (service_id s) id) 0) as [E|E].
  - intros [= <-]. split; [lia|]. rewrite Nat.sub_diag. exists s.
    repeat split; [assumption | constructor].
  - intros H. apply IH in H as (Hle & s' & Hl & Hs & Hbefore).
    split; [lia|]. exists s'.
    replace (i - n)%nat with (S (i - S n)) by lia. simpl.
    repeat split; try assumption. now constructor.
Qed.

(** What [find_service] returns is a service of the device: the first
    one whose id compares equal. *)
Lemma find_service_Some device_def id i :
  find_service device_def id = Some i ->
  exists s, services device_def !! i = Some s /\ strcmp (service_id s) id = 0 /\
            Forall (fun s' => strcmp (service_id s') id <> 0)
                   (take i (services device_def)).
Proof.
  unfold find_service. intros H.
  apply find_service_from_Some in H as (_ & s & Hl & Hs & Hb).
  rewrite Nat.sub_0_r in Hl, Hb. eauto.
Qed.

Lemma find_service_None device_def id :
  find_service device_def id = None <->
  Forall (fun s => strcmp (service_id s) id <> 0) (services device_def).
Proof. apply find_service_from_None. Qed.

Lemma find_action_in_None l name :
  find_action_in l name = None <->
  Forall (fun a => strcmp (action_name a) name <> 0) l.
Proof.
  induction l as [|a l IH]; simpl.
  - split; [constructor | reflexivity].
  - destruct (Z.eqb_spec (strcmp (action_name a) name) 0) as [E|E].
    + split; [discriminate|]. intros H. inversion H; subst. contradiction.
    + rewrite IH. split; [now constructor|]. intros H. now inversion H.
Qed.

Lemma find_action_in_Some l name a :
  find_action_in l name = Some a ->
  a ∈ l /\ strcmp (action_name a) name = 0.
Proof.
  induction l as [|b l IH]; simpl; [discriminate|].
  destruct (Z.eqb_spec (strcmp (action_name b) name) 0) as [E|E].
  - intros [= <-]. split; [constructor | assumption].
  - intros H. apply IH in H as [Hin Hs]. split; [now constructor | assumption].
Qed.

(** ** The world under [emit] and [update_service] *)

Lemma trace_emit e w : trace (emit e w) = trace w ++ [e].
Proof. reflexivity. Qed.

Lemma priv_emit e w : priv (emit e w) = priv w.
Proof. reflexivity. Qed.

Lemma service_at_emit e w srv : service_at (emit e w) srv = service_at w srv.
Proof. reflexivity. Qed.

Lemma trace_update_service srv f w : trace (update_service srv f w) = trace w.
Proof. reflexivity. Qed.

Lemma service_at_update_eq srv f w :
  (srv < length (services (descriptor (priv w))))%nat ->
  service_at (update_service srv f w) srv = f (service_at w srv).
Proof.
  intros Hlt. unfold service_at, update_service. simpl.
  rewrite list_lookup_alter_eq.
  destruct (lookup_lt_is_Some_2 _ _ Hlt) as [s Hs]. now rewrite Hs.
Qed.

Lemma service_at_update_ne srv srv' f w :
  srv <> srv' ->
  service_at (update_service srv f w) srv' = service_at w srv'.
Proof.
  intros Hne. unfold service_at, update_service. simpl.
  now rewrite list_lookup_alter_ne.
Qed.

Section Dispatch.

Context (upnp : libupnp) (repo : collaborators).

(** ** Sticky errors of [upnp_add_response] *)

(** C10: once the status of the event records an error,
    [upnp_add_response] returns -1 and hands the event back as it was:
    neither the action result nor the error code nor the error string
    of its request changes. *)
Theorem upnp_add_response_after_error event key value w :
  ev_status event <> 0 ->
  upnp_add_response upnp event key value w = (-1, event) /\
  ar_ActionResult (ev_request (snd (upnp_add_response upnp event key value w)))
    = ar_ActionResult (ev_request event) /\
  ar_ErrCode (ev_request (snd (upnp_add_response upnp event key value w)))
    = ar_ErrCode (ev_request event) /\
  ar_ErrStr (ev_request (snd (upnp_add_response upnp event key value w)))
    = ar_ErrStr (ev_request event).
Proof.
  intros Hst.
  assert (E : upnp_add_response upnp event key value w = (-1, event)).
  { unfold upnp_add_response.
    now rewrite (proj2 (Z.eqb_neq _ _) Hst). }
  rewrite E. repeat split.
Qed.

(** When libupnp cannot build the response, [upnp_add_response]
    returns -1 and leaves the fixed action-failed code with libupnp's
    description of the failure; the status of the event stays as it
    was. *)
Lemma upnp_add_response_construction_failure event key value w :
  ev_status event = 0 ->
  fst (UpnpAddToActionResponse upnp (ar_ActionResult (ev_request event))
         (ar_ActionName (ev_request event))
         (service_type (service_at w (ev_service event))) key value)
    <> UPNP_E_SUCCESS ->
  fst (upnp_add_response upnp event key value w) = -1 /\
  ev_status (snd (upnp_add_response upnp event key value w)) = 0 /\
  ar_ActionResult (ev_request (snd (upnp_add_response upnp event key value w)))
    = None /\
  ar_ErrCode (ev_request (snd (upnp_add_response upnp event key value w)))
    = UPNP_SOAP_E_ACTION_FAILED /\
  ar_ErrStr (ev_request (snd (upnp_add_response upnp event key value w)))
    = UpnpGetErrorMessage upnp
        (fst (UpnpAddToActionResponse upnp
                (ar_ActionResult (ev_request event))
                (ar_ActionName (ev_request event))
                (service_type (service_at w (ev_service event))) key value)).
Proof.
  intros Hst Hrc. unfold upnp_add_response. rewrite Hst. simpl.
  destruct (UpnpAddToActionResponse _ _ _ _ _ _) as [rc doc]. simpl in *.
  rewrite (proj2 (Z.eqb_neq _ _) Hrc). simpl. rewrite Hst. repeat split.
Qed.

(** ** Requests the registry does not know *)

Lemma handle_action_request_unknown ar_event w :
  find_action w (find_service (descriptor (priv w)) (ar_ServiceID ar_event))
    (ar_ActionName ar_event) = None ->
  handle_action_request upnp repo ar_event w =
  Some (-1,
        UpnpActionRequest_set_ErrCode
          (UpnpActionRequest_set_ActionResult ar_event None)
          UPNP_SOAP_E_INVALID_ACTION,
        emit (unknown_action_log ar_event) w).
Proof. intros H. unfold handle_action_request. now rewrite H. Qed.

(** The null-pointer branch of the model is dead code. *)
Lemma handle_action_request_returns ar_event w :
  is_Some (handle_action_request upnp repo ar_event w).
Proof.
  unfold handle_action_request.
  destruct (find_service _ _) as [srv|]; simpl.
  - destruct (find_action_in _ _); [|eauto].
    destruct (callback a); [destruct (run _ _ _ _ _) as [[? ?] ?]|]; eauto.
  - eauto.
Qed.

(** Whatever the request and whatever its handler did, the callback
    registered with libupnp reports 0. *)
Lemma event_handler_reports_success EventType w :
  exists EventType' w',
    event_handler upnp repo EventType w = Some (0, EventType', w').
Proof.
  destruct EventType as [ar_event | sv_event | sr_event | t]; simpl.
  - destruct (handle_action_request_returns ar_event w) as [[[rc ar'] w'] H].
    rewrite H. eauto.
  - destruct (handle_var_request sv_event w) as [[rc sv'] w']. eauto.
  - destruct (handle_subscription_request upnp repo sr_event w) as [rc w'].
    eauto.
  - eauto.
Qed.

(** ** What a handler cannot change

    A handler reaches the device through the helpers above, so the
    registry (ids, types, URLs, actions, which services have a
    collector) is the same before and after it; only variable values,
    collector contents and the trace move. *)

Lemma skeleton_emit e w : world_skeleton (emit e w) = world_skeleton w.
Proof. reflexivity. Qed.

Lemma skeleton_update_service srv f w :
  (forall s, services (descriptor (priv w)) !! srv = Some s ->
             service_skeleton (f s) = service_skeleton s) ->
  world_skeleton (update_service srv f w) = world_skeleton w.
Proof.
  intros Hf. unfold world_skeleton, update_service. simpl.
  f_equal. unfold with_services. simpl. f_equal.
  apply list_eq. intros j. rewrite !list_lookup_fmap.
  destruct (decide (srv = j)) as [<-|Hne].
  - rewrite list_lookup_alter_eq.
    destruct (services (descriptor (priv w)) !! srv) as [s|] eqn:E; simpl;
      [|reflexivity].
    f_equal. now apply Hf.
  - now rewrite list_lookup_alter_ne.
Qed.

Lemma skeleton_service_at w w' srv :
  world_skeleton w' = world_skeleton w ->
  service_skeleton (service_at w' srv) = service_skeleton (service_at w srv).
Proof.
  intros H. unfold world_skeleton in H.
  assert (E : service_skeleton <$> services (descriptor (priv w'))
              = service_skeleton <$> services (descriptor (priv w))).
  { now apply (f_equal (fun d => services (descriptor d))) in H. }
  apply (f_equal (fun l => l !! srv)) in E.
  rewrite !list_lookup_fmap in E. unfold service_at.
  destruct (services (descriptor (priv w')) !! srv),
           (services (descriptor (priv w)) !! srv); simpl in *;
    congruence.
Qed.

Lemma skeleton_service_type w w' srv :
  world_skeleton w' = world_skeleton w ->
  service_type (service_at w' srv) = service_type (service_at w srv).
Proof.
  intros H. apply (skeleton_service_at _ _ srv) in H.
  now apply (f_equal service_type) in H.
Qed.

Lemma skeleton_has_last_change w w' srv :
  world_skeleton w' = world_skeleton w ->
  has_last_change w' srv = has_last_change w srv.
Proof.
  intros H. apply (skeleton_service_at _ _ srv) in H.
  apply (f_equal last_change) in H. unfold has_last_change. simpl in H.
  destruct (last_change (service_at w' srv)),
           (last_change (service_at w srv)); simpl in H; congruence.
Qed.

Lemma skeleton_length w w' :
  world_skeleton w' = world_skeleton w ->
  length (services (descriptor (priv w')))
  = length (services (descriptor (priv w))).
Proof.
  intros H. apply (f_equal (fun d => length (services (descriptor d)))) in H.
  simpl in H. now rewrite !length_fmap in H.
Qed.

(** ** Errors stick *)

Lemma last_set_error_app tr e :
  last_set_error (tr ++ [e]) =
  match set_error_of e with
  | Some call => Some call
  | None => last_set_error tr
  end.
Proof.
  induction tr as [|x tr IH]; simpl.
  - now destruct (set_error_of e).
  - rewrite IH. destruct (set_error_of e); [reflexivity|].
    now destruct (last_set_error tr).
Qed.

Lemma sticky_emit event w e :
  set_error_of e = None -> sticky event w -> sticky event (emit e w).
Proof.
  intros He H Hst. destruct (H Hst) as (H1 & H2 & code & H3).
  repeat split; try assumption. exists code.
  rewrite trace_emit, last_set_error_app, He. exact H3.
Qed.

Lemma sticky_same_trace event w w' :
  trace w' = trace w -> sticky event w -> sticky event w'.
Proof. intros E H Hst. rewrite E. now apply H. Qed.

Ltac evolves_split := split; [|split; [|split]].

Lemma evolves_refl event w : evolves event w event w.
Proof.
  evolves_split; [reflexivity | reflexivity | | auto].
  exists []. now rewrite app_nil_r.
Qed.

Lemma evolves_trans e1 w1 e2 w2 e3 w3 :
  evolves e1 w1 e2 w2 -> evolves e2 w2 e3 w3 -> evolves e1 w1 e3 w3.
Proof.
  intros (S1 & K1 & [t1 T1] & Y1) (S2 & K2 & [t2 T2] & Y2).
  evolves_split; [congruence | congruence | | auto].
  exists (t1 ++ t2). now rewrite T2, T1, app_assoc.
Qed.

Lemma evolves_emit event w e :
  set_error_of e = None -> evolves event w event (emit e w).
Proof.
  intros He. evolves_split; [reflexivity | reflexivity | | ].
  - now exists [e].
  - now apply sticky_emit.
Qed.

Lemma evolves_update_service event w srv f :
  (forall s, services (descriptor (priv w)) !! srv = Some s ->
             service_skeleton (f s) = service_skeleton s) ->
  evolves event w event (update_service srv f w).
Proof.
  intros Hf. evolves_split.
  - reflexivity.
  - now apply skeleton_update_service.
  - exists []. now rewrite app_nil_r.
  - now apply sticky_same_trace.
Qed.

Lemma evolves_then_emit e1 w1 e2 w2 e :
  set_error_of e = None -> evolves e1 w1 e2 w2 -> evolves e1 w1 e2 (emit e w2).
Proof.
  intros He H. eapply evolves_trans; [exact H|]. now apply evolves_emit.
Qed.

Lemma evolves_then_update e1 w1 e2 w2 srv f :
  (forall s, services (descriptor (priv w2)) !! srv = Some s ->
             service_skeleton (f s) = service_skeleton s) ->
  evolves e1 w1 e2 w2 -> evolves e1 w1 e2 (update_service srv f w2).
Proof.
  intros Hf H. eapply evolves_trans; [exact H|].
  now apply evolves_update_service.
Qed.

(** An event made from scratch for the same service and the same
    world: sticky because of what it holds. *)
Lemma evolves_event event event' w :
  ev_service event' = ev_service event ->
  (sticky event w -> sticky event' w) ->
  evolves event w event' w.
Proof.
  intros Hs Hy. evolves_split; [assumption | reflexivity | | assumption].
  exists []. now rewrite app_nil_r.
Qed.

Lemma upnp_add_response_evolves event key value w :
  evolves event w (snd (upnp_add_response upnp event key value w)) w.
Proof.
  unfold upnp_add_response.
  destruct (Z.eqb_spec (ev_status event) 0) as [E|E]; simpl;
    [|apply evolves_refl].
  destruct (UpnpAddToActionResponse _ _ _ _ _ _) as [rc doc].
  destruct (negb (rc =? UPNP_E_SUCCESS)); simpl;
    (apply evolves_event; [reflexivity | intros _ Hst; simpl in Hst; congruence]).
Qed.

Lemma upnp_set_error_evolves event error_code formatted w :
  evolves event w (fst (upnp_set_error event error_code formatted w))
                  (snd (upnp_set_error event error_code formatted w)).
Proof.
  unfold upnp_set_error. simpl. evolves_split; [reflexivity | reflexivity | | ].
  - eexists. reflexivity.
  - intros _ _. simpl. split; [reflexivity|]. split; [reflexivity|].
    exists error_code. now rewrite last_set_error_app.
Qed.

Lemma upnp_append_variable_evolves event varnum paramname w :
  evolves event w (fst (upnp_append_variable upnp event varnum paramname w))
                  (snd (upnp_append_variable upnp event varnum paramname w)).
Proof.
  unfold upnp_append_variable.
  set (w1 := emit (container_Get _ _) (emit (ithread_mutex_lock _) w)).
  set (value := snd _).
  pose proof (upnp_add_response_evolves event paramname value w1) as H.
  destruct (upnp_add_response upnp event paramname value w1) as [rc event'].
  simpl in *.
  apply evolves_then_emit; [reflexivity|].
  apply (evolves_trans _ _ event w1); [|exact H].
  do 2 (apply evolves_then_emit; [reflexivity|]). apply evolves_refl.
Qed.

Lemma upnp_get_string_evolves event key w :
  evolves event w (snd (fst (upnp_get_string event key w)))
                  (snd (upnp_get_string event key w)).
Proof.
  unfold upnp_get_string.
  destruct (ar_ActionRequest (ev_request event)) as [node|];
    [destruct (ixmlNode_getFirstChild node) as [node'|];
     [destruct (get_string_loop _ key)|]|].
  - apply evolves_refl.
  - apply (upnp_set_error_evolves event UPNP_SOAP_E_INVALID_ARGS).
  - apply (upnp_set_error_evolves event UPNP_SOAP_E_INVALID_ARGS).
  - apply (upnp_set_error_evolves event UPNP_SOAP_E_INVALID_ARGS).
Qed.

Lemma LastChange_Start_at_evolves event srv w :
  evolves event w event (LastChange_Start_at srv w).
Proof.
  unfold LastChange_Start_at.
  apply evolves_then_update.
  - intros s _. unfold service_skeleton. simpl. now destruct (last_change s).
  - apply evolves_then_emit; [reflexivity | apply evolves_refl].
Qed.

Lemma LastChange_Finish_at_evolves event srv w :
  evolves event w event (LastChange_Finish_at repo srv w).
Proof.
  unfold LastChange_Finish_at.
  assert (H0 : evolves event w event (emit (LastChange_Finish srv) w))
    by (apply evolves_emit; reflexivity).
  destruct (last_change (service_at (emit _ w) srv)) as [c|] eqn:Hc;
    [|exact H0].
  destruct (Collector_Finish c) as [c' outcome].
  assert (H1 : evolves event w event
                 (update_service srv (with_last_change (Some c'))
                    (emit (LastChange_Finish srv) w))).
  { apply evolves_then_update; [|exact H0]. intros s Hs.
    unfold service_at in Hc. rewrite Hs in Hc. simpl in Hc.
    unfold service_skeleton. simpl. now rewrite Hc. }
  destruct outcome; [exact H1 | |];
    (apply evolves_then_emit; [reflexivity | exact H1]).
Qed.

Lemma variable_write_evolves event srv varnum value w :
  evolves event w event (variable_write srv varnum value w).
Proof.
  unfold variable_write.
  assert (H0 : evolves event w event (emit (container_Set srv varnum value) w))
    by (apply evolves_emit; reflexivity).
  destruct (variable_container _ !! varnum) as [[name old]|]; [|exact H0].
  apply evolves_then_update; [|exact H0].
  intros s _. unfold service_skeleton. simpl. now destruct (last_change s).
Qed.

Lemma run_unfold h event w :
  run upnp repo h event w =
  match h with
  | Return rc => (rc, event, w)
  | AddResponse key value k =>
      let '(rc, event) := upnp_add_response upnp event key value w in
      run upnp repo (k rc) event w
  | AppendVariable varnum paramname k =>
      let '(event, w) := upnp_append_variable upnp event varnum paramname w in
      run upnp repo k event w
  | SetError error_code formatted k =>
      let '(event, w) := upnp_set_error event error_code formatted w in
      run upnp repo k event w
  | GetString key k =>
      let '(r, event, w) := upnp_get_string event key w in
      run upnp repo (k r) event w
  | ReadStatus k => run upnp repo (k (ev_status event)) event w
  | VariableGet varnum k =>
      let w := emit (container_Get (ev_service event) varnum) w in
      run upnp repo
        (k (snd (VariableContainer_Get
                   (variable_container (service_at w (ev_service event)))
                   varnum)))
        event w
  | VariableSet varnum value k =>
      run upnp repo k event (variable_write (ev_service event) varnum value w)
  | CollectorStart k =>
      run upnp repo k event (LastChange_Start_at (ev_service event) w)
  | CollectorFinish k =>
      run upnp repo k event (LastChange_Finish_at repo (ev_service event) w)
  end.
Proof. destruct h; reflexivity. Qed.

(** Running a handler is a chain of such steps. *)
Lemma run_evolves h : forall event w,
  evolves event w (snd (fst (run upnp repo h event w)))
                  (snd (run upnp repo h event w)).
Proof.
  induction h as [rc | key value k IH | varnum paramname k IH
                  | error_code formatted k IH | key k IH | k IH
                  | varnum k IH | varnum value k IH | k IH | k IH];
    intros event w; rewrite run_unfold; cbv beta iota zeta.
  - apply evolves_refl.
  - pose proof (upnp_add_response_evolves event key value w) as H.
    destruct (upnp_add_response upnp event key value w) as [rc event'].
    eapply evolves_trans; [exact H | apply IH].
  - pose proof (upnp_append_variable_evolves event varnum paramname w) as H.
    destruct (upnp_append_variable upnp event varnum paramname w) as [event' w'].
    eapply evolves_trans; [exact H | apply IH].
  - pose proof (upnp_set_error_evolves event error_code formatted w) as H.
    destruct (upnp_set_error event error_code formatted w) as [event' w'].
    eapply evolves_trans; [exact H | apply IH].
  - pose proof (upnp_get_string_evolves event key w) as H.
    destruct (upnp_get_string event key w) as [[r event'] w'].
    eapply evolves_trans; [exact H | apply IH].
  - apply IH.
  - eapply evolves_trans; [|apply IH]. apply evolves_emit. reflexivity.
  - eapply evolves_trans; [|apply IH]. apply variable_write_evolves.
  - eapply evolves_trans; [|apply IH]. apply LastChange_Start_at_evolves.
  - eapply evolves_trans; [|apply IH]. apply LastChange_Finish_at_evolves.
Qed.

(** ** The phases of an action request *)

Lemma handle_action_request_bound ar_event w srv act h rc event w_ret :
  find_service (descriptor (priv w)) (ar_ServiceID ar_event) = Some srv ->
  find_action_in (actions (service_at w srv)) (ar_ActionName ar_event)
    = Some act ->
  callback act = Some h ->
  handler_run upnp repo ar_event w srv act h = (rc, event, w_ret) ->
  handle_action_request upnp repo ar_event w =
  Some (0,
        finalized upnp rc (ev_request event) (ar_ActionName ar_event)
          (service_type (service_at w_ret srv)),
        window_closed repo srv (emit (callback_return rc) w_ret)).
Proof.
  intros Hs Ha Hc Hr. unfold handle_action_request.
  rewrite Hs. cbn [find_action]. rewrite Ha, Hc.
  unfold handler_run, window_opened, fresh_event in Hr.
  rewrite Hr. reflexivity.
Qed.

Lemma handle_action_request_unbound ar_event w srv act :
  find_service (descriptor (priv w)) (ar_ServiceID ar_event) = Some srv ->
  find_action_in (actions (service_at w srv)) (ar_ActionName ar_event)
    = Some act ->
  callback act = None ->
  handle_action_request upnp repo ar_event w =
  Some (0,
        UpnpActionRequest_set_ErrCode ar_event UPNP_E_SUCCESS,
        window_closed repo srv (emit (no_handler_log ar_event) (window_opened srv w))).
Proof.
  intros Hs Ha Hc. unfold handle_action_request.
  rewrite Hs. cbn [find_action]. rewrite Ha, Hc. reflexivity.
Qed.

Lemma window_opened_evolves event srv w :
  evolves event w event (window_opened srv w).
Proof.
  unfold window_opened. destruct (has_last_change w srv); [|apply evolves_refl].
  apply evolves_then_emit; [reflexivity|].
  eapply evolves_trans; [|apply LastChange_Start_at_evolves].
  apply evolves_emit. reflexivity.
Qed.

Lemma handler_run_evolves ar_event w srv act h :
  evolves (fresh_event ar_event srv) w
          (snd (fst (handler_run upnp repo ar_event w srv act h)))
          (snd (handler_run upnp repo ar_event w srv act h)).
Proof.
  unfold handler_run.
  eapply evolves_trans; [|apply run_evolves].
  apply evolves_then_emit; [reflexivity|]. apply window_opened_evolves.
Qed.

(** ** A handler that reports an error *)

(** What [upnp_set_error] leaves in the request: no action result,
    the action-failed code whatever [error_code] is, and the message
    cut to the buffer. *)
Lemma upnp_set_error_request event error_code formatted w :
  let event' := fst (upnp_set_error event error_code formatted w) in
  ev_status event' = -1 /\
  ar_ActionResult (ev_request event') = None /\
  ar_ErrCode (ev_request event') = UPNP_SOAP_E_ACTION_FAILED /\
  ar_ErrStr (ev_request event') = substring 0 (LINE_SIZE - 1) formatted /\
  set_error_of
    (Log_error "upnp" "%s: %s (%d)\n"
       [arg_s "upnp_set_error"; arg_s (ar_ErrStr (ev_request event'));
        arg_d error_code])
  = Some (ar_ErrStr (ev_request event'), error_code) /\
  trace (snd (upnp_set_error event error_code formatted w)) =
  trace w ++ [Log_error "upnp" "%s: %s (%d)\n"
                [arg_s "upnp_set_error"; arg_s (ar_ErrStr (ev_request event'));
                 arg_d error_code]].
Proof. unfold upnp_set_error. simpl. repeat split. Qed.

(** X18: when the handler of an action leaves the error status set,
    nothing it had added to the response survives, whatever it
    returns: the handler comes back without an action result, and the
    dispatcher puts the empty response for the action and the service
    type in its place.  The error string is the message of the
    handler's last call of [upnp_set_error] (as kept in the buffer);
    the code is the action-failed code when the handler returns
    nonzero, and the success code when it returns 0. *)
Theorem handler_error_response ar_event w srv act h rc event w_ret :
  find_service (descriptor (priv w)) (ar_ServiceID ar_event) = Some srv ->
  find_action_in (actions (service_at w srv)) (ar_ActionName ar_event)
    = Some act ->
  callback act = Some h ->
  handler_run upnp repo ar_event w srv act h = (rc, event, w_ret) ->
  ev_status event <> 0 ->
  exists ar' w',
    handle_action_request upnp repo ar_event w = Some (0, ar', w') /\
    ar_ErrCode ar' =
      (if rc =? 0 then UPNP_E_SUCCESS else UPNP_SOAP_E_ACTION_FAILED) /\
    (exists error_code,
       last_set_error (trace w_ret) = Some (ar_ErrStr ar', error_code)) /\
    ar_ActionResult (ev_request event) = None /\
    ar_ActionResult ar' =
      UpnpMakeActionResponse upnp (ar_ActionName ar_event)
        (service_type (service_at w srv)).
Proof.
  intros Hs Ha Hc Hr Hst.
  pose proof (handler_run_evolves ar_event w srv act h) as (_ & Hk & _ & Hy).
  rewrite Hr in Hk, Hy. simpl in Hk, Hy.
  destruct Hy as (Hres & Hcode & errc & Hlast); [|exact Hst|].
  { intros Hfresh. simpl in Hfresh. congruence. }
  eexists. eexists. split.
  { apply (handle_action_request_bound _ _ _ _ _ _ _ _ Hs Ha Hc Hr). }
  rewrite (skeleton_service_type _ _ srv Hk).
  unfold finalized. destruct (rc =? 0);
    cbn [ar_ActionResult UpnpActionRequest_set_ErrCode]; rewrite Hres;
    cbn; repeat split; try assumption; now exists errc.
Qed.

(** ** The collection window around a handler *)

Lemma find_service_valid w id srv :
  find_service (descriptor (priv w)) id = Some srv ->
  (srv < length (services (descriptor (priv w))))%nat.
Proof.
  intros H. apply find_service_Some in H as (s & Hs & _).
  now apply lookup_lt_Some in Hs.
Qed.

Lemma Collector_Finish_depth c :
  nesting_depth (fst (Collector_Finish c)) = Nat.pred (nesting_depth c).
Proof.
  unfold Collector_Finish. now destruct (nesting_depth c) as [|[|n]] eqn:E.
Qed.

Lemma LastChange_Start_at_spec srv w c :
  (srv < length (services (descriptor (priv w))))%nat ->
  last_change (service_at w srv) = Some c ->
  trace (LastChange_Start_at srv w) = trace w ++ [LastChange_Start srv] /\
  collector_depth (LastChange_Start_at srv w) srv = S (nesting_depth c).
Proof.
  intros Hlt Hc. unfold LastChange_Start_at. split; [reflexivity|].
  unfold collector_depth. rewrite service_at_update_eq by exact Hlt.
  rewrite service_at_emit, Hc. reflexivity.
Qed.

Lemma LastChange_Finish_at_spec srv w c :
  (srv < length (services (descriptor (priv w))))%nat ->
  last_change (service_at w srv) = Some c ->
  trace (LastChange_Finish_at repo srv w) =
    trace w ++ LastChange_Finish srv :: finish_events repo srv (service_at w srv) c /\
  collector_depth (LastChange_Finish_at repo srv w) srv
    = Nat.pred (nesting_depth c).
Proof.
  intros Hlt Hc. unfold LastChange_Finish_at.
  rewrite service_at_emit, Hc.
  pose proof (Collector_Finish_depth c) as Hd.
  unfold finish_events.
  destruct (Collector_Finish c) as [c' outcome]. simpl in Hd.
  assert (Hdepth : forall w1,
            (srv < length (services (descriptor (priv w1))))%nat ->
            collector_depth
              (update_service srv (with_last_change (Some c')) w1) srv
            = Nat.pred (nesting_depth c)).
  { intros w1 H1. unfold collector_depth.
    rewrite service_at_update_eq by exact H1. simpl. exact Hd. }
  assert (Hid : forall w1,
            (srv < length (services (descriptor (priv w1))))%nat ->
            service_id (service_at
              (update_service srv (with_last_change (Some c')) w1) srv)
            = service_id (service_at w1 srv) /\
            event_xml_ns (service_at
              (update_service srv (with_last_change (Some c')) w1) srv)
            = event_xml_ns (service_at w1 srv)).
  { intros w1 H1. rewrite service_at_update_eq by exact H1. now split. }
  destruct outcome; simpl.
  - split; [reflexivity | now apply Hdepth].
  - destruct (Hid (emit (LastChange_Finish srv) w) Hlt) as [-> ->].
    split; [now rewrite <- app_assoc | now apply Hdepth].
  - split; [now rewrite <- app_assoc | now apply Hdepth].
Qed.

Lemma has_last_change_Some w srv c :
  last_change (service_at w srv) = Some c -> has_last_change w srv = true.
Proof. unfold has_last_change. now intros ->. Qed.

Lemma has_last_change_true w srv :
  has_last_change w srv = true ->
  exists c, last_change (service_at w srv) = Some c.
Proof.
  unfold has_last_change. destruct (last_change _) as [c|]; [eauto | discriminate].
Qed.

Lemma collector_depth_Some w srv c :
  last_change (service_at w srv) = Some c ->
  collector_depth w srv = nesting_depth c.
Proof. unfold collector_depth. now intros ->. Qed.

Lemma window_opened_spec srv w c :
  (srv < length (services (descriptor (priv w))))%nat ->
  last_change (service_at w srv) = Some c ->
  trace (window_opened srv w) =
    trace w ++ [ithread_mutex_lock (service_mutex srv); LastChange_Start srv;
                ithread_mutex_unlock (service_mutex srv)] /\
  collector_depth (window_opened srv w) srv = S (collector_depth w srv).
Proof.
  intros Hlt Hc. unfold window_opened.
  rewrite (has_last_change_Some _ _ _ Hc).
  destruct (LastChange_Start_at_spec srv
              (emit (ithread_mutex_lock (service_mutex srv)) w) c Hlt Hc)
    as [Ht Hd].
  split.
  - rewrite trace_emit, Ht, trace_emit, <- !app_assoc. reflexivity.
  - rewrite (collector_depth_Some _ _ _ Hc). exact Hd.
Qed.

Lemma window_closed_spec srv w c :
  (srv < length (services (descriptor (priv w))))%nat ->
  last_change (service_at w srv) = Some c ->
  trace (window_closed repo srv w) =
    trace w ++ [ithread_mutex_lock (service_mutex srv); LastChange_Finish srv]
            ++ finish_events repo srv (service_at w srv) c
            ++ [ithread_mutex_unlock (service_mutex srv)] /\
  collector_depth (window_closed repo srv w) srv = Nat.pred (collector_depth w srv).
Proof.
  intros Hlt Hc. unfold window_closed.
  rewrite (has_last_change_Some _ _ _ Hc).
  destruct (LastChange_Finish_at_spec srv
              (emit (ithread_mutex_lock (service_mutex srv)) w) c Hlt Hc)
    as [Ht Hd].
  split.
  - rewrite trace_emit, Ht, trace_emit, service_at_emit, <- !app_assoc.
    reflexivity.
  - rewrite (collector_depth_Some _ _ _ Hc). exact Hd.
Qed.

Lemma finish_events_quiet srv s c :
  Forall (fun e => e <> LastChange_Start srv /\ e <> LastChange_Finish srv
                   /\ is_callback e = false)
         (finish_events repo srv s c).
Proof.
  unfold finish_events. destruct (snd (Collector_Finish c));
    repeat constructor; discriminate.
Qed.

(** ** Handlers that open no window of their own *)

Lemma collector_depth_priv w w' srv :
  priv w' = priv w -> collector_depth w' srv = collector_depth w srv.
Proof. unfold collector_depth, service_at. now intros ->. Qed.

Lemma collector_depth_update srv f w j :
  (forall s c, last_change s = Some c ->
     exists c', last_change (f s) = Some c' /\
                nesting_depth c' = nesting_depth c) ->
  (forall s, last_change s = None -> last_change (f s) = None) ->
  collector_depth (update_service srv f w) j = collector_depth w j.
Proof.
  intros Hsome Hnone. unfold collector_depth, service_at, update_service.
  simpl. destruct (decide (srv = j)) as [<-|Hne].
  - rewrite list_lookup_alter_eq.
    destruct (services (descriptor (priv w)) !! srv) as [s|]; simpl;
      [|reflexivity].
    destruct (last_change s) as [c|] eqn:E.
    + destruct (Hsome s c E) as (c' & -> & ->). reflexivity.
    + now rewrite (Hnone s E).
  - now rewrite list_lookup_alter_ne.
Qed.

Lemma upnp_append_variable_priv event varnum paramname w :
  priv (snd (upnp_append_variable upnp event varnum paramname w)) = priv w.
Proof.
  unfold upnp_append_variable.
  now destruct (upnp_add_response upnp event paramname _ _).
Qed.

Lemma upnp_set_error_priv event error_code formatted w :
  priv (snd (upnp_set_error event error_code formatted w)) = priv w.
Proof. reflexivity. Qed.

Lemma upnp_get_string_priv event key w :
  priv (snd (upnp_get_string event key w)) = priv w.
Proof.
  unfold upnp_get_string.
  destruct (ar_ActionRequest (ev_request event)) as [node|];
    [destruct (ixmlNode_getFirstChild node) as [node'|];
     [destruct (get_string_loop _ key)|]|]; reflexivity.
Qed.

Lemma variable_write_depth srv varnum value w j :
  collector_depth (variable_write srv varnum value w) j = collector_depth w j.
Proof.
  unfold variable_write.
  destruct (variable_container _ !! varnum) as [[name old]|]; [|reflexivity].
  rewrite collector_depth_update; [reflexivity| |].
  - intros s c Hc. simpl. rewrite Hc. simpl. eexists. split; [reflexivity|].
    unfold Collector_record.
    destruct (nesting_depth c) eqn:E; simpl; [exact E | reflexivity].
  - intros s Hc. simpl. now rewrite Hc.
Qed.

(** A handler that opens no window of its own leaves every collector
    at the depth it found it. *)
Lemma run_keeps_depth h : forall event w srv,
  window_free h ->
  collector_depth (snd (run upnp repo h event w)) srv = collector_depth w srv.
Proof.
  induction h as [rc | key value k IH | varnum paramname k IH
                  | error_code formatted k IH | key k IH | k IH
                  | varnum k IH | varnum value k IH | k IH | k IH];
    intros event w srv Hfree; rewrite run_unfold; cbv beta iota zeta;
    simpl in Hfree.
  - reflexivity.
  - destruct (upnp_add_response upnp event key value w) as [rc event'].
    now apply IH.
  - pose proof (upnp_append_variable_priv event varnum paramname w) as H.
    destruct (upnp_append_variable upnp event varnum paramname w) as [event' w'].
    rewrite IH by exact Hfree. now apply collector_depth_priv.
  - pose proof (upnp_set_error_priv event error_code formatted w) as H.
    destruct (upnp_set_error event error_code formatted w) as [event' w'].
    rewrite IH by exact Hfree. now apply collector_depth_priv.
  - pose proof (upnp_get_string_priv event key w) as H.
    destruct (upnp_get_string event key w) as [[r event'] w'].
    rewrite IH by apply Hfree. now apply collector_depth_priv.
  - now apply IH.
  - rewrite IH by apply Hfree. reflexivity.
  - rewrite IH by exact Hfree. apply variable_write_depth.
  - contradiction.
  - contradiction.
Qed.

(** C5, as the code has it: for a known action of a known service
    that has a change
    collector, the dispatcher calls [Start] once, under the service
    lock, before anything of the handler happens, and [Finish] once,
    under the service lock, after the handler has returned; it does so
    whatever the handler returns and whatever status it leaves, and
    also when no handler is bound.  The window adds one to the depth
    and takes one off again: if what ran inside left the depth as it
    found it, as every handler without a window of its own does and
    as the missing handler does, the dispatch leaves the depth as it
    found it. *)
Theorem action_window ar_event w srv act c :
  find_service (descriptor (priv w)) (ar_ServiceID ar_event) = Some srv ->
  find_action_in (actions (service_at w srv)) (ar_ActionName ar_event)
    = Some act ->
  last_change (service_at w srv) = Some c ->
  exists ar' w' w_in w_out inside closing,
    handle_action_request upnp repo ar_event w = Some (0, ar', w') /\
    trace w_in =
      trace w ++ [ithread_mutex_lock (service_mutex srv); LastChange_Start srv;
                  ithread_mutex_unlock (service_mutex srv)] /\
    collector_depth w_in srv = S (collector_depth w srv) /\
    trace w_out = trace w_in ++ inside /\
    match callback act with
    | Some h =>
        exists rc event w_ret tr_h,
          run upnp repo h (fresh_event ar_event srv)
              (emit (callback_enter (action_name act)) w_in)
            = (rc, event, w_ret) /\
          trace w_ret = trace w_in ++ callback_enter (action_name act) :: tr_h /\
          inside = callback_enter (action_name act) :: tr_h ++ [callback_return rc] /\
          collector_depth w_out srv = collector_depth w_ret srv
    | None =>
        inside = [no_handler_log ar_event] /\
        collector_depth w_out srv = collector_depth w_in srv
    end /\
    trace w' =
      trace w_out ++ [ithread_mutex_lock (service_mutex srv);
                      LastChange_Finish srv]
                  ++ closing ++ [ithread_mutex_unlock (service_mutex srv)] /\
    Forall (fun e => e <> LastChange_Start srv /\ e <> LastChange_Finish srv
                     /\ is_callback e = false) closing /\
    collector_depth w' srv = Nat.pred (collector_depth w_out srv) /\
    (collector_depth w_out srv = collector_depth w_in srv ->
     collector_depth w' srv = collector_depth w srv) /\
    (match callback act with
     | Some h => window_free h
     | None => True
     end ->
     collector_depth w' srv = collector_depth w srv).
Proof.
  intros Hs Ha Hc.
  pose proof (find_service_valid _ _ _ Hs) as Hlt.
  destruct (window_opened_spec srv w c Hlt Hc) as [Hin_tr Hin_d].
  pose proof (window_opened_evolves (fresh_event ar_event srv) srv w)
    as (_ & Hin_k & _ & _).
  destruct (callback act) as [h|] eqn:Hcb.
  - destruct (handler_run upnp repo ar_event w srv act h) as [[rc event] w_ret] eqn:Hr.
    pose proof (handler_run_evolves ar_event w srv act h) as (_ & Hk & _ & _).
    rewrite Hr in Hk. simpl in Hk.
    pose proof (run_evolves h (fresh_event ar_event srv)
                  (emit (callback_enter (action_name act)) (window_opened srv w)))
      as (_ & _ & [tr_h Htr] & _).
    fold (handler_run upnp repo ar_event w srv act h) in Htr.
    rewrite Hr in Htr.
    simpl in Htr. rewrite <- app_assoc in Htr. simpl in Htr.
    assert (Hlt' : (srv < length (services (descriptor (priv w_ret))))%nat)
      by (rewrite (skeleton_length _ _ Hk); exact Hlt).
    assert (Hhas : has_last_change w_ret srv = true)
      by (rewrite (skeleton_has_last_change _ _ srv Hk);
          exact (has_last_change_Some _ _ _ Hc)).
    destruct (has_last_change_true _ _ Hhas) as [c_ret Hc_ret].
    destruct (window_closed_spec srv (emit (callback_return rc) w_ret) c_ret
                Hlt' Hc_ret) as [Hout_tr Hout_d].
    exists (finalized upnp rc (ev_request event) (ar_ActionName ar_event)
              (service_type (service_at w_ret srv))),
           (window_closed repo srv (emit (callback_return rc) w_ret)),
           (window_opened srv w), (emit (callback_return rc) w_ret),
           (callback_enter (action_name act) :: tr_h ++ [callback_return rc]),
           (finish_events repo srv (service_at (emit (callback_return rc) w_ret) srv)
              c_ret).
    split; [exact (handle_action_request_bound _ _ _ _ _ _ _ _ Hs Ha Hcb Hr)|].
    split; [exact Hin_tr|]. split; [exact Hin_d|].
    split; [rewrite trace_emit, Htr, <- app_assoc; reflexivity|].
    split; [exists rc, event, w_ret, tr_h; repeat split; assumption|].
    split; [exact Hout_tr|]. split; [apply finish_events_quiet|].
    split; [exact Hout_d|].
    split; [intros Hbal; rewrite Hout_d, Hbal, Hin_d; reflexivity|].
    intros Hfree. rewrite Hout_d.
    change (collector_depth (emit (callback_return rc) w_ret) srv)
      with (collector_depth w_ret srv).
    replace w_ret with (snd (handler_run upnp repo ar_event w srv act h))
      by (now rewrite Hr).
    unfold handler_run. rewrite run_keeps_depth by exact Hfree.
    change (collector_depth (emit (callback_enter (action_name act))
                               (window_opened srv w)) srv)
      with (collector_depth (window_opened srv w) srv).
    rewrite Hin_d. reflexivity.
  - assert (Hlt' : (srv < length (services (descriptor
                      (priv (window_opened srv w)))))%nat)
      by (rewrite (skeleton_length _ _ Hin_k); exact Hlt).
    assert (Hhas : has_last_change (window_opened srv w) srv = true)
      by (rewrite (skeleton_has_last_change _ _ srv Hin_k);
          exact (has_last_change_Some _ _ _ Hc)).
    destruct (has_last_change_true _ _ Hhas) as [c_in Hc_in].
    destruct (window_closed_spec srv
                (emit (no_handler_log ar_event) (window_opened srv w)) c_in
                Hlt' Hc_in) as [Hout_tr Hout_d].
    exists (UpnpActionRequest_set_ErrCode ar_event UPNP_E_SUCCESS),
           (window_closed repo srv
              (emit (no_handler_log ar_event) (window_opened srv w))),
           (window_opened srv w),
           (emit (no_handler_log ar_event) (window_opened srv w)),
           [no_handler_log ar_event],
           (finish_events repo srv
              (service_at (emit (no_handler_log ar_event)
                             (window_opened srv w)) srv) c_in).
    split; [exact (handle_action_request_unbound _ _ _ _ Hs Ha Hcb)|].
    split; [exact Hin_tr|]. split; [exact Hin_d|].
    split; [reflexivity|]. split; [split; reflexivity|].
    split; [exact Hout_tr|]. split; [apply finish_events_quiet|].
    split; [exact Hout_d|].
    split; [intros Hbal; rewrite Hout_d, Hbal, Hin_d; reflexivity|].
    intros _. rewrite Hout_d.
    change (collector_depth (emit (no_handler_log ar_event)
                               (window_opened srv w)) srv)
      with (collector_depth (window_opened srv w) srv).
    rewrite Hin_d. reflexivity.
Qed.

(** ** Unknown services and unknown actions *)

(** C2, as the code has it: when no registered service has the
    requested id, the dispatch returns -1, clears the action result
    and sets the fault code of an unknown action, 401: the very code a
    known service gives for an action it does not have.  All it does
    is log one line: no handler is called and the device, with every
    variable store and collector, is left as it was. *)
Theorem unknown_service_action ar_event w :
  Forall (fun s => strcmp (service_id s) (ar_ServiceID ar_event) <> 0)
         (services (descriptor (priv w))) ->
  exists ar' w',
    handle_action_request upnp repo ar_event w = Some (-1, ar', w') /\
    ar_ErrCode ar' = UPNP_SOAP_E_INVALID_ACTION /\
    ar_ActionResult ar' = None /\
    priv w' = priv w /\
    trace w' = trace w ++ [unknown_action_log ar_event] /\
    forall ar2 w2 srv2,
      find_service (descriptor (priv w2)) (ar_ServiceID ar2) = Some srv2 ->
      find_action_in (actions (service_at w2 srv2)) (ar_ActionName ar2) = None ->
      error_code_of (handle_action_request upnp repo ar2 w2)
      = Some (ar_ErrCode ar').
Proof.
  intros Hnone. apply find_service_None in Hnone.
  eexists. eexists. split.
  { apply handle_action_request_unknown. now rewrite Hnone. }
  repeat split.
  intros ar2 w2 srv2 Hs Ha.
  rewrite handle_action_request_unknown; [reflexivity|].
  rewrite Hs. exact Ha.
Qed.

(** C6: when the service is known and none of its actions has the
    requested name, the dispatch returns -1 with the fault code of an
    unsupported action and without an action result.  All it does is
    log one line: no handler is called, no collection window is
    opened, and the device, the depth of the service's collector
    included, is left as it was. *)
Theorem unknown_action_fault ar_event w srv :
  find_service (descriptor (priv w)) (ar_ServiceID ar_event) = Some srv ->
  Forall (fun a => strcmp (action_name a) (ar_ActionName ar_event) <> 0)
         (actions (service_at w srv)) ->
  exists ar' w',
    handle_action_request upnp repo ar_event w = Some (-1, ar', w') /\
    ar_ErrCode ar' = UPNP_SOAP_E_INVALID_ACTION /\
    ar_ActionResult ar' = None /\
    priv w' = priv w /\
    collector_depth w' srv = collector_depth w srv /\
    trace w' = trace w ++ [unknown_action_log ar_event] /\
    List.filter is_callback [unknown_action_log ar_event] = [] /\
    ~ In (LastChange_Start srv) [unknown_action_log ar_event].
Proof.
  intros Hs Hnone. apply find_action_in_None in Hnone.
  eexists. eexists. split.
  { apply handle_action_request_unknown. rewrite Hs. exact Hnone. }
  repeat split. intros [H|[]]. discriminate H.
Qed.

End Dispatch.

Section Queries.

Context (upnp : libupnp) (repo : collaborators).

(** ** State-variable queries *)

Lemma VariableContainer_Get_middle (pre : list (string * string)) x l :
  VariableContainer_Get (pre ++ x :: l) (length pre) = x.
Proof.
  unfold VariableContainer_Get. now rewrite list_lookup_middle.
Qed.

(** The loop reads the variables in order and stops at the first whose
    name is the one asked for. *)
Lemma var_request_loop_spec srv name l : forall pre w,
  fst (var_request_loop srv (pre ++ l) name (seq (length pre) (length l)) w)
    = (fun found => snd (snd found)) <$> list_find (fun nv => fst nv = name) l /\
  priv (snd (var_request_loop srv (pre ++ l) name
               (seq (length pre) (length l)) w)) = priv w /\
  trace (snd (var_request_loop srv (pre ++ l) name
                (seq (length pre) (length l)) w)) =
    trace w ++ map (container_Get srv)
                 (seq (length pre)
                    match list_find (fun nv => fst nv = name) l with
                    | Some (i, _) => S i
                    | None => length l
                    end).
Proof.
  induction l as [|[n v] l IH]; intros pre w.
  - simpl. now rewrite app_nil_r.
  - cbn [length seq var_request_loop list_find].
    rewrite VariableContainer_Get_middle.
    destruct (String.eqb_spec n name) as [E|E].
    + rewrite decide_True by exact E. simpl. repeat split.
    + rewrite decide_False by exact E.
      specialize (IH (pre ++ [(n, v)]) (emit (container_Get srv (length pre)) w)).
      rewrite <- app_assoc, length_app, Nat.add_1_r in IH. simpl in IH.
      destruct IH as (I1 & I2 & I3).
      destruct (list_find (fun nv => fst nv = name) l) as [[i nv]|]; simpl;
        (split; [exact I1 | split; [exact I2 |]]);
        rewrite I3, <- app_assoc; reflexivity.
Qed.

(** C4: a query for a service the device does not have fails with
    invalid-arguments.  For a known service the store is read between
    taking and releasing the service lock, variable by variable up to
    the first whose name is the one asked for: its value is the
    current value of the answer and the code is success.  When no
    variable has the name, the answer holds no value and the
    invalid-variable code.  The device itself is only read. *)
Theorem variable_query event w :
  (find_service (descriptor (priv w)) (sv_ServiceID event) = None ->
   handle_var_request event w =
   (-1, UpnpStateVarRequest_set_ErrCode event UPNP_SOAP_E_INVALID_ARGS, w)) /\
  (forall srv,
     find_service (descriptor (priv w)) (sv_ServiceID event) = Some srv ->
     exists event' w' reads,
       handle_var_request event w = (0, event', w') /\
       priv w' = priv w /\
       trace w' =
         trace w ++ [ithread_mutex_lock (service_mutex srv)]
                 ++ map (container_Get srv) reads
                 ++ [ithread_mutex_unlock (service_mutex srv);
                     var_request_log event (sv_CurrentVal event')] /\
       (forall i value,
          variable_container (service_at w srv) !! i
            = Some (sv_StateVarName event, value) ->
          (forall j nv, (j < i)%nat ->
             variable_container (service_at w srv) !! j = Some nv ->
             fst nv <> sv_StateVarName event) ->
          sv_CurrentVal event' = Some value /\
          sv_ErrCode event' = UPNP_E_SUCCESS /\
          reads = seq 0 (S i)) /\
       (Forall (fun nv => fst nv <> sv_StateVarName event)
               (variable_container (service_at w srv)) ->
        sv_CurrentVal event' = None /\
        sv_ErrCode event' = UPNP_SOAP_E_INVALID_VAR /\
        reads = seq 0 (length (variable_container (service_at w srv))))).
Proof.
  split.
  - intros Hs. unfold handle_var_request. now rewrite Hs.
  - intros srv Hs. unfold handle_var_request. rewrite Hs.
    rewrite service_at_emit. unfold variable_count.
    set (container := variable_container (service_at w srv)).
    set (w1 := emit (ithread_mutex_lock (service_mutex srv)) w).
    destruct (var_request_loop_spec srv (sv_StateVarName event) container [] w1)
      as (Hres & Hpriv & Htr).
    simpl in Hres, Hpriv, Htr.
    destruct (var_request_loop srv container (sv_StateVarName event)
                (seq 0 (length container)) w1) as [result w2].
    simpl in Hres, Hpriv, Htr.
    eexists. eexists.
    exists (seq 0 match list_find (fun nv => fst nv = sv_StateVarName event)
                          container with
                  | Some (i, _) => S i
                  | None => length container
                  end).
    split; [reflexivity|]. split; [exact Hpriv|]. split.
    { simpl. rewrite Htr, <- !app_assoc. reflexivity. }
    split.
    + intros i value Hi Hbefore.
      assert (Hf : list_find (fun nv => fst nv = sv_StateVarName event) container
                   = Some (i, (sv_StateVarName event, value))).
      { apply list_find_Some. split; [exact Hi|]. split; [reflexivity|].
        intros j y Hj Hlt. exact (Hbefore j y Hlt Hj). }
      rewrite Hf in Hres |- *. simpl in Hres. subst result. now repeat split.
    + intros Hnone.
      assert (Hf : list_find (fun nv => fst nv = sv_StateVarName event) container
                   = None) by (now apply list_find_None).
      rewrite Hf in Hres |- *. simpl in Hres. subst result. now repeat split.
Qed.

(** ** Subscription requests *)

Lemma A_ARG_TYPE_nul_free : nul_free "A_ARG_TYPE_".
Proof. vm_compute. repeat split; discriminate. Qed.

(** A subscription to a service the device does not have is refused
    and leaves the device as it was. *)
Lemma subscription_unknown_service sr_event w :
  find_service (descriptor (priv w)) (sr_ServiceId sr_event) = None ->
  fst (handle_subscription_request upnp repo sr_event w) = -1 /\
  priv (snd (handle_subscription_request upnp repo sr_event w)) = priv w /\
  trace (snd (handle_subscription_request upnp repo sr_event w)) =
    trace w
    ++ [Log_info "upnp" "Subscription request for %s (%s)"
          [arg_s (sr_ServiceId sr_event); arg_s (sr_UDN sr_event)];
        Log_error "upnp" "%s: Unknown service '%s'"
          [arg_s "handle_subscription_request"; arg_s (sr_ServiceId sr_event)]].
Proof.
  intros Hs. unfold handle_subscription_request. rewrite priv_emit, Hs.
  simpl. now rewrite <- app_assoc.
Qed.

(** The test the loop makes is the one [evented] states. *)
Lemma evented_test name :
  negb (String.eqb name "LastChange")
  && negb (strncmp "A_ARG_TYPE_" name (strlen "A_ARG_TYPE_") =? 0)
  = evented name.
Proof.
  unfold evented. f_equal. f_equal.
  change (strlen "A_ARG_TYPE_") with (String.length "A_ARG_TYPE_").
  pose proof (strncmp_prefix "A_ARG_TYPE_" name A_ARG_TYPE_nul_free) as H.
  destruct (Z.eqb_spec (strncmp "A_ARG_TYPE_" name (String.length "A_ARG_TYPE_")) 0)
    as [E|E]; destruct (String.prefix "A_ARG_TYPE_" name) eqn:P; try reflexivity.
  - apply H in E. congruence.
  - exfalso. apply E. now apply H.
Qed.

Lemma subscription_loop_spec srv l : forall pre builder w,
  fst (subscription_loop srv (pre ++ l) (seq (length pre) (length l)) builder w)
    = {| builder_ns := builder_ns builder;
         builder_entries := builder_entries builder ++ snapshot l |} /\
  priv (snd (subscription_loop srv (pre ++ l) (seq (length pre) (length l))
               builder w)) = priv w /\
  trace (snd (subscription_loop srv (pre ++ l) (seq (length pre) (length l))
                builder w)) =
    trace w ++ map (container_Get srv) (seq (length pre) (length l)).
Proof.
  induction l as [|[n v] l IH]; intros pre builder w.
  - simpl. rewrite !app_nil_r. now destruct builder.
  - cbn [length seq subscription_loop].
    rewrite VariableContainer_Get_middle, evented_test.
    set (builder' := if evented n then UPnPLastChangeBuilder_Add builder n v
                     else builder).
    specialize (IH (pre ++ [(n, v)]) builder'
                   (emit (container_Get srv (length pre)) w)).
    rewrite <- app_assoc, length_app, Nat.add_1_r in IH. simpl in IH.
    destruct IH as (I1 & I2 & I3).
    split; [|split; [exact I2 | rewrite I3, <- app_assoc; reflexivity]].
    rewrite I1. unfold snapshot. simpl. unfold builder'.
    destruct (evented n); simpl; [|reflexivity].
    now rewrite <- app_assoc.
Qed.

(** C3: a subscription to a known service reads the whole store under
    the device lock and the service lock and hands libupnp one evented
    variable, "LastChange", whose value is the escaped document built
    from the snapshot: every variable of the store, in order, except
    the one named "LastChange" and those whose name starts with
    "A_ARG_TYPE_".  The request succeeds exactly when libupnp accepts
    the subscription. *)
Theorem subscription_snapshot sr_event w srv :
  find_service (descriptor (priv w)) (sr_ServiceId sr_event) = Some srv ->
  let container := variable_container (service_at w srv) in
  let document :=
    LastChange_toXML repo
      {| builder_ns := event_xml_ns (service_at w srv);
         builder_entries := snapshot container |} in
  let rc :=
    UpnpAcceptSubscription upnp (device_handle (priv w)) (sr_UDN sr_event)
      (sr_ServiceId sr_event) ["LastChange"] [xmlescape repo document] 1
      (sr_SID sr_event) in
  exists result w',
    handle_subscription_request upnp repo sr_event w = (result, w') /\
    priv w' = priv w /\
    trace w' =
      trace w
      ++ [Log_info "upnp" "Subscription request for %s (%s)"
            [arg_s (sr_ServiceId sr_event); arg_s (sr_UDN sr_event)];
          ithread_mutex_lock device_mutex;
          ithread_mutex_lock (service_mutex srv)]
      ++ map (container_Get srv) (seq 0 (length container))
      ++ [ithread_mutex_unlock (service_mutex srv);
          Log_info "upnp" "Initial variable sync: %s" [arg_s document];
          call_UpnpAcceptSubscription (device_handle (priv w))
            (sr_UDN sr_event) (sr_ServiceId sr_event) ["LastChange"]
            [xmlescape repo document] 1 (sr_SID sr_event)]
      ++ (if rc =? UPNP_E_SUCCESS then []
          else [Log_error "upnp" "Accept Subscription Error: %s (%d)"
                  [arg_s (UpnpGetErrorMessage upnp rc); arg_d rc]])
      ++ [ithread_mutex_unlock device_mutex] /\
    (result = 0 <-> rc = UPNP_E_SUCCESS) /\
    (forall name value,
       In (name, value) (snapshot container) <->
       In (name, value) container /\ name <> "LastChange" /\
       String.prefix "A_ARG_TYPE_" name = false) /\
    snapshot [("Volume", "10"); ("Mute", "false"); ("LastChange", "");
              ("A_ARG_TYPE_Channel", "Master")]
    = [("Volume", "10"); ("Mute", "false")].
Proof.
  intros Hs container document rc.
  unfold handle_subscription_request. rewrite priv_emit, Hs.
  rewrite !service_at_emit. unfold variable_count. fold container.
  set (w1 := emit (ithread_mutex_lock (service_mutex srv)) _).
  destruct (subscription_loop_spec srv container []
              (UPnPLastChangeBuilder_new (event_xml_ns (service_at w srv))) w1)
    as (Hb & Hpriv & Htr).
  simpl in Hb, Hpriv, Htr.
  destruct (subscription_loop srv container (seq 0 (length container)) _ w1)
    as [builder w2].
  simpl in Hb, Hpriv, Htr. subst builder. fold document.
  rewrite !priv_emit, Hpriv. fold rc.
  destruct (Z.eqb_spec rc UPNP_E_SUCCESS) as [E|E].
  - exists 0. eexists. split; [reflexivity|]. split; [exact Hpriv|].
    split; [|split; [|split]].
    + simpl. rewrite Htr, <- !app_assoc. reflexivity.
    + tauto.
    + intros name value. unfold snapshot. rewrite filter_In. unfold evented.
      simpl. rewrite andb_true_iff, !negb_true_iff.
      destruct (String.eqb_spec name "LastChange"); intuition congruence.
    + reflexivity.
  - exists (-1). eexists. split; [reflexivity|]. split; [exact Hpriv|].
    split; [|split; [|split]].
    + simpl. rewrite Htr, <- !app_assoc. reflexivity.
    + split; [discriminate | contradiction].
    + intros name value. unfold snapshot. rewrite filter_In. unfold evented.
      simpl. rewrite andb_true_iff, !negb_true_iff.
      destruct (String.eqb_spec name "LastChange"); intuition congruence.
    + reflexivity.
Qed.

End Queries.

Section Startup.

Context (upnp : libupnp) (repo : collaborators).

(** ** Binding to the network *)

(** The retry loop with [n] retries left makes at most [n] more
    attempts, each after a sleep of 1000 ms, and touches nothing but
    the trace; it comes back with a failure only after all [n]. *)
Lemma bind_retry_loop_spec interface_name port n : forall rc w,
  exists retries,
    (retries <= n)%nat /\
    timing (trace (snd (bind_retry_loop upnp n rc interface_name port w))) =
      timing (trace w)
      ++ concat (repeat [call_usleep 1000000;
                         call_UpnpInit2 interface_name port] retries) /\
    bind_attempts (trace (snd (bind_retry_loop upnp n rc interface_name port w)))
      = (bind_attempts (trace w) + retries)%nat /\
    List.filter is_registration
      (trace (snd (bind_retry_loop upnp n rc interface_name port w)))
      = List.filter is_registration (trace w) /\
    priv (snd (bind_retry_loop upnp n rc interface_name port w)) = priv w /\
    (fst (bind_retry_loop upnp n rc interface_name port w) <> UPNP_E_SUCCESS ->
     retries = n) /\
    ((forall history,
        UpnpInit2 upnp history interface_name port <> UPNP_E_SUCCESS) ->
     rc <> UPNP_E_SUCCESS ->
     fst (bind_retry_loop upnp n rc interface_name port w) <> UPNP_E_SUCCESS).
Proof.
  induction n as [|n IH]; intros rc w.
  - exists 0%nat. simpl.
    destruct (Z.eqb_spec rc UPNP_E_SUCCESS) as [E|E]; simpl;
      rewrite app_nil_r, Nat.add_0_r; repeat split; auto.
  - cbn [bind_retry_loop].
    destruct (Z.eqb_spec rc UPNP_E_SUCCESS) as [E|E]; cbn [negb].
    + exists 0%nat. simpl. rewrite app_nil_r, Nat.add_0_r.
      repeat split; auto; [lia | intros H; contradiction].
    + unfold do_UpnpInit2.
      set (w3 := emit (call_UpnpInit2 interface_name port) _).
      set (rc' := UpnpInit2 upnp _ interface_name port).
      destruct (IH rc' w3) as (k & Hk & Ht & Hb & Hr & Hp & Hfail & Hall).
      exists (S k). split; [lia|].
      split; [rewrite Ht; unfold w3, timing; simpl;
              rewrite !List.filter_app; simpl;
              rewrite !app_nil_r, <- !app_assoc; reflexivity|].
      split; [rewrite Hb; unfold w3, bind_attempts; simpl;
              rewrite !List.filter_app, !length_app; simpl; lia|].
      split; [rewrite Hr; unfold w3; simpl;
              rewrite !List.filter_app; simpl; now rewrite !app_nil_r|].
      split; [rewrite Hp; reflexivity|].
      split; [intros H; f_equal; now apply Hfail|].
      intros Hdown _. apply Hall; [exact Hdown | apply Hdown].
Qed.

(** What follows a bind attempt in [initialize_device] neither binds
    nor sleeps. *)
Lemma timing_snoc tr e :
  is_bind_attempt e || is_sleep e = false -> timing (tr ++ [e]) = timing tr.
Proof.
  intros H. unfold timing. rewrite List.filter_app. simpl. rewrite H.
  apply app_nil_r.
Qed.

Lemma bind_attempts_snoc tr e :
  is_bind_attempt e = false -> bind_attempts (tr ++ [e]) = bind_attempts tr.
Proof.
  intros H. unfold bind_attempts. rewrite List.filter_app. simpl. rewrite H.
  now rewrite app_nil_r.
Qed.

(** ** What libupnp answered to the attempts *)

Lemma attempt_results_app t1 : forall before t2,
  attempt_results upnp before (t1 ++ t2) =
  attempt_results upnp before t1 ++ attempt_results upnp (before ++ t1) t2.
Proof.
  induction t1 as [|e t1 IH]; intros before t2.
  - cbn. now rewrite app_nil_r.
  - cbn [app attempt_results]. rewrite IH, <- !app_assoc. reflexivity.
Qed.

Lemma attempt_results_length tr : forall before,
  length (attempt_results upnp before tr) = bind_attempts tr.
Proof.
  induction tr as [|e tr IH]; intros before; [reflexivity|].
  cbn [attempt_results]. rewrite length_app, IH.
  unfold bind_attempts. cbn [List.filter]. now destruct e.
Qed.

Lemma attempt_results_quiet tr : forall before,
  Forall (fun e => is_bind_attempt e = false) tr ->
  attempt_results upnp before tr = [].
Proof.
  induction tr as [|e tr IH]; intros before H; [reflexivity|].
  inversion H as [|? ? He Ht]; subst. cbn [attempt_results].
  rewrite (IH _ Ht). now destruct e.
Qed.

Lemma bind_results_ext w w' ext :
  trace w' = trace w ++ ext ->
  bind_results upnp w w' = attempt_results upnp (trace w) ext.
Proof. intros H. unfold bind_results. now rewrite H, drop_app_length. Qed.

(** What the retry loop comes back with is the code it was entered
    with, when it made no attempt, and else an answer libupnp gave to
    one of its attempts. *)
Lemma bind_retry_loop_results interface_name port n : forall rc w,
  exists ext,
    trace (snd (bind_retry_loop upnp n rc interface_name port w))
      = trace w ++ ext /\
    (fst (bind_retry_loop upnp n rc interface_name port w) = rc /\ ext = [] \/
     In (fst (bind_retry_loop upnp n rc interface_name port w))
        (attempt_results upnp (trace w) ext)).
Proof.
  induction n as [|n IH]; intros rc w.
  - exists []. cbn. destruct (negb (rc =? UPNP_E_SUCCESS)); cbn;
      rewrite app_nil_r; auto.
  - cbn [bind_retry_loop]. destruct (negb (rc =? UPNP_E_SUCCESS)).
    + unfold do_UpnpInit2.
      set (w2 := emit (Log_error _ _ _) (emit (call_usleep _) w)).
      destruct (IH (UpnpInit2 upnp (trace w2) interface_name port)
                   (emit (call_UpnpInit2 interface_name port) w2))
        as (ext & Ht & Hin).
      eexists. split.
      * rewrite Ht. unfold w2. cbn [trace emit]. rewrite <- !app_assoc.
        reflexivity.
      * right. rewrite !attempt_results_app. cbn [attempt_results].
        rewrite !app_nil_r. cbn [app In].
        destruct Hin as [[-> _]|Hin].
        -- left. unfold w2. cbn [trace emit]. reflexivity.
        -- right. unfold w2 in Hin. cbn [trace emit] in Hin. exact Hin.
    + exists []. cbn. rewrite app_nil_r. auto.
Qed.

(** C7, as the code has it: [initialize_device] calls [UpnpInit2] once
    and then retries up to 60 times, 61 attempts at most, sleeping
    1000 ms before each retry and at no other time.  When every
    attempt it made has failed, all 61 were made, the failure is
    logged and [initialize_device] returns FALSE without registering
    a device or touching the device structure. *)
Theorem bind_attempts_bounded device_def interface_name port w :
  exists retries,
    (retries <= 60)%nat /\
    timing (trace (snd (initialize_device upnp repo device_def
                          interface_name port w)))
      = timing (trace w) ++ bind_schedule interface_name port retries /\
    bind_attempts (trace (snd (initialize_device upnp repo device_def
                                 interface_name port w)))
      = (bind_attempts (trace w) + S retries)%nat /\
    length (bind_results upnp w
              (snd (initialize_device upnp repo device_def
                      interface_name port w)))
      = S retries /\
    (Forall (fun rc => rc <> UPNP_E_SUCCESS)
       (bind_results upnp w
          (snd (initialize_device upnp repo device_def
                  interface_name port w))) ->
     retries = 60%nat /\
     fst (initialize_device upnp repo device_def interface_name port w)
       = false /\
     priv (snd (initialize_device upnp repo device_def interface_name port w))
       = priv w /\
     List.filter is_registration
       (trace (snd (initialize_device upnp repo device_def
                      interface_name port w)))
       = List.filter is_registration (trace w) /\
     exists rc,
       rc <> UPNP_E_SUCCESS /\
       last (trace (snd (initialize_device upnp repo device_def
                           interface_name port w)))
         = Some (giving_up_log upnp interface_name port rc)).
Proof.
  unfold initialize_device, do_UpnpInit2.
  set (w1 := emit (call_UpnpInit2 interface_name port) w).
  set (rc0 := UpnpInit2 upnp (trace w) interface_name port).
  destruct (bind_retry_loop_spec interface_name port 60 rc0 w1)
    as (k & Hk & Ht & Hb & Hr & Hp & Hfail & _).
  destruct (bind_retry_loop_results interface_name port 60 rc0 w1)
    as (ext & Hext & Hin).
  destruct (bind_retry_loop upnp 60 rc0 interface_name port w1) as [rc w2].
  cbn [fst snd] in Ht, Hb, Hr, Hp, Hfail, Hext, Hin.
  assert (Ht1 : timing (trace w2)
                = timing (trace w) ++ bind_schedule interface_name port k).
  { rewrite Ht. unfold w1, timing, bind_schedule. simpl.
    rewrite List.filter_app. simpl. now rewrite <- app_assoc. }
  assert (Hb1 : bind_attempts (trace w2) = (bind_attempts (trace w) + S k)%nat).
  { rewrite Hb. unfold w1, bind_attempts. simpl.
    rewrite List.filter_app, length_app. simpl. lia. }
  assert (Hres : forall w' tail,
            trace w' = trace w2 ++ tail ->
            Forall (fun e => is_bind_attempt e = false) tail ->
            length (bind_results upnp w w') = S k /\
            In rc (bind_results upnp w w')).
  { intros w' tail Hw' Hq.
    assert (E : trace w' = trace w ++ call_UpnpInit2 interface_name port
                                     :: ext ++ tail).
    { rewrite Hw', Hext. unfold w1. cbn [trace emit].
      now rewrite <- !app_assoc. }
    rewrite (bind_results_ext _ _ _ E).
    change (call_UpnpInit2 interface_name port :: ext ++ tail)
      with ([call_UpnpInit2 interface_name port] ++ ext ++ tail).
    rewrite !attempt_results_app, (attempt_results_quiet _ _ Hq), app_nil_r.
    cbn [attempt_results app]. fold rc0.
    change (trace w ++ [call_UpnpInit2 interface_name port])
      with (trace w1). split.
    - cbn [length]. f_equal. rewrite attempt_results_length.
      rewrite Hext in Hb. unfold bind_attempts in *.
      rewrite List.filter_app, length_app in Hb. lia.
    - destruct Hin as [[-> _]|Hin]; [now left | now right]. }
  exists k. split; [exact Hk|].
  destruct (Z.eqb_spec UPNP_E_SUCCESS rc) as [E|E]; cbn [negb].
  - (* bound: the rest of the start-up neither binds nor sleeps *)
    assert (Hok : rc = UPNP_E_SUCCESS) by congruence.
    split; [|split].
    + destruct (UpnpRegisterRootDevice2 upnp _ _) as [rc4 handle].
      repeat match goal with
             | |- context [if ?b then _ else _] => destruct b
             end; simpl;
        repeat (rewrite timing_snoc by reflexivity); exact Ht1.
    + destruct (UpnpRegisterRootDevice2 upnp _ _) as [rc4 handle].
      repeat match goal with
             | |- context [if ?b then _ else _] => destruct b
             end; simpl;
        repeat (rewrite bind_attempts_snoc by reflexivity); exact Hb1.
    + match goal with
      | |- length (bind_results upnp w (snd ?r)) = _ /\ _ =>
          assert (Htail : exists tail,
                    trace (snd r) = trace w2 ++ tail /\
                    Forall (fun e => is_bind_attempt e = false) tail);
            [|destruct Htail as (tail & Htr & Hq);
              destruct (Hres (snd r) tail Htr Hq) as [Hlen Hmem]]
      end.
      { destruct (UpnpRegisterRootDevice2 upnp _ _) as [rc4 handle].
        repeat match goal with
               | |- context [if ?b then _ else _] => destruct b
               end;
          cbn [snd trace emit set_device_handle];
          rewrite <- ?app_assoc;
          (eexists; split; [reflexivity | repeat constructor]). }
      split; [exact Hlen|].
      intros Hall. exfalso. rewrite List.Forall_forall in Hall.
      now apply (Hall rc Hmem).
  - cbn [fst snd trace emit priv]. rewrite timing_snoc by reflexivity.
    rewrite bind_attempts_snoc by reflexivity.
    split; [exact Ht1|]. split; [exact Hb1|].
    destruct (Hres (emit (giving_up_log upnp interface_name port rc) w2)
                [giving_up_log upnp interface_name port rc] eq_refl)
      as [Hlen _]; [now repeat constructor|].
    split; [exact Hlen|].
    intros _. split; [apply Hfail; congruence|].
    split; [reflexivity|]. split; [exact Hp|].
    split.
    + rewrite List.filter_app. simpl. rewrite app_nil_r, Hr.
      unfold w1. simpl. rewrite List.filter_app. simpl. apply app_nil_r.
    + exists rc. split; [congruence|]. apply last_snoc.
Qed.

End Startup.

Section Descriptor.

Context (repo : collaborators).

(** ** The device descriptor *)

Lemma fold_AddElement {A} (g : A -> XMLElement) l : forall n ns v c,
  fold_left (fun parent x => AddElement parent (g x)) l (xml_element n ns v c)
  = xml_element n ns v (c ++ map g l).
Proof.
  induction l as [|x l IH]; intros n ns v c; simpl.
  - now rewrite app_nil_r.
  - now rewrite IH, <- app_assoc.
Qed.

Lemma desc_service_input s1 s2 :
  service_desc_input s1 = service_desc_input s2 ->
  desc_service s1 = desc_service s2.
Proof.
  unfold service_desc_input, desc_service. intros [= -> -> -> -> ->].
  reflexivity.
Qed.

Lemma map_desc_service l1 : forall l2,
  map service_desc_input l1 = map service_desc_input l2 ->
  map desc_service l1 = map desc_service l2.
Proof.
  induction l1 as [|s1 l1 IH]; intros [|s2 l2]; simpl; try discriminate.
  - reflexivity.
  - intros [= H1 H2 H3 H4 H5 Hl]. f_equal; [|now apply IH].
    apply desc_service_input. unfold service_desc_input. congruence.
Qed.

(** The document, written out. *)
Lemma device_desc_doc_eq d :
  device_desc_doc d =
  xml_element "root" (Some "urn:schemas-upnp-org:device-1-0") None
    [ xml_element "specVersion" None None
        [int_element "major" 1; int_element "minor" 0];
      xml_element "device" None None
        ([ text_element "deviceType" (device_type d);
           text_element "presentationURL" (presentation_url d);
           text_element "friendlyName" (friendly_name d);
           text_element "manufacturer" (manufacturer d);
           text_element "manufacturerURL" (manufacturer_url d);
           text_element "modelDescription" (model_description d);
           text_element "modelName" (model_name d);
           text_element "modelNumber" (model_number d);
           text_element "modelURL" (model_url d);
           text_element "UDN" (udn d) ]
         ++ match icons d with
            | None => []
            | Some l => [xml_element "iconList" None None (map desc_icon l)]
            end
         ++ [xml_element "serviceList" None None
               (map desc_service (services d))]) ].
Proof.
  unfold device_desc_doc, desc_device, add_desc_servicelist, add_desc_iconlist,
    add_specversion.
  destruct (icons d) as [l|]; simpl; unfold XMLElement_new;
    rewrite ?fold_AddElement; reflexivity.
Qed.

(** C9: the descriptor is a function of what the generator reads of
    the device (the identity strings, the icons, and of each service
    its type, id and three URLs): two devices that agree on these get
    the same text, whatever their variables, handlers and collectors
    hold.  The document has the root element with the version 1.0
    first and the device second, and in the device the type, the
    presentation URL, the friendly name, the manufacturer and its URL,
    the model description, name, number and URL, the UDN, the icon
    list when there are icons, and the service list, in this order;
    an icon lists mimetype, width, height, depth and url, a service
    its type, id, SCPD, control and event URLs. *)
Theorem device_desc_deterministic :
  (forall d1 d2,
     desc_input d1 = desc_input d2 ->
     upnp_create_device_desc repo d1 = upnp_create_device_desc repo d2) /\
  (forall d,
     upnp_create_device_desc repo d =
     XMLDoc_ToXMLString repo
       (xml_element "root" (Some "urn:schemas-upnp-org:device-1-0") None
          [ xml_element "specVersion" None None
              [int_element "major" 1; int_element "minor" 0];
            xml_element "device" None None
              ([ text_element "deviceType" (device_type d);
                 text_element "presentationURL" (presentation_url d);
                 text_element "friendlyName" (friendly_name d);
                 text_element "manufacturer" (manufacturer d);
                 text_element "manufacturerURL" (manufacturer_url d);
                 text_element "modelDescription" (model_description d);
                 text_element "modelName" (model_name d);
                 text_element "modelNumber" (model_number d);
                 text_element "modelURL" (model_url d);
                 text_element "UDN" (udn d) ]
               ++ match icons d with
                  | None => []
                  | Some l =>
                      [xml_element "iconList" None None (map desc_icon l)]
                  end
               ++ [xml_element "serviceList" None None
                     (map desc_service (services d))]) ])) /\
  (forall i,
     desc_icon i =
     xml_element "icon" None None
       [ text_element "mimetype" (mimetype i); int_element "width" (width i);
         int_element "height" (height i); int_element "depth" (depth i);
         text_element "url" (url i) ]) /\
  (forall s,
     desc_service s =
     xml_element "service" None None
       [ text_element "serviceType" (service_type s);
         text_element "serviceId" (service_id s);
         text_element "SCPDURL" (scpd_url s);
         text_element "controlURL" (control_url s);
         text_element "eventSubURL" (event_url s) ]).
Proof.
  split; [|split; [|split]].
  - intros d1 d2 H. unfold upnp_create_device_desc.
    rewrite !device_desc_doc_eq. unfold desc_input in H.
    injection H as H1 H2 H3 H4 H5 H6 H7 H8 H9 H10 H11 H12.
    rewrite H1, H2, H3, H4, H5, H6, H7, H8, H9, H10, H11.
    now rewrite (map_desc_service _ _ H12).
  - intros d. unfold upnp_create_device_desc. now rewrite device_desc_doc_eq.
  - reflexivity.
  - reflexivity.
Qed.

End Descriptor.

(** * The theorems on the renderer of [Reference] *)

Module Examples.

Import Reference.

(** C1, on the renderer: the handler of "SelectPreset" adds an
    argument to the response, calls [upnp_set_error] with the code 718
    and returns -1.  The response it had begun is dropped and its
    message is kept, as the claim says, but the request ends with the
    action-failed code 501: [upnp_set_error] takes the code of the
    handler and stores a constant, so that the code reaches the log
    only.  [upnp_get_string] passes the invalid-arguments code 402
    the same way, and it is lost the same way. *)
Lemma handler_error_code_dropped :
  (exists ar' w',
     handle_action_request upnp_ok repo select_preset_request w0
       = Some (0, ar', w') /\
     last_set_error (trace w') = Some ("Invalid InstanceID", 718) /\
     ar_ErrStr ar' = "Invalid InstanceID" /\
     ar_ActionResult ar' = Some (response_root "SelectPreset") /\
     ar_ErrCode ar' = UPNP_SOAP_E_ACTION_FAILED /\
     ar_ErrCode ar' <> 718) /\
  fst (fst (upnp_get_string (fresh_event get_mute_request 1) "Channel" w0))
    = None /\
  last_set_error
    (trace (snd (upnp_get_string (fresh_event get_mute_request 1) "Channel"
                   w0)))
    = Some ("Missing action request argument (Channel)",
            UPNP_SOAP_E_INVALID_ARGS) /\
  ar_ErrCode
    (ev_request
       (snd (fst (upnp_get_string (fresh_event get_mute_request 1) "Channel"
                    w0))))
    = UPNP_SOAP_E_ACTION_FAILED.
Proof.
  split.
  - eexists. eexists. split; [vm_compute; reflexivity|].
    split; [vm_compute; reflexivity|]. split; [reflexivity|].
    split; [reflexivity|]. split; [reflexivity | discriminate].
  - split; [vm_compute; reflexivity|]. split; vm_compute; reflexivity.
Qed.

Lemma handler_error_response_witness :
  exists ar' w',
    handle_action_request upnp_ok repo select_preset_request w0
      = Some (0, ar', w') /\
    ar_ErrCode ar' = UPNP_SOAP_E_ACTION_FAILED /\
    (exists error_code,
       last_set_error
         (trace (snd (handler_run upnp_ok repo select_preset_request w0 1
                        {| action_name := "SelectPreset";
                           callback := Some failing |} failing)))
       = Some (ar_ErrStr ar', error_code)) /\
    ar_ActionResult
      (ev_request (snd (fst (handler_run upnp_ok repo select_preset_request w0 1
                               {| action_name := "SelectPreset";
                                  callback := Some failing |} failing))))
      = None /\
    ar_ActionResult ar' =
      UpnpMakeActionResponse upnp_ok (ar_ActionName select_preset_request)
        (service_type (service_at w0 1)).
Proof.
  apply (handler_error_response upnp_ok repo select_preset_request w0 1
           {| action_name := "SelectPreset"; callback := Some failing |}
           failing (-1)).
  - vm_compute. reflexivity.
  - vm_compute. reflexivity.
  - reflexivity.
  - vm_compute. reflexivity.
  - vm_compute. discriminate.
Defined.

(** A request for a service the renderer does not have gets the code
    a request for an action it does not have gets. *)
Lemma unknown_service_shares_fault_code :
  find_service (descriptor (priv w0)) (ar_ServiceID play_request) = None /\
  find_service (descriptor (priv w0)) (ar_ServiceID seek_request) = Some 1%nat /\
  error_code_of (handle_action_request upnp_ok repo play_request w0)
    = Some UPNP_SOAP_E_INVALID_ACTION /\
  error_code_of (handle_action_request upnp_ok repo play_request w0)
    = error_code_of (handle_action_request upnp_ok repo seek_request w0).
Proof. repeat split; vm_compute; reflexivity. Qed.

Lemma unknown_service_action_witness :
  exists ar' w',
    handle_action_request upnp_ok repo play_request w0 = Some (-1, ar', w') /\
    ar_ErrCode ar' = UPNP_SOAP_E_INVALID_ACTION /\
    priv w' = priv w0.
Proof.
  destruct (unknown_service_action upnp_ok repo play_request w0)
    as (ar' & w' & H1 & H2 & _ & H4 & _).
  - repeat constructor; vm_compute; discriminate.
  - exists ar', w'. repeat split; assumption.
Defined.

Lemma subscription_snapshot_witness :
  exists result w',
    handle_subscription_request upnp_ok repo subscription w0 = (result, w') /\
    priv w' = priv w0 /\
    In (call_UpnpAcceptSubscription 1 (sr_UDN subscription)
          (sr_ServiceId subscription) ["LastChange"]
          [xmlescape repo
             (LastChange_toXML repo
                {| builder_ns := event_xml_ns control;
                   builder_entries := [("Volume", "10"); ("Mute", "false")] |})]
          1 (sr_SID subscription))
       (trace w').
Proof.
  destruct (subscription_snapshot upnp_ok repo subscription w0 1)
    as (result & w' & H1 & H2 & H3 & _).
  - vm_compute. reflexivity.
  - exists result, w'. split; [exact H1|]. split; [exact H2|].
    rewrite H3. rewrite !in_app_iff. right. right. right. left.
    simpl. right. right. left. reflexivity.
Defined.

Lemma variable_query_witness :
  exists event' w',
    handle_var_request mute_query w0 = (0, event', w') /\
    sv_CurrentVal event' = Some "false" /\
    sv_ErrCode event' = UPNP_E_SUCCESS.
Proof.
  destruct (proj2 (variable_query mute_query w0) 1%nat)
    as (event' & w' & reads & H1 & _ & _ & H4 & _).
  - vm_compute. reflexivity.
  - destruct (H4 1%nat "false") as (H5 & H6 & _).
    + reflexivity.
    + intros [|j] nv Hj Hnv; [|lia]. vm_compute in Hnv.
      injection Hnv as <-. discriminate.
    + exists event', w'. repeat split; assumption.
Defined.

Lemma get_volume_window_free : window_free get_volume.
Proof. intros [r|]; simpl; [intros st|]; exact I. Qed.

Lemma action_window_witness :
  exists ar' w',
    handle_action_request upnp_ok repo get_volume_request w0
      = Some (0, ar', w') /\
    collector_depth w' 1 = collector_depth w0 1.
Proof.
  destruct (action_window upnp_ok repo get_volume_request w0 1
              {| action_name := "GetVolume"; callback := Some get_volume |}
              {| nesting_depth := 0; pending := [] |})
    as (ar' & w' & w_in & w_out & inside & closing
        & H & _ & _ & _ & _ & _ & _ & _ & _ & Hd).
  - vm_compute. reflexivity.
  - vm_compute. reflexivity.
  - reflexivity.
  - exists ar', w'. split; [exact H|]. apply Hd. exact get_volume_window_free.
Defined.

(** C5 as stated fails for a handler that opens a window of its own
    and does not close it: the dispatcher calls [Start] once before
    the handler and [Finish] once after, and the depth ends one above
    where it was. *)
Lemma unbalanced_handler_changes_depth :
  exists ar' w',
    handle_action_request upnp_ok repo set_mute_request nesting_w0
      = Some (0, ar', w') /\
    trace w' =
      [ ithread_mutex_lock (service_mutex 1); LastChange_Start 1;
        ithread_mutex_unlock (service_mutex 1);
        callback_enter "SetMute"; LastChange_Start 1; callback_return 0;
        ithread_mutex_lock (service_mutex 1); LastChange_Finish 1;
        ithread_mutex_unlock (service_mutex 1) ] /\
    collector_depth nesting_w0 1 = 0%nat /\
    collector_depth w' 1 = 1%nat /\
    collector_depth w' 1 <> collector_depth nesting_w0 1.
Proof.
  eexists. eexists. split; [vm_compute; reflexivity|].
  split; [reflexivity|]. split; [reflexivity|].
  split; [reflexivity | discriminate].
Qed.

Lemma unknown_action_fault_witness :
  exists ar' w',
    handle_action_request upnp_ok repo seek_request w0 = Some (-1, ar', w') /\
    ar_ErrCode ar' = UPNP_SOAP_E_INVALID_ACTION /\
    collector_depth w' 1 = collector_depth w0 1.
Proof.
  destruct (unknown_action_fault upnp_ok repo seek_request w0 1)
    as (ar' & w' & H1 & H2 & _ & _ & H5 & _).
  - vm_compute. reflexivity.
  - repeat constructor; vm_compute; discriminate.
  - exists ar', w'. repeat split; assumption.
Defined.

(** With the network down the bind is tried 61 times, and a network
    that comes up after 60 failed attempts is still bound. *)
Lemma sixty_first_bind_attempt :
  bind_attempts
    (trace (snd (initialize_device upnp_down repo render_device "eth0" 49494 w0)))
    = 61%nat /\
  ~ (bind_attempts
       (trace (snd (initialize_device upnp_down repo render_device "eth0"
                      49494 w0))) <= 60)%nat /\
  fst (initialize_device (upnp_up_after 60) repo render_device "eth0" 49494 w0)
    = true.
Proof.
  assert (E : bind_attempts
                (trace (snd (initialize_device upnp_down repo render_device
                               "eth0" 49494 w0))) = 61%nat)
    by (vm_compute; reflexivity).
  split; [exact E|]. split; [rewrite E; lia | vm_compute; reflexivity].
Qed.

Lemma bind_attempts_bounded_witness :
  exists retries,
    retries = 60%nat /\
    fst (initialize_device (upnp_up_after 61) repo render_device "eth0" 49494
           w0)
      = false.
Proof.
  destruct (bind_attempts_bounded (upnp_up_after 61) repo render_device "eth0"
              49494 w0)
    as (retries & _ & _ & _ & _ & H).
  destruct H as (H1 & H2 & _).
  - assert (Hb : forallb (fun rc => negb (rc =? UPNP_E_SUCCESS))
                   (bind_results (upnp_up_after 61) w0
                      (snd (initialize_device (upnp_up_after 61) repo
                              render_device "eth0" 49494 w0)))
                 = true) by (vm_compute; reflexivity).
    rewrite forallb_forall in Hb. apply List.Forall_forall.
    intros rc Hin. specialize (Hb rc Hin).
    apply negb_true_iff in Hb. apply Z.eqb_neq. exact Hb.
  - exists retries. split; [exact H1 | exact H2].
Defined.

(** C8, on the renderer: the action "ListPresets" is registered
    without a handler.  The dispatcher logs the request in full and
    sets the success code, and the request ends without any action
    result: the empty response the handler branch would have made is
    not made here. *)
Lemma no_handler_leaves_no_response :
  find_action w0 (find_service (descriptor (priv w0))
                    (ar_ServiceID list_presets_request))
    (ar_ActionName list_presets_request)
    = Some {| action_name := "ListPresets"; callback := None |} /\
  exists ar' w',
    handle_action_request upnp_ok repo list_presets_request w0
      = Some (0, ar', w') /\
    In (no_handler_log list_presets_request) (trace w') /\
    ar_ErrCode ar' = UPNP_E_SUCCESS /\
    ar_ActionResult ar' = None /\
    UpnpMakeActionResponse upnp_ok (ar_ActionName list_presets_request)
      (service_type (service_at w0 1)) <> None.
Proof.
  split; [vm_compute; reflexivity|].
  eexists. eexists. split; [vm_compute; reflexivity|].
  split; [simpl; tauto|]. repeat split. discriminate.
Qed.

Lemma device_desc_deterministic_witness :
  upnp_create_device_desc repo louder_device
  = upnp_create_device_desc repo render_device.
Proof.
  apply (proj1 (device_desc_deterministic repo)). reflexivity.
Defined.

(** Out of memory while the first argument of a response is added:
    the request of the fresh event ends with code 501 and libupnp's
    text. *)
Lemma out_of_memory_is_action_failed :
  upnp_add_response upnp_full (fresh_event get_volume_request 1)
    "CurrentVolume" "10" w0
  = (-1,
     fresh_event
       (UpnpActionRequest_set_ErrStr
          (UpnpActionRequest_set_ErrCode get_volume_request
             UPNP_SOAP_E_ACTION_FAILED)
          "UPNP_E_OUTOF_MEMORY") 1).
Proof. vm_compute. reflexivity. Qed.

Lemma upnp_add_response_after_error_witness :
  upnp_add_response upnp_ok failed_event "CurrentVolume" "10" w0
  = (-1, failed_event).
Proof.
  apply (upnp_add_response_after_error upnp_ok failed_event). discriminate.
Defined.

End Examples.

(** * More on the helpers handed to handlers *)

Section Helpers.

Context (upnp : libupnp) (repo : collaborators).

(** ** What [upnp_add_response] returns and leaves *)

(** X1: [upnp_add_response] returns 0 exactly when the event records
    no error and libupnp added the argument, and -1 otherwise.  It
    never changes the status of the event.  When it returns 0 the
    action result is the document libupnp made from the one the
    request held, and the error code and string are untouched.  When
    libupnp fails, the result is cleared and the request gets the
    action-failed code with libupnp's description of the failure: as
    the status stays 0, such a failure does not make later calls
    no-ops. *)
Theorem upnp_add_response_outcome event key value w :
  let engine :=
    UpnpAddToActionResponse upnp (ar_ActionResult (ev_request event))
      (ar_ActionName (ev_request event))
      (service_type (service_at w (ev_service event))) key value in
  let r := upnp_add_response upnp event key value w in
  (fst r = 0 \/ fst r = -1) /\
  (fst r = 0 <-> ev_status event = 0 /\ fst engine = UPNP_E_SUCCESS) /\
  ev_status (snd r) = ev_status event /\
  ev_service (snd r) = ev_service event /\
  (fst r = 0 ->
   ar_ActionResult (ev_request (snd r)) = snd engine /\
   ar_ErrCode (ev_request (snd r)) = ar_ErrCode (ev_request event) /\
   ar_ErrStr (ev_request (snd r)) = ar_ErrStr (ev_request event)) /\
  (ev_status event = 0 -> fst engine <> UPNP_E_SUCCESS ->
   ar_ActionResult (ev_request (snd r)) = None /\
   ar_ErrCode (ev_request (snd r)) = UPNP_SOAP_E_ACTION_FAILED /\
   ar_ErrStr (ev_request (snd r)) = UpnpGetErrorMessage upnp (fst engine)).
Proof.
  cbv zeta. unfold upnp_add_response.
  destruct (Z.eqb_spec (ev_status event) 0) as [Hst|Hst]; simpl.
  - destruct (UpnpAddToActionResponse _ _ _ _ _ _) as [rc doc]. simpl.
    destruct (Z.eqb_spec rc UPNP_E_SUCCESS) as [Hrc|Hrc]; simpl.
    + split; [now left|]. split; [tauto|]. split; [reflexivity|].
      split; [reflexivity|]. split; [now repeat split|].
      intros _ H. contradiction.
    + split; [now right|]. split; [split; [discriminate | tauto]|].
      split; [reflexivity|]. split; [reflexivity|].
      split; [discriminate|]. intros _ _. now repeat split.
  - split; [now right|]. split; [split; [discriminate | tauto]|].
    split; [reflexivity|]. split; [reflexivity|].
    split; [discriminate|]. intros H. contradiction.
Qed.

(** ** Errors across calls *)

Lemma upnp_set_error_failed event error_code formatted w :
  failed (fst (upnp_set_error event error_code formatted w)).
Proof. unfold upnp_set_error, failed. simpl. repeat split. discriminate. Qed.

Lemma upnp_add_response_failed event key value w :
  failed event -> snd (upnp_add_response upnp event key value w) = event.
Proof.
  intros (Hst & _). unfold upnp_add_response.
  now rewrite (proj2 (Z.eqb_neq _ _) Hst).
Qed.

Lemma upnp_get_string_failed event key w :
  failed event -> failed (snd (fst (upnp_get_string event key w))).
Proof.
  intros H. unfold upnp_get_string.
  destruct (ar_ActionRequest (ev_request event)) as [node|];
    [destruct (ixmlNode_getFirstChild node) as [node'|];
     [destruct (get_string_loop _ key)|]|]; try exact H;
    match goal with
    | |- context [upnp_set_error ?e ?c ?f ?w0] =>
        pose proof (upnp_set_error_failed e c f w0) as H1;
        destruct (upnp_set_error e c f w0); exact H1
    end.
Qed.

(** X2: once a handler has called [upnp_set_error], nothing it does
    afterwards through the helpers brings the response back: whatever
    calls follow, the event still records an error at the end, the
    request holds no action result and its code is the action-failed
    code.  (Only the error string may move, to the message of a later
    call of [upnp_set_error].) *)
Theorem error_survives_helpers h error_code formatted event w :
  failed (snd (fst (run upnp repo (SetError error_code formatted h) event w))).
Proof.
  rewrite run_unfold. cbv beta iota zeta.
  pose proof (upnp_set_error_failed event error_code formatted w) as H0.
  destruct (upnp_set_error event error_code formatted w) as [event0 w0].
  simpl in H0. revert event0 w0 H0.
  induction h as [rc | key value k IH | varnum paramname k IH
                  | error_code' formatted' k IH | key k IH | k IH
                  | varnum k IH | varnum value k IH | k IH | k IH];
    intros event0 w0 H0; rewrite run_unfold; cbv beta iota zeta.
  - exact H0.
  - pose proof (upnp_add_response_failed event0 key value w0 H0) as E.
    destruct (upnp_add_response upnp event0 key value w0) as [rc event1].
    simpl in E. subst event1. now apply IH.
  - unfold upnp_append_variable.
    set (w1 := emit (container_Get _ _) _).
    set (v := snd (VariableContainer_Get _ varnum)).
    pose proof (upnp_add_response_failed event0 paramname v w1 H0) as E.
    destruct (upnp_add_response upnp event0 paramname v w1) as [rc event1].
    simpl in E. subst event1. now apply IH.
  - pose proof (upnp_set_error_failed event0 error_code' formatted' w0) as H1.
    destruct (upnp_set_error event0 error_code' formatted' w0) as [event1 w1].
    now apply IH.
  - pose proof (upnp_get_string_failed event0 key w0 H0) as H1.
    destruct (upnp_get_string event0 key w0) as [[r event1] w1].
    now apply IH.
  - now apply IH.
  - now apply IH.
  - now apply IH.
  - now apply IH.
  - now apply IH.
Qed.

(** ** Reading an argument *)

Lemma get_string_loop_None nodes key :
  get_string_loop nodes key = None <->
  Forall (fun n => strcmp (ixmlNode_getNodeName n) key <> 0) nodes.
Proof.
  induction nodes as [|n nodes IH]; simpl.
  - split; [constructor | reflexivity].
  - destruct (Z.eqb_spec (strcmp (ixmlNode_getNodeName n) key) 0) as [E|E].
    + split; [discriminate|]. intros H. inversion H; subst. contradiction.
    + rewrite IH. split; [now constructor|]. intros H. now inversion H.
Qed.

Lemma get_string_loop_first nodes key : forall i node,
  nodes !! i = Some node ->
  strcmp (ixmlNode_getNodeName node) key = 0 ->
  (forall j n, (j < i)%nat -> nodes !! j = Some n ->
     strcmp (ixmlNode_getNodeName n) key <> 0) ->
  get_string_loop nodes key = Some (node_text node).
Proof.
  induction nodes as [|n nodes IH]; intros i node Hi Hname Hbefore;
    [discriminate|].
  simpl. destruct i as [|i].
  - injection Hi as ->. rewrite Hname. reflexivity.
  - rewrite (proj2 (Z.eqb_neq _ _) (Hbefore 0%nat n (Nat.lt_0_succ i) eq_refl)).
    apply (IH i); [exact Hi | exact Hname |].
    intros j n' Hj Hn'. apply (Hbefore (S j) n'); [lia | exact Hn'].
Qed.

(** X3: when the request has an argument named [key],
    [upnp_get_string] returns the text of the first such argument, the
    empty string when that argument holds no text, and touches neither
    the event nor anything else: nothing is logged and no error is
    recorded. *)
Theorem upnp_get_string_found event key w nodes i node :
  argument_nodes (ev_request event) = Some nodes ->
  nodes !! i = Some node ->
  strcmp (ixmlNode_getNodeName node) key = 0 ->
  (forall j n, (j < i)%nat -> nodes !! j = Some n ->
     strcmp (ixmlNode_getNodeName n) key <> 0) ->
  upnp_get_string event key w = (Some (node_text node), event, w) /\
  (ixmlNode_getFirstChild node = None -> node_text node = "").
Proof.
  intros Hargs Hi Hname Hbefore. split.
  - unfold upnp_get_string. unfold argument_nodes in Hargs.
    destruct (ar_ActionRequest (ev_request event)) as [doc|]; [|discriminate].
    destruct (ixmlNode_getFirstChild doc) as [action|]; [|discriminate].
    injection Hargs as <-.
    now rewrite (get_string_loop_first _ key i node Hi Hname Hbefore).
  - unfold node_text. now intros ->.
Qed.

(** X4: [upnp_get_string] returns NULL exactly when the request has no
    document, the document has no child, or no argument is named
    [key].  It then records the error on the event: status -1, no
    action result, the action-failed code in the request (the
    invalid-arguments code only goes to the log) and the message
    saying which of the two went wrong.  The device is not touched. *)
Theorem upnp_get_string_missing event key w :
  let r := upnp_get_string event key w in
  (fst (fst r) = None <->
   match argument_nodes (ev_request event) with
   | Some nodes =>
       Forall (fun n => strcmp (ixmlNode_getNodeName n) key <> 0) nodes
   | None => True
   end) /\
  priv (snd r) = priv w /\
  (fst (fst r) = None ->
   let message :=
     match argument_nodes (ev_request event) with
     | Some _ =>
         vsnprintf LINE_SIZE ("Missing action request argument (" +:+ key +:+ ")")
     | None => "Invalid action request document"
     end in
   ev_status (snd (fst r)) = -1 /\
   ar_ActionResult (ev_request (snd (fst r))) = None /\
   ar_ErrCode (ev_request (snd (fst r))) = UPNP_SOAP_E_ACTION_FAILED /\
   ar_ErrStr (ev_request (snd (fst r))) = message /\
   trace (snd r) =
     trace w ++ [Log_error "upnp" "%s: %s (%d)\n"
                   [arg_s "upnp_set_error"; arg_s message;
                    arg_d UPNP_SOAP_E_INVALID_ARGS]]).
Proof.
  cbv zeta. unfold upnp_get_string, argument_nodes.
  destruct (ar_ActionRequest (ev_request event)) as [doc|].
  - destruct (ixmlNode_getFirstChild doc) as [action|]; simpl.
    + destruct (get_string_loop (ixmlNode_childNodes action) key) as [v|] eqn:E.
      * simpl. split; [|split; [reflexivity | discriminate]].
        split; [discriminate|]. intros H.
        apply get_string_loop_None in H. congruence.
      * apply get_string_loop_None in E. unfold upnp_set_error. simpl.
        split; [tauto|]. split; [reflexivity|]. intros _. now repeat split.
    + unfold upnp_set_error. simpl.
      split; [tauto|]. split; [reflexivity|]. intros _. now repeat split.
  - unfold upnp_set_error. simpl.
    split; [tauto|]. split; [reflexivity|]. intros _. now repeat split.
Qed.

(** ** The message [upnp_set_error] keeps *)

Lemma substring_0_length n : forall s,
  String.length (substring 0 n s) = Nat.min n (String.length s).
Proof.
  induction n as [|n IH]; intros [|c s]; simpl; try reflexivity.
  now rewrite IH.
Qed.

Lemma substring_0_prefix n : forall s,
  String.prefix (substring 0 n s) s = true.
Proof.
  induction n as [|n IH]; intros [|c s]; simpl; try reflexivity.
  destruct (ascii_dec c c) as [_|N]; [apply IH | congruence].
Qed.

Lemma substring_0_all n : forall s,
  (String.length s <= n)%nat -> substring 0 n s = s.
Proof.
  induction n as [|n IH]; intros [|c s]; simpl; try reflexivity.
  - lia.
  - intros H. f_equal. apply IH. lia.
Qed.

(** X5: the error string [upnp_set_error] leaves is the start of the
    formatted message, at most LINE_SIZE - 1 = 179 characters of it,
    and the whole message when it is shorter than the buffer.  The
    error code of the request does not depend on the code the caller
    passed. *)
Theorem upnp_set_error_message event error_code formatted w :
  let request := ev_request (fst (upnp_set_error event error_code formatted w)) in
  (String.length (ar_ErrStr request) <= 179)%nat /\
  String.length (ar_ErrStr request)
    = Nat.min 179 (String.length formatted) /\
  String.prefix (ar_ErrStr request) formatted = true /\
  ((String.length formatted < LINE_SIZE)%nat -> ar_ErrStr request = formatted) /\
  forall error_code',
    ar_ErrCode (ev_request (fst (upnp_set_error event error_code' formatted w)))
    = ar_ErrCode request.
Proof.
  cbv zeta. unfold upnp_set_error, vsnprintf, LINE_SIZE. simpl.
  rewrite substring_0_length.
  split; [lia|]. split; [reflexivity|].
  split; [apply substring_0_prefix|].
  split; [intros H; apply substring_0_all; lia | reflexivity].
Qed.

End Helpers.

(** * The mutexes of the device and of its services *)

Section Locking.

Context (upnp : libupnp) (repo : collaborators).

Lemma locks_snoc tr e : locks (tr ++ [e]) = lock_step (locks tr) e.
Proof. unfold locks. now rewrite fold_left_app. Qed.

Lemma locks_emit e w :
  locks (trace (emit e w)) = lock_step (locks (trace w)) e.
Proof. rewrite trace_emit. apply locks_snoc. Qed.

Lemma locks_quiet e w :
  is_mutex_event e = false -> locks (trace (emit e w)) = locks (trace w).
Proof.
  intros H. rewrite locks_emit.
  destruct (locks (trace w)); [|reflexivity]. now destruct e.
Qed.

Lemma lock_step_lock held m :
  m ∉ held -> lock_step (Some held) (ithread_mutex_lock m) = Some (m :: held).
Proof. intros H. simpl. now destruct (decide (m ∈ held)). Qed.

Lemma lock_step_unlock held m :
  lock_step (Some (m :: held)) (ithread_mutex_unlock m) = Some held.
Proof.
  simpl. destruct (decide (m ∈ m :: held)) as [_|N].
  - now destruct (decide (m = m)).
  - exfalso. apply N. left.
Qed.

Ltac quiet :=
  cbv beta iota zeta;
  repeat first [ rewrite trace_update_service
               | rewrite locks_quiet by reflexivity ].

Lemma LastChange_Start_at_locks srv w :
  locks (trace (LastChange_Start_at srv w)) = locks (trace w).
Proof. unfold LastChange_Start_at. quiet. reflexivity. Qed.

Lemma LastChange_Finish_at_locks srv w :
  locks (trace (LastChange_Finish_at repo srv w)) = locks (trace w).
Proof.
  unfold LastChange_Finish_at. cbv zeta.
  destruct (last_change _) as [c|]; [|quiet; reflexivity].
  destruct (Collector_Finish c) as [c' [| changes |]]; quiet; reflexivity.
Qed.

Lemma variable_write_locks srv varnum value w :
  locks (trace (variable_write srv varnum value w)) = locks (trace w).
Proof.
  unfold variable_write. cbv zeta.
  destruct (_ !! varnum) as [[name v]|]; quiet; reflexivity.
Qed.

Lemma upnp_set_error_locks event error_code formatted w :
  locks (trace (snd (upnp_set_error event error_code formatted w)))
  = locks (trace w).
Proof. unfold upnp_set_error. cbv zeta. cbn [snd]. now apply locks_quiet. Qed.

Lemma upnp_get_string_locks event key w :
  locks (trace (snd (upnp_get_string event key w))) = locks (trace w).
Proof.
  unfold upnp_get_string.
  destruct (ar_ActionRequest _) as [doc|];
    [destruct (ixmlNode_getFirstChild doc) as [node|];
     [destruct (get_string_loop _ key); [reflexivity|]|]|];
    apply upnp_set_error_locks.
Qed.

Lemma upnp_append_variable_locks event varnum paramname w held :
  locks (trace w) = Some held ->
  service_mutex (ev_service event) ∉ held ->
  locks (trace (snd (upnp_append_variable upnp event varnum paramname w)))
  = Some held.
Proof.
  intros Hheld Hfree. unfold upnp_append_variable. cbv zeta.
  destruct (upnp_add_response _ _ _ _ _) as [rc event']. simpl snd.
  rewrite locks_emit, locks_quiet by reflexivity.
  rewrite locks_emit, Hheld, lock_step_lock by exact Hfree.
  apply lock_step_unlock.
Qed.

(** A handler takes the mutex of its service only inside
    [upnp_append_variable], and has given it back when it returns. *)
Lemma run_locks h : forall event w held,
  locks (trace w) = Some held ->
  service_mutex (ev_service event) ∉ held ->
  locks (trace (snd (run upnp repo h event w))) = Some held.
Proof.
  induction h as [rc | key value k IH | varnum paramname k IH
                  | error_code formatted k IH | key k IH | k IH
                  | varnum k IH | varnum value k IH | k IH | k IH];
    intros event w held Hheld Hfree; rewrite run_unfold; cbv beta iota zeta.
  - exact Hheld.
  - pose proof (upnp_add_response_evolves upnp event key value w) as [Hs _].
    destruct (upnp_add_response upnp event key value w) as [rc event'].
    simpl in Hs. apply IH; [exact Hheld | now rewrite Hs].
  - pose proof (upnp_append_variable_evolves upnp event varnum paramname w)
      as [Hs _].
    pose proof (upnp_append_variable_locks event varnum paramname w held
                  Hheld Hfree) as Hl.
    destruct (upnp_append_variable upnp event varnum paramname w)
      as [event' w'].
    simpl in Hs, Hl. apply IH; [exact Hl | now rewrite Hs].
  - pose proof (upnp_set_error_evolves event error_code formatted w) as [Hs _].
    pose proof (upnp_set_error_locks event error_code formatted w) as Hl.
    destruct (upnp_set_error event error_code formatted w) as [event' w'].
    simpl in Hs, Hl. apply IH; [now rewrite Hl | now rewrite Hs].
  - pose proof (upnp_get_string_evolves event key w) as [Hs _].
    pose proof (upnp_get_string_locks event key w) as Hl.
    destruct (upnp_get_string event key w) as [[r event'] w'].
    simpl in Hs, Hl. apply IH; [now rewrite Hl | now rewrite Hs].
  - now apply IH.
  - apply IH; [|exact Hfree]. now rewrite locks_quiet.
  - apply IH; [|exact Hfree]. now rewrite variable_write_locks.
  - apply IH; [|exact Hfree]. now rewrite LastChange_Start_at_locks.
  - apply IH; [|exact Hfree]. now rewrite LastChange_Finish_at_locks.
Qed.

Lemma window_opened_locks srv w held :
  locks (trace w) = Some held -> service_mutex srv ∉ held ->
  locks (trace (window_opened srv w)) = Some held.
Proof.
  intros Hheld Hfree. unfold window_opened.
  destruct (has_last_change w srv); [|exact Hheld].
  rewrite locks_emit, LastChange_Start_at_locks, locks_emit, Hheld,
    lock_step_lock by exact Hfree.
  apply lock_step_unlock.
Qed.

Lemma window_closed_locks srv w held :
  locks (trace w) = Some held -> service_mutex srv ∉ held ->
  locks (trace (window_closed repo srv w)) = Some held.
Proof.
  intros Hheld Hfree. unfold window_closed.
  destruct (has_last_change w srv); [|exact Hheld].
  rewrite locks_emit, LastChange_Finish_at_locks, locks_emit, Hheld,
    lock_step_lock by exact Hfree.
  apply lock_step_unlock.
Qed.

Lemma handle_action_request_locks ar_event w r :
  locks (trace w) = Some [] ->
  handle_action_request upnp repo ar_event w = Some r ->
  locks (trace (snd r)) = Some [].
Proof.
  intros Hheld Hr.
  destruct (find_action w
              (find_service (descriptor (priv w)) (ar_ServiceID ar_event))
              (ar_ActionName ar_event)) as [act|] eqn:Hact.
  - destruct (find_service (descriptor (priv w)) (ar_ServiceID ar_event))
      as [srv|] eqn:Hsrv; [|discriminate].
    cbn [find_action] in Hact.
    assert (Hfree : service_mutex srv ∉ ([] : list mutex)) by apply not_elem_of_nil.
    destruct (callback act) as [h|] eqn:Hcb.
    + destruct (handler_run upnp repo ar_event w srv act h)
        as [[rc event] w_ret] eqn:Hrun.
      rewrite (handle_action_request_bound upnp repo ar_event w srv act h rc
                 event w_ret Hsrv Hact Hcb Hrun) in Hr.
      injection Hr as <-. simpl snd.
      apply window_closed_locks; [|exact Hfree].
      rewrite locks_quiet by reflexivity.
      change w_ret with (snd (rc, event, w_ret)). rewrite <- Hrun.
      unfold handler_run. apply run_locks; [|exact Hfree].
      rewrite locks_quiet by reflexivity.
      now apply window_opened_locks.
    + rewrite (handle_action_request_unbound upnp repo ar_event w srv act
                 Hsrv Hact Hcb) in Hr.
      injection Hr as <-. simpl snd.
      apply window_closed_locks; [|exact Hfree].
      rewrite locks_quiet by reflexivity.
      now apply window_opened_locks.
  - rewrite (handle_action_request_unknown upnp repo ar_event w Hact) in Hr.
    injection Hr as <-. simpl snd. now rewrite locks_quiet.
Qed.

Lemma var_request_loop_locks srv container name indices : forall w,
  locks (trace (snd (var_request_loop srv container name indices w)))
  = locks (trace w).
Proof.
  induction indices as [|i rest IH]; intros w; [reflexivity|].
  cbn [var_request_loop]. cbv zeta.
  destruct (VariableContainer_Get container i) as [n v].
  destruct (String.eqb n name); cbn [snd].
  - now rewrite locks_quiet.
  - rewrite IH. now rewrite locks_quiet.
Qed.

Lemma subscription_loop_locks srv container indices : forall builder w,
  locks (trace (snd (subscription_loop srv container indices builder w)))
  = locks (trace w).
Proof.
  induction indices as [|i rest IH]; intros builder w; [reflexivity|].
  cbn [subscription_loop]. cbv zeta.
  destruct (VariableContainer_Get container i) as [n v].
  rewrite IH. now rewrite locks_quiet.
Qed.

Lemma handle_var_request_locks sv_event w :
  locks (trace w) = Some [] ->
  locks (trace (snd (handle_var_request sv_event w))) = Some [].
Proof.
  intros Hheld. unfold handle_var_request.
  destruct (find_service _ _) as [srv|]; [|exact Hheld]. cbv zeta.
  pose proof (var_request_loop_locks srv
                (variable_container
                   (service_at (emit (ithread_mutex_lock (service_mutex srv)) w)
                      srv))
                (sv_StateVarName sv_event)
                (seq 0 (variable_count
                   (variable_container
                      (service_at
                         (emit (ithread_mutex_lock (service_mutex srv)) w) srv))))
                (emit (ithread_mutex_lock (service_mutex srv)) w)) as Hl.
  destruct (var_request_loop _ _ _ _ _) as [result w1].
  cbn [snd] in Hl. cbn [snd].
  rewrite locks_quiet by reflexivity.
  rewrite locks_emit, Hl, locks_emit, Hheld, lock_step_lock
    by apply not_elem_of_nil.
  apply lock_step_unlock.
Qed.

Lemma handle_subscription_request_locks sr_event w :
  locks (trace w) = Some [] ->
  locks (trace (snd (handle_subscription_request upnp repo sr_event w)))
  = Some [].
Proof.
  intros Hheld. unfold handle_subscription_request. cbv zeta.
  destruct (find_service _ _) as [srv|]; cbn [snd];
    [|now rewrite !locks_quiet by reflexivity].
  match goal with
  | |- context [subscription_loop ?s ?c ?i ?b ?w0] =>
      pose proof (subscription_loop_locks s c i b w0) as Hl;
      destruct (subscription_loop s c i b w0) as [builder w1]
  end.
  cbn [snd] in Hl.
  assert (Hboth : locks (trace w1) = Some [service_mutex srv; device_mutex]).
  { rewrite Hl, locks_emit, locks_emit, locks_quiet, Hheld by reflexivity.
    rewrite lock_step_lock by apply not_elem_of_nil.
    apply lock_step_lock. intros H. inversion H as [|? ? ? H']; subst.
    inversion H'. }
  assert (Hdevice : forall e1 e2,
            is_mutex_event e1 = false -> is_mutex_event e2 = false ->
            locks (trace (emit e2 (emit e1
                     (emit (ithread_mutex_unlock (service_mutex srv)) w1))))
            = Some [device_mutex]).
  { intros e1 e2 H1 H2. rewrite !locks_quiet by assumption.
    rewrite locks_emit, Hboth. apply lock_step_unlock. }
  match goal with
  | |- context [if ?c then _ else _] => destruct c
  end; cbn [snd].
  - rewrite locks_emit, Hdevice by reflexivity. apply lock_step_unlock.
  - rewrite locks_emit, locks_quiet, Hdevice by reflexivity.
    apply lock_step_unlock.
Qed.

(** X6: a request that enters [event_handler] with no mutex held
    leaves it with no mutex held, whatever the request is and whatever
    its handler does; along the way no mutex that is held is locked
    again and none that is free is unlocked, so the callback cannot
    block on a mutex it holds itself. *)
Theorem event_handler_locks EventType w r :
  locks (trace w) = Some [] ->
  event_handler upnp repo EventType w = Some r ->
  locks (trace (snd r)) = Some [].
Proof.
  intros Hheld Hr.
  destruct EventType as [ar_event | sv_event | sr_event | t];
    cbn [event_handler] in Hr.
  - destruct (handle_action_request upnp repo ar_event w)
      as [[[rc ar'] w']|] eqn:E; [|discriminate].
    injection Hr as <-.
    exact (handle_action_request_locks ar_event w _ Hheld E).
  - pose proof (handle_var_request_locks sv_event w Hheld) as Hl.
    destruct (handle_var_request sv_event w) as [[rc sv'] w'].
    injection Hr as <-. exact Hl.
  - pose proof (handle_subscription_request_locks sr_event w Hheld) as Hl.
    destruct (handle_subscription_request upnp repo sr_event w) as [rc w'].
    injection Hr as <-. exact Hl.
  - injection Hr as <-. cbn [snd]. now rewrite locks_quiet.
Qed.

End Locking.

(** * What a dispatch hands back *)

Section Delivery.

Context (upnp : libupnp) (repo : collaborators).

Lemma upnp_set_error_frame event error_code formatted w :
  request_frame (ev_request (fst (upnp_set_error event error_code formatted w)))
  = request_frame (ev_request event).
Proof. reflexivity. Qed.

Lemma upnp_add_response_frame event key value w :
  request_frame (ev_request (snd (upnp_add_response upnp event key value w)))
  = request_frame (ev_request event).
Proof.
  unfold upnp_add_response.
  destruct (negb (ev_status event =? 0)); [reflexivity|]. cbv zeta.
  destruct (UpnpAddToActionResponse _ _ _ _ _ _) as [rc doc].
  now destruct (negb (rc =? UPNP_E_SUCCESS)).
Qed.

Lemma upnp_append_variable_frame event varnum paramname w :
  request_frame
    (ev_request (fst (upnp_append_variable upnp event varnum paramname w)))
  = request_frame (ev_request event).
Proof.
  unfold upnp_append_variable. cbv zeta.
  match goal with
  | |- context [upnp_add_response upnp ?e ?k ?v ?w0] =>
      pose proof (upnp_add_response_frame e k v w0) as H;
      destruct (upnp_add_response upnp e k v w0) as [rc event']
  end.
  exact H.
Qed.

Lemma upnp_get_string_frame event key w :
  request_frame (ev_request (snd (fst (upnp_get_string event key w))))
  = request_frame (ev_request event).
Proof.
  unfold upnp_get_string.
  destruct (ar_ActionRequest _) as [doc|];
    [destruct (ixmlNode_getFirstChild doc) as [node|];
     [destruct (get_string_loop _ key)|]|]; reflexivity.
Qed.

Lemma run_frame h : forall event w,
  request_frame (ev_request (snd (fst (run upnp repo h event w))))
  = request_frame (ev_request event).
Proof.
  induction h as [rc | key value k IH | varnum paramname k IH
                  | error_code formatted k IH | key k IH | k IH
                  | varnum k IH | varnum value k IH | k IH | k IH];
    intros event w; rewrite run_unfold; cbv beta iota zeta.
  - reflexivity.
  - pose proof (upnp_add_response_frame event key value w) as H.
    destruct (upnp_add_response upnp event key value w) as [rc event'].
    rewrite IH. exact H.
  - pose proof (upnp_append_variable_frame event varnum paramname w) as H.
    destruct (upnp_append_variable upnp event varnum paramname w)
      as [event' w'].
    rewrite IH. exact H.
  - pose proof (upnp_set_error_frame event error_code formatted w) as H.
    destruct (upnp_set_error event error_code formatted w) as [event' w'].
    rewrite IH. exact H.
  - pose proof (upnp_get_string_frame event key w) as H.
    destruct (upnp_get_string event key w) as [[r event'] w'].
    rewrite IH. exact H.
  - apply IH.
  - apply IH.
  - apply IH.
  - apply IH.
  - apply IH.
Qed.

Lemma finalized_frame rc request actionName service_type' :
  request_frame (finalized upnp rc request actionName service_type')
  = request_frame request.
Proof.
  unfold finalized. destruct (rc =? 0);
    now destruct (ar_ActionResult _).
Qed.

(** X7: every action request is answered, with 0 when the service has
    an action of that name and with -1 when it has not, whatever the
    handler returned.  Of the request only the action result, the
    error code and the error string can have moved: socket, action
    name, device UDN, service id and the document with the arguments
    come back as libupnp passed them, whatever the handler did. *)
Theorem action_request_frame ar_event w :
  exists rc ar' w',
    handle_action_request upnp repo ar_event w = Some (rc, ar', w') /\
    request_frame ar' = request_frame ar_event /\
    rc = match find_action w
                 (find_service (descriptor (priv w)) (ar_ServiceID ar_event))
                 (ar_ActionName ar_event) with
         | Some _ => 0
         | None => -1
         end.
Proof.
  destruct (find_action w
              (find_service (descriptor (priv w)) (ar_ServiceID ar_event))
              (ar_ActionName ar_event)) as [act|] eqn:Hact.
  - destruct (find_service (descriptor (priv w)) (ar_ServiceID ar_event))
      as [srv|] eqn:Hsrv; [|discriminate].
    cbn [find_action] in Hact.
    destruct (callback act) as [h|] eqn:Hcb.
    + destruct (handler_run upnp repo ar_event w srv act h)
        as [[rc event] w_ret] eqn:Hrun.
      eexists. eexists. eexists. split.
      { exact (handle_action_request_bound upnp repo ar_event w srv act h rc
                 event w_ret Hsrv Hact Hcb Hrun). }
      split; [|reflexivity].
      rewrite finalized_frame.
      change event with (snd (fst (rc, event, w_ret))). rewrite <- Hrun.
      unfold handler_run. now rewrite run_frame.
    + eexists. eexists. eexists. split.
      { exact (handle_action_request_unbound upnp repo ar_event w srv act
                 Hsrv Hact Hcb). }
      split; reflexivity.
  - eexists. eexists. eexists. split.
    { exact (handle_action_request_unknown upnp repo ar_event w Hact). }
    split; reflexivity.
Qed.

(** X8: when the handler of an action returns 0 the request ends with
    the success code, even if the handler had recorded an error; the
    response is the document the handler left, or the empty response
    for the action and the service type when it left none, which is
    the case after every recorded error. *)
Theorem handler_success_response ar_event w srv act h rc event w_ret :
  find_service (descriptor (priv w)) (ar_ServiceID ar_event) = Some srv ->
  find_action_in (actions (service_at w srv)) (ar_ActionName ar_event)
    = Some act ->
  callback act = Some h ->
  handler_run upnp repo ar_event w srv act h = (rc, event, w_ret) ->
  rc = 0 ->
  exists ar' w',
    handle_action_request upnp repo ar_event w = Some (0, ar', w') /\
    ar_ErrCode ar' = UPNP_E_SUCCESS /\
    ar_ErrStr ar' = ar_ErrStr (ev_request event) /\
    ar_ActionResult ar' =
      match ar_ActionResult (ev_request event) with
      | Some doc => Some doc
      | None =>
          UpnpMakeActionResponse upnp (ar_ActionName ar_event)
            (service_type (service_at w srv))
      end /\
    (ev_status event <> 0 ->
     ar_ActionResult ar' =
       UpnpMakeActionResponse upnp (ar_ActionName ar_event)
         (service_type (service_at w srv))).
Proof.
  intros Hs Ha Hc Hr ->.
  pose proof (handler_run_evolves upnp repo ar_event w srv act h)
    as (_ & Hk & _ & Hy).
  rewrite Hr in Hk, Hy. cbn [fst snd] in Hk, Hy.
  eexists. eexists. split.
  { apply (handle_action_request_bound upnp repo _ _ _ _ _ _ _ _ Hs Ha Hc Hr). }
  rewrite (skeleton_service_type _ _ srv Hk).
  unfold finalized. cbn [Z.eqb].
  assert (Hres : ar_ActionResult
                   (UpnpActionRequest_set_ErrCode (ev_request event)
                      UPNP_E_SUCCESS)
                 = ar_ActionResult (ev_request event)) by reflexivity.
  rewrite Hres.
  destruct (ar_ActionResult (ev_request event)) as [doc|] eqn:Hdoc.
  - repeat split; try reflexivity; try exact Hdoc.
    intros Hst. destruct Hy as (Hnone & _); [|exact Hst|congruence].
    intros Hfresh. simpl in Hfresh. congruence.
  - repeat split; reflexivity.
Qed.

End Delivery.

(** * Bringing the device up *)

Section Bringup.

Context (upnp : libupnp) (repo : collaborators).


Lemma bind_retry_loop_priv interface_name port n : forall rc w,
  priv (snd (bind_retry_loop upnp n rc interface_name port w)) = priv w.
Proof.
  induction n as [|n IH]; intros rc w; cbn [bind_retry_loop];
    destruct (negb (rc =? UPNP_E_SUCCESS)); try reflexivity.
  unfold do_UpnpInit2. now rewrite IH.
Qed.

Lemma filter_snoc {A} (p : A -> bool) tr e :
  List.filter p (tr ++ [e]) = List.filter p tr ++ (if p e then [e] else []).
Proof. rewrite List.filter_app. cbn. now destruct (p e). Qed.


Lemma bind_retry_loop_stops interface_name port base k n :
  (forall history,
     (bind_attempts history < base + k)%nat ->
     UpnpInit2 upnp history interface_name port <> UPNP_E_SUCCESS) ->
  (forall history,
     bind_attempts history = (base + k)%nat ->
     UpnpInit2 upnp history interface_name port = UPNP_E_SUCCESS) ->
  forall rc w a,
    bind_attempts (trace w) = (base + a)%nat ->
    ((a <= k)%nat -> rc <> UPNP_E_SUCCESS) ->
    (a = S k -> rc = UPNP_E_SUCCESS) ->
    (1 <= a <= S k)%nat ->
    (S k - a <= n)%nat ->
    fst (bind_retry_loop upnp n rc interface_name port w) = UPNP_E_SUCCESS /\
    timing (trace (snd (bind_retry_loop upnp n rc interface_name port w))) =
      timing (trace w)
      ++ concat (repeat [call_usleep 1000000;
                         call_UpnpInit2 interface_name port] (S k - a)).
Proof.
  intros Hdown Hup. induction n as [|n IH]; intros rc w a Hw Hfail Hok Ha Hn.
  - assert (a = S k) as -> by lia. rewrite (Hok eq_refl).
    rewrite Nat.sub_diag. cbn. now rewrite app_nil_r.
  - cbn [bind_retry_loop].
    destruct (Z.eqb_spec rc UPNP_E_SUCCESS) as [E|E]; cbn [negb].
    + assert (a = S k) as -> by (destruct (decide (a <= k)%nat); [|lia];
                                 now destruct Hfail).
      rewrite Nat.sub_diag. cbn. now rewrite app_nil_r.
    + assert (Hlt : (a <= k)%nat)
        by (destruct (decide (a = S k)) as [Ea|]; [now destruct E; auto | lia]).
      unfold do_UpnpInit2.
      set (w2 := emit (Log_error _ _ _) (emit (call_usleep _) w)).
      assert (Hw2 : bind_attempts (trace w2) = (base + a)%nat).
      { unfold w2. cbn [trace emit].
        now rewrite !bind_attempts_snoc by reflexivity. }
      assert (Htw2 : timing (trace w2)
                     = timing (trace w) ++ [call_usleep 1000000]).
      { unfold w2, timing. cbn [trace emit]. rewrite !filter_snoc. cbn.
        now rewrite app_nil_r. }
      clearbody w2.
      destruct (IH (UpnpInit2 upnp (trace w2) interface_name port)
                   (emit (call_UpnpInit2 interface_name port) w2) (S a))
        as [Hrc Ht].
      * cbn [trace emit]. unfold bind_attempts in *.
        rewrite filter_snoc, length_app, Hw2. cbn. lia.
      * intros H. apply Hdown. lia.
      * intros H. apply Hup. lia.
      * lia.
      * lia.
      * split; [exact Hrc|]. rewrite Ht.
        replace (S k - a)%nat with (S (S k - S a)) by lia.
        cbn [trace emit repeat concat]. unfold timing in *.
        rewrite filter_snoc, Htw2. cbn. rewrite <- !app_assoc.
        reflexivity.
Qed.

(** X10: when the network comes up after [k <= 60] failed bind
    attempts, [initialize_device] binds at attempt [k + 1] and stops
    trying there: [k] sleeps of 1000 ms, each followed by one attempt,
    and nothing of the kind after the first success; it then goes on
    to enable the web server.  With [k = 0] there is one attempt and
    no sleep. *)
Theorem bind_stops_at_first_success device_def interface_name port w k :
  (k <= 60)%nat ->
  (forall history,
     (bind_attempts history < bind_attempts (trace w) + k)%nat ->
     UpnpInit2 upnp history interface_name port <> UPNP_E_SUCCESS) ->
  (forall history,
     bind_attempts history = (bind_attempts (trace w) + k)%nat ->
     UpnpInit2 upnp history interface_name port = UPNP_E_SUCCESS) ->
  let r := initialize_device upnp repo device_def interface_name port w in
  timing (trace (snd r)) = timing (trace w) ++ bind_schedule interface_name port k /\
  bind_attempts (trace (snd r)) = (bind_attempts (trace w) + S k)%nat /\
  In (call_UpnpEnableWebserver true) (trace (snd r)).
Proof.
  intros Hk Hdown Hup. cbv zeta.
  assert (Hcount : forall tr,
            timing tr = timing (trace w) ++ bind_schedule interface_name port k ->
            bind_attempts tr = (bind_attempts (trace w) + S k)%nat).
  { intros tr Ht. unfold bind_attempts.
    replace (List.filter is_bind_attempt tr)
      with (List.filter is_bind_attempt (timing tr)).
    2: { unfold timing. clear. induction tr as [|e tr IH]; [reflexivity|].
         cbn. destruct e; cbn; rewrite ?IH; reflexivity. }
    rewrite Ht, List.filter_app, length_app. f_equal.
    - unfold timing. clear. induction (trace w) as [|e tr IH]; [reflexivity|].
      cbn. destruct e; cbn; rewrite ?IH; reflexivity.
    - unfold bind_schedule. cbn. f_equal. clear.
      induction k as [|k IH]; [reflexivity|]. cbn. now rewrite IH. }
  unfold initialize_device, do_UpnpInit2.
  set (w1 := emit (call_UpnpInit2 interface_name port) w).
  set (rc0 := UpnpInit2 upnp (trace w) interface_name port).
  destruct (bind_retry_loop_stops interface_name port (bind_attempts (trace w))
              k 60 Hdown Hup rc0 w1 1%nat) as [Hrc Ht].
  { unfold w1, bind_attempts. cbn [trace emit].
    rewrite filter_snoc, length_app. cbn. lia. }
  { intros H. apply Hdown. lia. }
  { intros H. apply Hup. lia. }
  { lia. }
  { lia. }
  destruct (bind_retry_loop upnp 60 rc0 interface_name port w1) as [rc w2].
  cbn [fst snd] in Hrc, Ht. subst rc. rewrite Z.eqb_refl. cbn [negb].
  assert (Ht1 : timing (trace w2)
                = timing (trace w) ++ bind_schedule interface_name port k).
  { rewrite Ht. unfold w1, timing, bind_schedule. cbn [trace emit].
    rewrite filter_snoc. cbn. rewrite <- app_assoc.
    now rewrite Nat.sub_0_r. }
  assert (H : forall r' : bool * world,
            (exists tail, trace (snd r') = trace w2 ++ tail /\
               In (call_UpnpEnableWebserver true) tail /\
               Forall (fun e => is_bind_attempt e || is_sleep e = false) tail) ->
            timing (trace (snd r'))
            = timing (trace w) ++ bind_schedule interface_name port k /\
            In (call_UpnpEnableWebserver true) (trace (snd r'))).
  { intros r' (tail & -> & Hin & Hq). split.
    - rewrite <- Ht1. unfold timing. rewrite List.filter_app.
      replace (List.filter (fun e => is_bind_attempt e || is_sleep e) tail)
        with (@nil event); [apply app_nil_r|].
      clear Hin. induction Hq as [|e tail He _ IH]; [reflexivity|].
      cbn [List.filter]. now rewrite He.
    - apply in_or_app. now right. }
  match goal with
  | |- timing (trace (snd ?r0)) = _ /\ _ /\ _ =>
      destruct (H r0) as [H1 H2];
        [|split; [exact H1 | split; [now apply Hcount | exact H2]]]
  end.
  destruct (UpnpRegisterRootDevice2 upnp _ _) as [rc4 handle].
  repeat match goal with
         | |- context [if ?b then _ else _] => destruct b
         end;
    cbn [snd trace emit set_device_handle];
    rewrite <- ?app_assoc;
    (eexists; split; [reflexivity|]; split;
     [cbn; now right; left | repeat constructor]).
Qed.

End Bringup.

(** * Services, as looked up and as advertised *)

Section Lookup.

(** X11: among services whose ids hold no NUL byte, [find_service]
    returns the first service whose id is the one asked for, and NULL
    exactly when no service has that id: of two services with the
    same id only the first can be reached. *)
Theorem find_service_first_match device_def id :
  (forall s, In s (services device_def) -> nul_free (service_id s)) ->
  nul_free id ->
  match find_service device_def id with
  | Some i =>
      exists s, services device_def !! i = Some s /\ service_id s = id /\
        forall j s', (j < i)%nat -> services device_def !! j = Some s' ->
                     service_id s' <> id
  | None => forall s, In s (services device_def) -> service_id s <> id
  end.
Proof.
  intros Hids Hid.
  assert (Hin : forall j s', services device_def !! j = Some s' ->
                             In s' (services device_def)).
  { intros j s' H. apply list_elem_of_In. eapply list_elem_of_lookup_2, H. }
  destruct (find_service device_def id) as [i|] eqn:E.
  - apply find_service_Some in E as (s & Hs & Hcmp & Hbefore).
    exists s. split; [exact Hs|]. split.
    + apply strcmp_zero_eq; [apply Hids; eapply Hin, Hs | exact Hid | exact Hcmp].
    + intros j s' Hj Hs' Heq.
      rewrite List.Forall_forall in Hbefore. apply (Hbefore s').
      * apply list_elem_of_In. apply (list_elem_of_lookup_2 _ j).
        rewrite lookup_take_lt by exact Hj. exact Hs'.
      * rewrite Heq. apply strcmp_refl.
  - apply find_service_None in E. rewrite List.Forall_forall in E.
    intros s Hs Heq. apply (E s Hs). rewrite Heq. apply strcmp_refl.
Qed.

(** X12: the descriptor document lists the id of every service of the
    device, once each and in the order of the service table, and the
    URL of every icon; it has a service list even for a device
    without services, and an icon list only when the icon table is
    not NULL.  Every service the descriptor advertises is one
    [find_service] resolves. *)
Theorem advertised_services_resolve device_def :
  doc_service_ids (device_desc_doc device_def)
    = Some (map (fun s => Some (service_id s)) (services device_def)) /\
  doc_icon_urls (device_desc_doc device_def)
    = map (fun i => Some (url i)) <$> icons device_def /\
  forall s, In s (services device_def) ->
    exists i s', find_service device_def (service_id s) = Some i /\
                 services device_def !! i = Some s' /\
                 strcmp (service_id s') (service_id s) = 0.
Proof.
  split; [|split].
  - rewrite device_desc_doc_eq. unfold doc_service_ids, doc_device, child_named.
    destruct (icons device_def) as [l|]; cbn; unfold listed; cbn;
      rewrite map_map; f_equal.
  - rewrite device_desc_doc_eq. unfold doc_icon_urls, doc_device, child_named.
    destruct (icons device_def) as [l|]; cbn; [|reflexivity].
    unfold listed. cbn. rewrite map_map. reflexivity.
  - intros s Hs.
    destruct (find_service device_def (service_id s)) as [i|] eqn:E.
    + apply find_service_Some in E as (s' & Hs' & Hcmp & _). eauto.
    + apply find_service_None in E. rewrite List.Forall_forall in E.
      destruct (E s Hs). apply strcmp_refl.
Qed.

End Lookup.

(** * Making the device *)

Section Making.

Context (upnp : libupnp) (repo : collaborators).
Context (upnp_get_scpd : service -> string).

Lemma initialize_device_priv device_def interface_name port w :
  let r := initialize_device upnp repo device_def interface_name port w in
  descriptor (priv (snd r)) = descriptor (priv w) /\
  (fst r = true ->
   device_handle (priv (snd r)) =
     snd (UpnpRegisterRootDevice2 upnp (upnp_create_device_desc repo device_def)
            (device_handle (priv w)))).
Proof.
  cbv zeta. unfold initialize_device, do_UpnpInit2.
  pose proof (bind_retry_loop_priv upnp interface_name port 60
                (UpnpInit2 upnp (trace w) interface_name port)
                (emit (call_UpnpInit2 interface_name port) w)) as Hp.
  destruct (bind_retry_loop upnp 60 _ interface_name port _) as [rc w2].
  cbn [snd priv emit] in Hp.
  destruct (negb (UPNP_E_SUCCESS =? rc));
    [cbn; rewrite Hp; split; [reflexivity | discriminate]|].
  destruct (negb (UPNP_E_SUCCESS =? UpnpEnableWebserver upnp true));
    [cbn; rewrite Hp; split; [reflexivity | discriminate]|].
  destruct (negb (webserver_register_callbacks repo));
    [cbn; rewrite Hp; split; [reflexivity | discriminate]|].
  destruct (negb (UPNP_E_SUCCESS =? UpnpAddVirtualDir upnp "/upnp"));
    [cbn; rewrite Hp; split; [reflexivity | discriminate]|].
  cbn [priv emit]. rewrite Hp.
  destruct (UpnpRegisterRootDevice2 upnp _ _) as [rc4 handle].
  destruct (negb (UPNP_E_SUCCESS =? rc4));
    [cbn; rewrite Hp; split; [reflexivity | discriminate]|].
  cbn [priv emit set_device_handle device_handle].
  destruct (negb (UPNP_E_SUCCESS =? UpnpSendAdvertisement upnp handle 100));
    cbn; rewrite Hp; split; try reflexivity; discriminate.
Qed.

Lemma upnp_device_init_eq init_function device_def interface_name port
    uninitialised_handle icon_table :
  icons device_def = Some icon_table ->
  match init_function with Some rc => rc = 0 | None => True end ->
  let start :=
    initialize_device upnp repo device_def interface_name port
      {| priv := {| descriptor := device_def;
                    device_handle := uninitialised_handle |};
         trace := [] |} in
  upnp_device_init upnp repo upnp_get_scpd init_function device_def
    interface_name port uninitialised_handle =
  Some (if fst start then Some (priv (snd start)) else None,
        match init_function with
        | Some _ => [call_init_function]
        | None => []
        end
        ++ map (fun icon_entry =>
                  call_webserver_register_file (url icon_entry) "image/png")
               icon_table
        ++ map (fun srv =>
                  call_webserver_register_buf (scpd_url srv)
                    (upnp_get_scpd srv) "text/xml")
               (services device_def)
        ++ map device_event (trace (snd start))
        ++ if fst start then [] else [call_UpnpFinish]).
Proof.
  intros Hicons Hinit. cbv zeta. unfold upnp_device_init. rewrite Hicons.
  destruct init_function as [rc|]; [subst rc|]; cbn [Z.eqb negb];
    destruct (initialize_device _ _ _ _ _ _) as [[|] w]; cbn [negb fst snd];
    unfold strdup; rewrite <- ?app_assoc, ?app_nil_r; reflexivity.
Qed.

Lemma filter_map_none {A B} (p : B -> bool) (g : A -> B) (l : list A) :
  (forall x, p (g x) = false) -> List.filter p (map g l) = [].
Proof.
  intros H. induction l as [|x l IH]; [reflexivity|]. cbn. now rewrite H.
Qed.

Lemma device_events_map l : device_events (map device_event l) = l.
Proof.
  unfold device_events. induction l as [|e l IH]; cbn; [reflexivity|].
  now f_equal.
Qed.

Lemma device_events_app l1 l2 :
  device_events (l1 ++ l2) = device_events l1 ++ device_events l2.
Proof. apply flat_map_app. Qed.

Lemma device_events_none {A} (g : A -> init_event) (l : list A) :
  (forall x, device_events [g x] = []) -> device_events (map g l) = [].
Proof.
  intros H. induction l as [|x l IH]; [reflexivity|].
  change (map g (x :: l)) with ([g x] ++ map g l).
  now rewrite device_events_app, H, IH.
Qed.

(** X13: when the descriptor has an icon table, [upnp_device_init]
    hands every icon URL to the web server as image/png, whatever
    mimetype the icon declares, and then the SCPD of every service
    under its SCPD URL as text/xml, in the order of the tables and
    before anything else but the init function of the descriptor;
    nothing is registered later.  When the init function fails,
    nothing is registered and nothing else is called. *)
Theorem upnp_device_init_registers init_function device_def interface_name
    port uninitialised_handle icon_table :
  icons device_def = Some icon_table ->
  exists result tr,
    upnp_device_init upnp repo upnp_get_scpd init_function device_def
      interface_name port uninitialised_handle = Some (result, tr) /\
    if match init_function with Some rc => negb (rc =? 0) | None => false end
    then result = None /\ tr = [call_init_function]
    else
      exists calls,
        tr = match init_function with
             | Some _ => [call_init_function]
             | None => []
             end
             ++ map (fun icon_entry =>
                       call_webserver_register_file (url icon_entry) "image/png")
                    icon_table
             ++ map (fun srv =>
                       call_webserver_register_buf (scpd_url srv)
                         (upnp_get_scpd srv) "text/xml")
                    (services device_def)
             ++ calls /\
        List.filter is_web_registration calls = [].
Proof.
  intros Hicons.
  destruct (match init_function with
            | Some rc => negb (rc =? 0)
            | None => false
            end) eqn:Hfail.
  - destruct init_function as [rc|]; [|discriminate].
    unfold upnp_device_init. rewrite Hfail.
    eexists. eexists. split; [reflexivity|]. now split.
  - assert (Hok : match init_function with
                  | Some rc => rc = 0
                  | None => True
                  end).
    { destruct init_function as [rc|]; [|exact I].
      apply negb_false_iff in Hfail. now apply Z.eqb_eq. }
    rewrite (upnp_device_init_eq _ _ _ _ _ _ Hicons Hok).
    eexists. eexists. split; [reflexivity|].
    eexists. split; [reflexivity|].
    rewrite List.filter_app, filter_map_none by reflexivity.
    now destruct (fst _).
Qed.

(** X14: when the descriptor has an icon table and its init function
    does not fail, [upnp_device_init] returns a device exactly when
    [initialize_device] succeeded.  The device then has the
    descriptor it was made for and the handle the registration gave,
    and UpnpFinish was not called.  Otherwise the result is NULL and
    UpnpFinish was called once, as the last thing done. *)
Theorem upnp_device_init_result init_function device_def interface_name
    port uninitialised_handle icon_table :
  icons device_def = Some icon_table ->
  match init_function with Some rc => rc = 0 | None => True end ->
  let start :=
    initialize_device upnp repo device_def interface_name port
      {| priv := {| descriptor := device_def;
                    device_handle := uninitialised_handle |};
         trace := [] |} in
  exists result tr,
    upnp_device_init upnp repo upnp_get_scpd init_function device_def
      interface_name port uninitialised_handle = Some (result, tr) /\
    device_events tr = trace (snd start) /\
    (is_Some result <-> fst start = true) /\
    (forall device, result = Some device ->
       descriptor device = device_def /\
       device_handle device =
         snd (UpnpRegisterRootDevice2 upnp
                (upnp_create_device_desc repo device_def) uninitialised_handle) /\
       List.filter is_finish tr = []) /\
    (result = None ->
     List.filter is_finish tr = [call_UpnpFinish] /\
     last tr = Some call_UpnpFinish).
Proof.
  intros Hicons Hok. cbv zeta.
  rewrite (upnp_device_init_eq _ _ _ _ _ _ Hicons Hok).
  pose proof (initialize_device_priv device_def interface_name port
                {| priv := {| descriptor := device_def;
                              device_handle := uninitialised_handle |};
                   trace := [] |}) as [Hd Hh].
  cbv zeta in Hd, Hh. cbn [priv descriptor device_handle] in Hd, Hh.
  set (start := initialize_device _ _ _ _ _ _) in *. clearbody start.
  eexists. eexists. split; [reflexivity|].
  assert (Hpre : device_events
                   match init_function with
                   | Some _ => [call_init_function]
                   | None => []
                   end = []) by now destruct init_function.
  assert (Hfin : forall tail,
            List.filter is_finish
              (match init_function with
               | Some _ => [call_init_function]
               | None => []
               end
               ++ map (fun icon_entry =>
                         call_webserver_register_file (url icon_entry)
                           "image/png") icon_table
               ++ map (fun srv =>
                         call_webserver_register_buf (scpd_url srv)
                           (upnp_get_scpd srv) "text/xml")
                      (services device_def)
               ++ map device_event (trace (snd start)) ++ tail)
            = List.filter is_finish tail).
  { intros tail. rewrite !List.filter_app.
    rewrite !filter_map_none by reflexivity.
    now destruct init_function. }
  split.
  { rewrite !device_events_app, Hpre, device_events_map.
    rewrite !device_events_none by reflexivity.
    destruct (fst start); cbn; now rewrite ?app_nil_r. }
  destruct (fst start) eqn:Hstart.
  - split; [split; [reflexivity | eauto]|].
    split; [|discriminate].
    intros device [= <-]. split; [exact Hd|]. split; [now apply Hh|].
    apply Hfin.
  - split; [split; [intros [? [=]] | discriminate]|].
    split; [discriminate|]. intros _. split; [apply Hfin|].
    rewrite !app_assoc. apply last_snoc.
Qed.

(** X16: a descriptor whose icon table is NULL is one the descriptor
    generator accepts (it writes no icon list and still lists the
    services), but not one [upnp_device_init] can be given: unless the
    init function of the descriptor fails first, it reads the first
    entry of the table without testing the table. *)
Theorem upnp_device_init_null_icons init_function device_def interface_name
    port uninitialised_handle :
  icons device_def = None ->
  (upnp_device_init upnp repo upnp_get_scpd init_function device_def
     interface_name port uninitialised_handle = None <->
   match init_function with Some rc => rc = 0 | None => True end) /\
  doc_icon_urls (device_desc_doc device_def) = None /\
  doc_service_ids (device_desc_doc device_def)
    = Some (map (fun s => Some (service_id s)) (services device_def)).
Proof.
  intros Hicons. split; [|split].
  - unfold upnp_device_init. rewrite Hicons.
    destruct init_function as [rc|]; [|now split].
    destruct (Z.eqb_spec rc 0) as [E|E]; cbn [negb]; [now split|].
    split; [discriminate | contradiction].
  - rewrite device_desc_doc_eq, Hicons. reflexivity.
  - rewrite device_desc_doc_eq, Hicons.
    unfold doc_service_ids, doc_device, child_named. cbn. unfold listed. cbn.
    now rewrite map_map.
Qed.

End Making.

(** * What the callback leaves of the device *)

Section Registry.

Context (upnp : libupnp) (repo : collaborators).

Lemma read_only_refl w : read_only w w.
Proof. split; [reflexivity|]. exists []. now rewrite app_nil_r. Qed.

Lemma read_only_trans w1 w2 w3 :
  read_only w1 w2 -> read_only w2 w3 -> read_only w1 w3.
Proof.
  intros [Hp1 [t1 Ht1]] [Hp2 [t2 Ht2]]. split; [congruence|].
  exists (t1 ++ t2). now rewrite Ht2, Ht1, app_assoc.
Qed.

Lemma read_only_emit e w : read_only w (emit e w).
Proof. split; [reflexivity|]. now exists [e]. Qed.

Lemma read_only_then_emit e w w' : read_only w w' -> read_only w (emit e w').
Proof. intros H. eapply read_only_trans; [exact H | apply read_only_emit]. Qed.

Lemma read_only_skeleton w w' :
  read_only w w' ->
  world_skeleton w' = world_skeleton w /\ exists tr, trace w' = trace w ++ tr.
Proof. intros [Hp Ht]. split; [|exact Ht]. unfold world_skeleton. now rewrite Hp. Qed.

Lemma var_request_loop_read_only srv container name indices : forall w,
  read_only w (snd (var_request_loop srv container name indices w)).
Proof.
  induction indices as [|i rest IH]; intros w; [apply read_only_refl|].
  cbn [var_request_loop]. cbv zeta.
  destruct (VariableContainer_Get container i) as [n v].
  destruct (String.eqb n name); cbn [snd].
  - apply read_only_emit.
  - eapply read_only_trans; [apply read_only_emit | apply IH].
Qed.

Lemma subscription_loop_read_only srv container indices : forall builder w,
  read_only w (snd (subscription_loop srv container indices builder w)).
Proof.
  induction indices as [|i rest IH]; intros builder w; [apply read_only_refl|].
  cbn [subscription_loop]. cbv zeta.
  destruct (VariableContainer_Get container i) as [n v].
  eapply read_only_trans; [apply read_only_emit | apply IH].
Qed.

Lemma handle_var_request_read_only sv_event w :
  read_only w (snd (handle_var_request sv_event w)).
Proof.
  unfold handle_var_request.
  destruct (find_service _ _) as [srv|]; [|apply read_only_refl]. cbv zeta.
  match goal with
  | |- context [var_request_loop ?s ?c ?n ?i ?w0] =>
      pose proof (var_request_loop_read_only s c n i w0) as Hl;
      destruct (var_request_loop s c n i w0) as [result w1]
  end.
  cbn [snd] in Hl |- *.
  do 2 apply read_only_then_emit.
  eapply read_only_trans; [apply read_only_emit | exact Hl].
Qed.

Lemma handle_subscription_request_read_only sr_event w :
  read_only w (snd (handle_subscription_request upnp repo sr_event w)).
Proof.
  unfold handle_subscription_request. cbv zeta.
  destruct (find_service _ _) as [srv|]; cbn [snd];
    [|do 2 apply read_only_then_emit; apply read_only_refl].
  match goal with
  | |- context [subscription_loop ?s ?c ?i ?b ?w0] =>
      pose proof (subscription_loop_read_only s c i b w0) as Hl;
      destruct (subscription_loop s c i b w0) as [builder w1]
  end.
  cbn [snd] in Hl.
  assert (H0 : read_only w w1).
  { eapply read_only_trans; [|exact Hl].
    do 3 apply read_only_then_emit. apply read_only_refl. }
  match goal with
  | |- context [if ?c then _ else _] => destruct c
  end; cbn [snd]; repeat apply read_only_then_emit; exact H0.
Qed.

Lemma window_closed_evolves event srv w :
  evolves event w event (window_closed repo srv w).
Proof.
  unfold window_closed. destruct (has_last_change w srv); [|apply evolves_refl].
  apply evolves_then_emit; [reflexivity|].
  eapply evolves_trans; [|apply LastChange_Finish_at_evolves].
  apply evolves_emit. reflexivity.
Qed.

(** X15: the callback registered with libupnp always returns 0, and
    whatever the request and whatever its handler does, the registry
    of the device is as before: the same services with the same ids,
    types, URLs and actions, the same handle, and a collector exactly
    where there was one.  What was logged and called before is still
    there, in order.  A variable query and a subscription change
    nothing at all in the device, no variable and no collector. *)
Theorem event_handler_keeps_registry EventType w :
  exists EventType' w',
    event_handler upnp repo EventType w = Some (0, EventType', w') /\
    world_skeleton w' = world_skeleton w /\
    (exists tr, trace w' = trace w ++ tr) /\
    match EventType with
    | UPNP_CONTROL_ACTION_REQUEST _ => True
    | _ => priv w' = priv w
    end.
Proof.
  destruct EventType as [ar_event | sv_event | sr_event | t];
    cbn [event_handler].
  - assert (H : exists r,
              handle_action_request upnp repo ar_event w = Some r /\
              evolves (fresh_event ar_event 0) w (fresh_event ar_event 0)
                      (snd r)).
    { destruct (find_action w
                  (find_service (descriptor (priv w)) (ar_ServiceID ar_event))
                  (ar_ActionName ar_event)) as [act|] eqn:Hact.
      - destruct (find_service (descriptor (priv w)) (ar_ServiceID ar_event))
          as [srv|] eqn:Hsrv; [|discriminate].
        cbn [find_action] in Hact.
        destruct (callback act) as [h|] eqn:Hcb.
        + destruct (handler_run upnp repo ar_event w srv act h)
            as [[rc event] w_ret] eqn:Hrun.
          eexists. split.
          { exact (handle_action_request_bound upnp repo ar_event w srv act h
                     rc event w_ret Hsrv Hact Hcb Hrun). }
          cbn [snd].
          pose proof (handler_run_evolves upnp repo ar_event w srv act h)
            as (_ & Hk & Ht & _).
          rewrite Hrun in Hk, Ht. cbn [fst snd] in Hk, Ht.
          eapply evolves_trans; [|apply window_closed_evolves].
          apply evolves_then_emit; [reflexivity|].
          split; [reflexivity|]. split; [exact Hk|]. split; [exact Ht|].
          intros _ Hst. now cbn in Hst.
        + eexists. split.
          { exact (handle_action_request_unbound upnp repo ar_event w srv act
                     Hsrv Hact Hcb). }
          cbn [snd].
          eapply evolves_trans; [|apply window_closed_evolves].
          apply evolves_then_emit; [reflexivity|].
          apply window_opened_evolves.
      - eexists. split.
        { exact (handle_action_request_unknown upnp repo ar_event w Hact). }
        apply evolves_emit. reflexivity. }
    destruct H as ([[rc ar'] w'] & -> & _ & Hk & Ht & _).
    eexists. eexists. split; [reflexivity|]. now repeat split.
  - pose proof (handle_var_request_read_only sv_event w) as H.
    destruct (handle_var_request sv_event w) as [[rc sv'] w'].
    cbn [snd] in H. destruct (read_only_skeleton _ _ H) as [Hk Ht].
    eexists. eexists. split; [reflexivity|].
    repeat split; try assumption. apply H.
  - pose proof (handle_subscription_request_read_only sr_event w) as H.
    destruct (handle_subscription_request upnp repo sr_event w) as [rc w'].
    cbn [snd] in H. destruct (read_only_skeleton _ _ H) as [Hk Ht].
    eexists. eexists. split; [reflexivity|].
    repeat split; try assumption. apply H.
  - eexists. eexists. split; [reflexivity|].
    repeat split. now eexists.
Qed.

End Registry.

(** * The codes a request can leave with *)

Section Codes.

Context (upnp : libupnp) (repo : collaborators).

Lemma upnp_add_response_code event key value w :
  let code := ar_ErrCode (ev_request (snd (upnp_add_response upnp event key value w))) in
  code = ar_ErrCode (ev_request event) \/ code = UPNP_SOAP_E_ACTION_FAILED.
Proof.
  cbv zeta. unfold upnp_add_response.
  destruct (negb (ev_status event =? 0)); [now left|]. cbv zeta.
  destruct (UpnpAddToActionResponse _ _ _ _ _ _) as [rc doc].
  destruct (negb (rc =? UPNP_E_SUCCESS)); [now right | now left].
Qed.

Lemma upnp_get_string_code event key w :
  let code := ar_ErrCode (ev_request (snd (fst (upnp_get_string event key w)))) in
  code = ar_ErrCode (ev_request event) \/ code = UPNP_SOAP_E_ACTION_FAILED.
Proof.
  cbv zeta. unfold upnp_get_string.
  destruct (ar_ActionRequest _) as [doc|];
    [destruct (ixmlNode_getFirstChild doc) as [node|];
     [destruct (get_string_loop _ key); [now left|]|]|];
    now right.
Qed.

Lemma run_code h : forall event w,
  let code := ar_ErrCode (ev_request (snd (fst (run upnp repo h event w)))) in
  code = ar_ErrCode (ev_request event) \/ code = UPNP_SOAP_E_ACTION_FAILED.
Proof.
  induction h as [rc | key value k IH | varnum paramname k IH
                  | error_code formatted k IH | key k IH | k IH
                  | varnum k IH | varnum value k IH | k IH | k IH];
    intros event w; cbv zeta; rewrite run_unfold; cbv beta iota zeta;
    try apply IH.
  - now left.
  - pose proof (upnp_add_response_code event key value w) as H.
    destruct (upnp_add_response upnp event key value w) as [rc event'].
    cbv zeta in H. cbn [snd] in H.
    destruct (IH rc event' w) as [E|E]; rewrite E; [exact H | now right].
  - unfold upnp_append_variable. cbv zeta.
    match goal with
    | |- context [upnp_add_response upnp ?e ?k0 ?v ?w0] =>
        pose proof (upnp_add_response_code e k0 v w0) as H;
        destruct (upnp_add_response upnp e k0 v w0) as [rc event']
    end.
    cbv zeta in H. cbn [snd] in H.
    match goal with
    | |- context [run upnp repo k event' ?w1] =>
        destruct (IH event' w1) as [E|E]; rewrite E; [exact H | now right]
    end.
  - match goal with
    | |- context [upnp_set_error ?e ?c ?f ?w0] =>
        destruct (upnp_set_error e c f w0) as [event' w'] eqn:Hse
    end.
    destruct (IH event' w') as [E|E]; rewrite E; [|now right].
    right. unfold upnp_set_error in Hse. cbv zeta in Hse.
    injection Hse as <- _. reflexivity.
  - pose proof (upnp_get_string_code event key w) as H.
    destruct (upnp_get_string event key w) as [[r event'] w'].
    cbv zeta in H. cbn [fst snd] in H.
    destruct (IH r event' w') as [E|E]; rewrite E; [exact H | now right].
Qed.

(** X17: whatever code a handler passes to [upnp_set_error] and
    whatever it returns, an action request leaves the dispatcher with
    one of four codes: success, 401 (no such action), 501 (action
    failed), or the code the request held when libupnp passed it in.
    The last is what a handler leaves that returns nonzero without
    having recorded an error. *)
Theorem action_error_codes ar_event w :
  exists code,
    error_code_of (handle_action_request upnp repo ar_event w) = Some code /\
    (code = UPNP_E_SUCCESS \/ code = UPNP_SOAP_E_INVALID_ACTION \/
     code = UPNP_SOAP_E_ACTION_FAILED \/ code = ar_ErrCode ar_event).
Proof.
  destruct (find_action w
              (find_service (descriptor (priv w)) (ar_ServiceID ar_event))
              (ar_ActionName ar_event)) as [act|] eqn:Hact.
  - destruct (find_service (descriptor (priv w)) (ar_ServiceID ar_event))
      as [srv|] eqn:Hsrv; [|discriminate].
    cbn [find_action] in Hact.
    destruct (callback act) as [h|] eqn:Hcb.
    + destruct (handler_run upnp repo ar_event w srv act h)
        as [[rc event] w_ret] eqn:Hrun.
      rewrite (handle_action_request_bound upnp repo ar_event w srv act h rc
                 event w_ret Hsrv Hact Hcb Hrun).
      eexists. split; [reflexivity|].
      pose proof (run_code h (fresh_event ar_event srv)
                    (emit (callback_enter (action_name act))
                       (window_opened srv w))) as H.
      cbv zeta in H. fold (handler_run upnp repo ar_event w srv act h) in H.
      rewrite Hrun in H. cbn [fst snd fresh_event ev_request] in H.
      unfold finalized.
      destruct (rc =? 0);
        [left; now destruct (ar_ActionResult _)|].
      destruct (ar_ActionResult (ev_request event));
        cbn [ar_ErrCode UpnpActionRequest_set_ActionResult];
        destruct H as [->| ->]; auto.
    + rewrite (handle_action_request_unbound upnp repo ar_event w srv act
                 Hsrv Hact Hcb).
      eexists. split; [reflexivity|]. now left.
  - rewrite (handle_action_request_unknown upnp repo ar_event w Hact).
    eexists. split; [reflexivity|]. right. now left.
Qed.

End Codes.

(** * The added properties on the renderer *)

Module Cases.

Import Reference.

(** The volume request holds one argument, "InstanceID", with the
    text 0. *)
Lemma upnp_get_string_found_witness :
  upnp_get_string (fresh_event get_volume_request 1) "InstanceID" w0
    = (Some (node_text (ixml_node "InstanceID" None
                          [ixml_node "#text" (Some "0") []])),
       fresh_event get_volume_request 1, w0) /\
  (ixmlNode_getFirstChild
     (ixml_node "InstanceID" None [ixml_node "#text" (Some "0") []]) = None ->
   node_text (ixml_node "InstanceID" None [ixml_node "#text" (Some "0") []])
     = "").
Proof.
  apply (upnp_get_string_found (fresh_event get_volume_request 1) "InstanceID"
           w0 [ixml_node "InstanceID" None [ixml_node "#text" (Some "0") []]]
           0%nat).
  - reflexivity.
  - reflexivity.
  - vm_compute. reflexivity.
  - intros j n H. lia.
Defined.

(** A subscription takes the device mutex and the mutex of the
    service, and gives both back. *)
Lemma event_handler_locks_witness :
  exists r,
    event_handler upnp_ok repo subscription_event w0 = Some r /\
    locks (trace (snd r)) = Some [].
Proof.
  eexists. split; [vm_compute; reflexivity|].
  eapply (event_handler_locks upnp_ok repo subscription_event w0).
  - reflexivity.
  - vm_compute. reflexivity.
Defined.

(** "GetMute" asks for an argument the request does not hold, goes on
    and returns 0: the request ends with the success code and the
    empty response. *)
Lemma handler_success_response_witness :
  exists ar' w',
    handle_action_request upnp_ok repo get_mute_request w0 = Some (0, ar', w') /\
    ar_ErrCode ar' = UPNP_E_SUCCESS /\
    ar_ActionResult ar' = Some (response_root "GetMute").
Proof.
  destruct (handler_success_response upnp_ok repo get_mute_request w0 1
              {| action_name := "GetMute"; callback := Some get_mute |}
              get_mute 0
              (snd (fst (handler_run upnp_ok repo get_mute_request w0 1
                           {| action_name := "GetMute";
                              callback := Some get_mute |} get_mute)))
              (snd (handler_run upnp_ok repo get_mute_request w0 1
                      {| action_name := "GetMute";
                         callback := Some get_mute |} get_mute)))
    as (ar' & w' & H & Hcode & _ & _ & Hres).
  - vm_compute. reflexivity.
  - vm_compute. reflexivity.
  - reflexivity.
  - vm_compute. reflexivity.
  - reflexivity.
  - exists ar', w'. split; [exact H|]. split; [exact Hcode|].
    apply Hres. vm_compute. discriminate.
Defined.

(** The network comes up after two failed attempts: three attempts,
    two sleeps. *)
Lemma bind_stops_at_first_success_witness :
  timing (trace (snd (initialize_device (upnp_up_after 2) repo render_device
                        "eth0" 49494 w0)))
    = [call_UpnpInit2 "eth0" 49494;
       call_usleep 1000000; call_UpnpInit2 "eth0" 49494;
       call_usleep 1000000; call_UpnpInit2 "eth0" 49494] /\
  bind_attempts (trace (snd (initialize_device (upnp_up_after 2) repo
                               render_device "eth0" 49494 w0))) = 3%nat /\
  In (call_UpnpEnableWebserver true)
     (trace (snd (initialize_device (upnp_up_after 2) repo render_device
                    "eth0" 49494 w0))).
Proof.
  apply (bind_stops_at_first_success (upnp_up_after 2) repo render_device
           "eth0" 49494 w0 2).
  - lia.
  - intros history H. cbn in H. cbn [upnp_up_after with_UpnpInit2 UpnpInit2].
    destruct (Nat.ltb_spec (bind_attempts history) 2);
      [intros E; discriminate E | lia].
  - intros history H. cbn in H. cbn [upnp_up_after with_UpnpInit2 UpnpInit2].
    destruct (Nat.ltb_spec (bind_attempts history) 2); [lia | reflexivity].
Defined.

Lemma find_service_first_match_witness :
  match find_service render_device control_id with
  | Some i =>
      exists s, services render_device !! i = Some s /\
        service_id s = control_id /\
        forall j s', (j < i)%nat -> services render_device !! j = Some s' ->
                     service_id s' <> control_id
  | None => forall s, In s (services render_device) -> service_id s <> control_id
  end.
Proof.
  apply (find_service_first_match render_device control_id).
  - intros s [<-|[<-|[]]]; vm_compute;
      repeat split; intros H; discriminate H.
  - vm_compute. repeat split; intros H; discriminate H.
Defined.

(** The icon of the renderer and the SCPD of its two services. *)
Lemma upnp_device_init_registers_witness :
  exists result tr,
    upnp_device_init upnp_ok repo scpd_of (Some 0) render_device "eth0" 49494 0
      = Some (result, tr) /\
    exists calls,
      tr = [call_init_function]
           ++ [call_webserver_register_file "/upnp/grender-64x64.png"
                 "image/png"]
           ++ [call_webserver_register_buf "/upnp/renderconnmgrSCPD.xml"
                 (scpd_of connmgr) "text/xml";
               call_webserver_register_buf "/upnp/rendercontrolSCPD.xml"
                 (scpd_of control) "text/xml"]
           ++ calls /\
      List.filter is_web_registration calls = [].
Proof.
  exact (upnp_device_init_registers upnp_ok repo scpd_of (Some 0) render_device
           "eth0" 49494 0 _ eq_refl).
Defined.

(** The network is down: no device, and UpnpFinish last. *)
Lemma upnp_device_init_result_witness :
  exists result tr,
    upnp_device_init upnp_down repo scpd_of None render_device "eth0" 49494 0
      = Some (result, tr) /\
    result = None /\ last tr = Some call_UpnpFinish.
Proof.
  destruct (upnp_device_init_result upnp_down repo scpd_of None render_device
              "eth0" 49494 0 _ eq_refl I)
    as (result & tr & H & _ & Hsome & _ & Hnone).
  exists result, tr. split; [exact H|].
  assert (E : result = None).
  { destruct result as [device|]; [|reflexivity].
    destruct Hsome as [Hs _].
    assert (Hf : fst (initialize_device upnp_down repo render_device "eth0"
                        49494
                        {| priv := {| descriptor := render_device;
                                      device_handle := 0 |};
                           trace := [] |}) = true)
      by (apply Hs; eauto).
    vm_compute in Hf. discriminate Hf. }
  split; [exact E | apply (Hnone E)].
Defined.

Lemma upnp_device_init_null_icons_witness :
  upnp_device_init upnp_ok repo scpd_of None headless_device "eth0" 49494 0
    = None /\
  doc_icon_urls (device_desc_doc headless_device) = None.
Proof.
  destruct (upnp_device_init_null_icons upnp_ok repo scpd_of None
              headless_device "eth0" 49494 0 eq_refl) as (H & Hicons & _).
  split; [apply H; exact I | exact Hicons].
Defined.

End Cases.
